(** * x402 on Cronos: hook-data codec, service registry, authorization
      preparer and submission pipeline

    A shallow embedding of the TypeScript sources
    ([shared/hook-data-codec.ts], [shared/network-config.ts],
    [shared/contract-reader.ts], [errors/index.ts], [server/server.ts],
    [client/client.ts]) together with the parts of the [ethers] v6
    library those sources call ([getAddress], [isAddress], [AbiCoder],
    [parseUnits], [hexlify]).

    Conventions of the embedding:
    - a JavaScript string is a [string]; one [ascii] stands for one
      UTF-16 code unit, so [String.length] is the [.length] of the source;
    - a JavaScript [number] that the sources use as an integer (bips,
      seconds, chain ids, clock readings) is a [Z];
    - a [bigint] is a [Z];
    - thrown values are the constructors of [Thrown]; a function that can
      throw returns a [Result];
    - the ledger, the clock and the random source are read through an
      explicit environment, and every operation that the program
      attempts on the ledger gateway is appended to a trace. *)

From Stdlib Require Import ZArith Ascii String List Lia Bool.
From stdpp Require Import base option list strings pretty gmap.

Local Open Scope string_scope.
Local Open Scope Z_scope.
Local Open Scope list_scope.

(** ** Keccak-256, as used by [ethers.getAddress] for EIP-55 checksums *)

Module Keccak.

Definition mask64 : Z := 18446744073709551615.

Definition rotl64 (x n : Z) : Z :=
  Z.land (Z.lor (Z.shiftl x n) (Z.shiftr x (64 - n))) mask64.

Definition lane (st : list Z) (x y : Z) : Z :=
  nth (Z.to_nat (x mod 5 + 5 * (y mod 5))) st 0.

Definition coords : list (Z * Z) :=
  flat_map (fun y => map (fun x => (x, y)) [0; 1; 2; 3; 4]) [0; 1; 2; 3; 4].

Definition rotation_offsets : list Z :=
  [ 0;  1; 62; 28; 27;
   36; 44;  6; 55; 20;
    3; 10; 43; 25; 39;
   41; 45; 15; 21;  8;
   18;  2; 61; 56; 14].

Definition round_constants : list Z :=
  [0x0000000000000001; 0x0000000000008082; 0x800000000000808A;
   0x8000000080008000; 0x000000000000808B; 0x0000000080000001;
   0x8000000080008081; 0x8000000000008009; 0x000000000000008A;
   0x0000000000000088; 0x0000000080008009; 0x000000008000000A;
   0x000000008000808B; 0x800000000000008B; 0x8000000000008089;
   0x8000000000008003; 0x8000000000008002; 0x8000000000000080;
   0x000000000000800A; 0x800000008000000A; 0x8000000080008081;
   0x8000000000008080; 0x0000000080000001; 0x8000000080008008].

Definition theta (st : list Z) : list Z :=
  let C x := fold_left Z.lxor (map (lane st x) [0; 1; 2; 3; 4]) 0 in
  let D x := Z.lxor (C (x + 4)) (rotl64 (C (x + 1)) 1) in
  map (fun '(x, y) => Z.lxor (lane st x y) (D x)) coords.

Definition rho_pi (st : list Z) : list Z :=
  map (fun '(x, y) =>
         let sx := (x + 3 * y) mod 5 in
         rotl64 (lane st sx x) (lane rotation_offsets sx x)) coords.

Definition chi (st : list Z) : list Z :=
  map (fun '(x, y) =>
         Z.lxor (lane st x y)
                (Z.land (Z.lxor (lane st (x + 1) y) mask64) (lane st (x + 2) y)))
      coords.

Definition iota (rc : Z) (st : list Z) : list Z :=
  match st with
  | a :: rest => Z.lxor a rc :: rest
  | [] => []
  end.

Definition round (st : list Z) (rc : Z) : list Z :=
  iota rc (chi (rho_pi (theta st))).

Definition keccak_f (st : list Z) : list Z :=
  fold_left round round_constants st.

(** Little-endian lane of eight bytes. *)
Definition lane_of_bytes (bs : list Z) : Z :=
  fold_right (fun b acc => b + 256 * acc) 0 bs.

Fixpoint bytes_of_lane (n : nat) (v : Z) : list Z :=
  match n with
  | O => []
  | S n' => v mod 256 :: bytes_of_lane n' (v / 256)
  end.

Fixpoint chunks (fuel : nat) (size : nat) (bs : list Z) : list (list Z) :=
  match fuel with
  | O => []
  | S fuel' =>
      match bs with
      | [] => []
      | _ => firstn size bs :: chunks fuel' size (skipn size bs)
      end
  end.

Definition rate : nat := 136.

(** Multi-rate padding with the Keccak domain byte [0x01]. *)
Definition pad (msg : list Z) : list Z :=
  let r := (rate - (List.length msg) mod rate)%nat in
  if (r =? 1)%nat then msg ++ [0x81]
  else msg ++ [0x01] ++ repeat 0 (r - 2) ++ [0x80].

Definition absorb (st : list Z) (block : list Z) : list Z :=
  let lanes := map lane_of_bytes (chunks 17 8 block) ++ repeat 0 8 in
  keccak_f (map (fun p => Z.lxor (fst p) (snd p)) (combine st lanes)).

Definition keccak256 (msg : list Z) : list Z :=
  let padded := pad msg in
  let blocks := chunks (List.length padded) rate padded in
  let st := fold_left absorb blocks (repeat 0 25) in
  flat_map (bytes_of_lane 8) (firstn 4 st).

End Keccak.


(** ** JavaScript values and strings *)

Module Js.

(** Property values of the plain objects the sources handle. An object
    is represented by its reference: the sources only test such values
    for truthiness, copy them and compare them by identity. *)
Inductive JsValue : Type :=
| JUndefined
| JNull
| JBool (b : bool)
| JNumber (n : Z)
| JString (s : string)
| JObject (ref : nat).

Global Instance JsValue_eq_dec : EqDecision JsValue.
Proof. solve_decision. Defined.

(** [!v] is [negb (truthy v)]. *)
Definition truthy (v : JsValue) : bool :=
  match v with
  | JUndefined | JNull => false
  | JBool b => b
  | JNumber n => negb (n =? 0)
  | JString s => negb (String.eqb s "")
  | JObject _ => true
  end.

Definition chars (s : string) : list ascii := list_ascii_of_string s.
Definition str (l : list ascii) : string := string_of_list_ascii l.

(** [s.startsWith(p)] *)
Fixpoint startsWith (s p : list ascii) {struct p} : bool :=
  match p, s with
  | [], _ => true
  | c :: p', d :: s' => Ascii.eqb c d && startsWith s' p'
  | _ :: _, [] => false
  end.

(** [s.includes(p)] *)
Fixpoint includes (s p : list ascii) : bool :=
  startsWith s p ||
  match s with
  | [] => false
  | _ :: s' => includes s' p
  end.

(** [s.slice(n)] for a non-negative [n] *)
Definition slice (n : nat) (s : string) : string := str (skipn n (chars s)).

(** [l.join(sep)] *)
Fixpoint join (sep : string) (l : list string) : string :=
  match l with
  | [] => ""
  | [x] => x
  | x :: rest => x +:+ sep +:+ join sep rest
  end.

Definition is_upper_letter (c : ascii) : bool :=
  (65 <=? nat_of_ascii c)%nat && (nat_of_ascii c <=? 90)%nat.
Definition is_lower_letter (c : ascii) : bool :=
  (97 <=? nat_of_ascii c)%nat && (nat_of_ascii c <=? 122)%nat.

(** [toLowerCase] and [toUpperCase] on the letters A-Z and a-z; the
    sources and [ethers] apply them to hexadecimal text only. *)
Definition toLowerChar (c : ascii) : ascii :=
  if is_upper_letter c then ascii_of_nat (nat_of_ascii c + 32) else c.
Definition toUpperChar (c : ascii) : ascii :=
  if is_lower_letter c then ascii_of_nat (nat_of_ascii c - 32) else c.

(** [String(v)], the conversion a template literal applies. *)
Definition toString (v : JsValue) : string :=
  match v with
  | JUndefined => "undefined"
  | JNull => "null"
  | JBool true => "true"
  | JBool false => "false"
  | JNumber n => pretty n
  | JString s => s
  | JObject _ => "[object Object]"
  end.

(** *** Numbers

    A [number] that holds an integer is a [Z]. The sum of two of them is
    the double nearest to the exact sum, ties to the even significand;
    integers of magnitude up to 2^53 are doubles themselves. [None]
    stands for an infinity, the sum beyond the largest double. *)
Definition toDouble (z : Z) : option Z :=
  let a := Z.abs z in
  if a <=? 2 ^ 53 then Some z
  else
    let e := Z.log2 a - 52 in
    let q := a / 2 ^ e in
    let r := a mod 2 ^ e in
    let half := 2 ^ (e - 1) in
    let q' := if r <? half then q
              else if half <? r then q + 1
              else if Z.even q then q else q + 1 in
    if 2 ^ 1024 <=? q' * 2 ^ e then None else Some (Z.sgn z * (q' * 2 ^ e)).

(** [sum + b] for an accumulator [sum] that is a number or an infinity
    and a finite [b]; an infinity stays one. *)
Definition add (sum : option Z) (b : Z) : option Z :=
  match sum with
  | Some a => toDouble (a + b)
  | None => None
  end.

(** [sum === n] *)
Definition strictEq (sum : option Z) (n : Z) : bool :=
  match sum with
  | Some a => a =? n
  | None => false
  end.

(** *** [Map]: insertion-ordered, [set] on a present key keeps its place *)

Section JsMap.
Context {K V : Type} `{EqDecision K}.

Fixpoint map_set (k : K) (v : V) (m : list (K * V)) : list (K * V) :=
  match m with
  | [] => [(k, v)]
  | (k', v') :: rest =>
      if decide (k' = k) then (k, v) :: rest
      else (k', v') :: map_set k v rest
  end.

Fixpoint map_get (k : K) (m : list (K * V)) : option V :=
  match m with
  | [] => None
  | (k', v') :: rest => if decide (k' = k) then Some v' else map_get k rest
  end.

Definition map_values (m : list (K * V)) : list V := map snd m.
Definition map_keys (m : list (K * V)) : list K := map fst m.
End JsMap.

End Js.
Import Js.

(** ** Thrown values ([errors/index.ts]) and results *)

(** Every class of [errors/index.ts] extends [X402Error], which extends
    [Error]; [JsError] is a plain [new Error(message)], [EthersError] an
    error raised inside the [ethers] library (with its [code]), and
    [NonError] a thrown value that is not an [Error] instance.

    For an [EthersError] that a function of this embedding raises, the
    text is the library's short message: the library appends the details
    of the failure, the code and its own version to it, and that suffix
    is not embedded. The statements about such errors are therefore about
    [code_of] only. An [EthersError] that the world raises carries the
    message the world gave it. *)
Inductive Thrown : Type :=
| JsError (message : string)
| EthersError (code : string) (message : string)
| ContractNotFoundError (address : JsValue)
| SignatureError (message : string) (details : option string)
| TransactionError (message : string) (txHash : option string)
                   (revertReason : option string)
| NetworkError (message : string) (url : option string) (status : option Z)
| ConfigurationError (message : string) (missingFields : option (list string))
| NonError (v : JsValue).

(** [error instanceof Error] *)
Definition instanceofError (t : Thrown) : bool :=
  match t with
  | NonError _ => false
  | _ => true
  end.

(** [error.message], as set by the constructors of [errors/index.ts]. *)
Definition message_of (t : Thrown) : string :=
  match t with
  | JsError m | EthersError _ m | SignatureError m _ | TransactionError m _ _
  | NetworkError m _ _ | ConfigurationError m _ => m
  | ContractNotFoundError a => "Contract not found at address: " +:+ Js.toString a
  | NonError _ => ""
  end.

(** The [code] field that [X402Error] stores. *)
Definition code_of (t : Thrown) : option string :=
  match t with
  | ContractNotFoundError _ => Some "CONTRACT_NOT_FOUND"
  | SignatureError _ _ => Some "SIGNATURE_ERROR"
  | TransactionError _ _ _ => Some "TRANSACTION_ERROR"
  | NetworkError _ _ _ => Some "NETWORK_ERROR"
  | ConfigurationError _ _ => Some "CONFIGURATION_ERROR"
  | EthersError c _ => Some c
  | JsError _ | NonError _ => None
  end.

Inductive Result (A : Type) : Type :=
| Ok (a : A)
| Throw (t : Thrown).
Arguments Ok {A} a.
Arguments Throw {A} t.

Definition bindR {A B} (r : Result A) (k : A -> Result B) : Result B :=
  match r with
  | Ok a => k a
  | Throw t => Throw t
  end.

Declare Scope result_scope.
Delimit Scope result_scope with result.
Notation "'let*' x ':=' r 'in' k" := (bindR r (fun x => k))
  (at level 10, x name, r at level 100, k at level 200) : result_scope.

(** Apply a throwing function to every element, left to right. *)
Fixpoint mapR {A B} (f : A -> Result B) (l : list A) : Result (list B) :=
  match l with
  | [] => Ok []
  | x :: rest =>
      bindR (f x) (fun y => bindR (mapR f rest) (fun ys => Ok (y :: ys)))
  end.

Local Open Scope result_scope.

(** ** The [ethers] v6 functions the sources call *)

Module Ethers.

(** *** Positional numerals *)

(** [toBase b n v]: the [n] least significant base-[b] digits of [v],
    most significant first. *)
Fixpoint toBase (b : Z) (n : nat) (v : Z) : list Z :=
  match n with
  | O => []
  | S n' => toBase b n' (v / b) ++ [v mod b]
  end.

Definition fromBase (b : Z) (ds : list Z) : Z :=
  fold_left (fun acc d => acc * b + d) ds 0.

(** Big-endian bytes: [toBeArray] padded to a width, and [toBigInt]. *)
Definition toBeBytes (n : nat) (v : Z) : list Z := toBase 256 n v.
Definition fromBeBytes (bs : list Z) : Z := fromBase 256 bs.

(** *** Hexadecimal text *)

(** The value of a hexadecimal digit of either case, from its code unit. *)
Definition hexVal (c : ascii) : option Z :=
  let n := Z.of_nat (nat_of_ascii c) in
  if (48 <=? n) && (n <=? 57) then Some (n - 48)
  else if (97 <=? n) && (n <=? 102) then Some (n - 87)
  else if (65 <=? n) && (n <=? 70) then Some (n - 55)
  else None.

(** The character class [[0-9a-fA-F]]. *)
Definition isHexChar (c : ascii) : bool :=
  match hexVal c with Some _ => true | None => false end.

Definition hexChar (d : Z) : ascii :=
  nth (Z.to_nat d) (chars "0123456789abcdef") "0"%char.

Definition byteHex (b : Z) : list ascii := map hexChar (toBase 16 2 b).

(** [hexlify(bytes)] *)
Definition hexlify (bs : list Z) : string := str (chars "0x" ++ flat_map byteHex bs).

Fixpoint bytesOfHex (l : list ascii) : option (list Z) :=
  match l with
  | [] => Some []
  | [_] => None
  | h :: lo :: rest =>
      match hexVal h, hexVal lo, bytesOfHex rest with
      | Some hv, Some lv, Some bs => Some (16 * hv + lv :: bs)
      | _, _, _ => None
      end
  end.

(** [getBytes(value)] on a string: the pattern
    [/^0x([0-9a-f][0-9a-f])*$/i], which ignores case, also in the
    prefix. *)
Definition getBytes (value : string) : Result (list Z) :=
  match chars value with
  | "0"%char :: "x"%char :: rest | "0"%char :: "X"%char :: rest =>
      match bytesOfHex rest with
      | Some bs => Ok bs
      | None => Throw (EthersError "INVALID_ARGUMENT" "invalid BytesLike value")
      end
  | _ => Throw (EthersError "INVALID_ARGUMENT" "invalid BytesLike value")
  end.

(** [BigInt("0x...")] for hexadecimal digits. *)
Definition bigIntOfHexDigits (l : list ascii) : Z :=
  fromBase 16 (map (fun c => default 0 (hexVal c)) l).

(** [toBeHex(value, width)] for a non-negative [value]. *)
Definition toBeHex (value : Z) (width : nat) : Result string :=
  if value <? 16 ^ Z.of_nat (2 * width)
  then Ok (str (chars "0x" ++ map hexChar (toBase 16 (2 * width) value)))
  else Throw (EthersError "NUMERIC_FAULT" "value exceeds width").

(** *** Addresses *)

(** [hashed[i >> 1] >> 4] for an even [i], [hashed[i >> 1] & 0x0f] for an
    odd one. *)
Definition hashNibble (hashed : list Z) (i : nat) : Z :=
  let b := nth (i / 2) hashed 0 in
  if Nat.even i then Z.shiftr b 4 else Z.land b 15.

(** The casing loop of [getChecksumAddress] over the 40 characters:
    character [i] is upper-cased when nibble [i] of the Keccak-256 hash of
    the lower-case text is at least 8. *)
Definition checksumCase (lower : list ascii) : list ascii :=
  let hashed :=
    Keccak.keccak256 (map (fun c => Z.of_nat (nat_of_ascii c)) (firstn 40 lower)) in
  imap (fun i c =>
          if (i <? 40)%nat && (8 <=? hashNibble hashed i) then toUpperChar c else c)
       lower.

(** [getChecksumAddress(address)], [address] carrying its [0x] prefix. *)
Definition getChecksumAddress (address : list ascii) : list ascii :=
  chars "0x" ++ checksumCase (skipn 2 (map toLowerChar address)).

Definition isHex40 (l : list ascii) : bool :=
  (length l =? 40)%nat && forallb isHexChar l.

(** [/^(0x)?[0-9a-fA-F]{40}$/] *)
Definition matchesAddress (l : list ascii) : bool :=
  match l with
  | "0"%char :: "x"%char :: rest => isHex40 rest || isHex40 l
  | _ => isHex40 l
  end.

Definition isUpperAF (c : ascii) : bool :=
  (65 <=? nat_of_ascii c)%nat && (nat_of_ascii c <=? 70)%nat.
Definition isLowerAF (c : ascii) : bool :=
  (97 <=? nat_of_ascii c)%nat && (nat_of_ascii c <=? 102)%nat.

(** [/([A-F].*[a-f])|([a-f].*[A-F])/]: a letter of each case occurs. *)
Definition mixedCase (l : list ascii) : bool :=
  existsb isUpperAF l && existsb isLowerAF l.

(** [getAddress(address)]. The hexadecimal branch of the library function
    is embedded in full. Its second branch, direct-mode ICAP text
    ([XE] followed by digits in base 36), is left out: this embedding
    rejects such text as an invalid address. *)
Definition getAddress (address : string) : Result string :=
  let l := chars address in
  if matchesAddress l then
    let prefixed := if startsWith l (chars "0x") then l else chars "0x" ++ l in
    let result := getChecksumAddress prefixed in
    if mixedCase prefixed && negb (bool_decide (result = prefixed))
    then Throw (EthersError "INVALID_ARGUMENT" "bad address checksum")
    else Ok (str result)
  else Throw (EthersError "INVALID_ARGUMENT" "invalid address").

(** [isAddress(value)] *)
Definition isAddress (value : string) : bool :=
  match getAddress value with
  | Ok _ => true
  | Throw _ => false
  end.

(** *** [AbiCoder] for the two types of the codec *)

Definition WordSize : nat := 32.

(** [Writer.writeValue]: one 32-byte big-endian word. *)
Definition writeValue (v : Z) : list Z := toBeBytes WordSize v.

(** [AddressCoder.encode] *)
Definition encodeAddress (value : string) : Result (list Z) :=
  let* a := getAddress value in
  Ok (writeValue (bigIntOfHexDigits (skipn 2 (chars a)))).

(** [NumberCoder.encode] for [uint16]; the [number] must be an integer of
    the range. *)
Definition encodeUint16 (value : Z) : Result (list Z) :=
  if (value <? 0) || (65535 <? value)
  then Throw (EthersError "INVALID_ARGUMENT" "value out-of-bounds")
  else Ok (writeValue value).

(** [Reader.readValue] at byte offset [off] (strict mode). *)
Definition readValue (data : list Z) (off : nat) : Result Z :=
  if (off + WordSize <=? length data)%nat
  then Ok (fromBeBytes (firstn WordSize (skipn off data)))
  else Throw (EthersError "BUFFER_OVERRUN" "data out-of-bounds").

(** [Reader.readIndex]: a word that must be a safe integer. *)
Definition readIndex (data : list Z) (off : nat) : Result nat :=
  let* v := readValue data off in
  if v <=? 9007199254740991 then Ok (Z.to_nat v)
  else Throw (EthersError "INVALID_ARGUMENT" "overflow").

(** [AddressCoder.decode] *)
Definition decodeAddress (data : list Z) (off : nat) : Result string :=
  let* v := readValue data off in
  let* h := toBeHex v 20 in
  getAddress h.

(** [NumberCoder.decode] for [uint16]: the word masked to 16 bits. *)
Definition decodeUint16 (data : list Z) (off : nat) : Result Z :=
  let* v := readValue data off in
  Ok (Z.land v 65535).

(** [abiCoder.encode(['tuple(address)'], [[a]])] *)
Definition encodeAddressTuple (a : string) : Result string :=
  let* w := encodeAddress a in
  Ok (hexlify w).

(** The [try] of [unpack] around the decoding of one component: a buffer
    overrun is thrown on at once; any other error is kept in the place of
    the value. *)
Definition defer {A} (r : Result A) : Result (Result A) :=
  match r with
  | Ok v => Ok (Ok v)
  | Throw t =>
      if bool_decide (code_of t = Some "BUFFER_OVERRUN") then Throw t
      else Ok (Throw t)
  end.

(** A text between double quotes, as [JSON.stringify] writes a plain
    name. *)
Definition quoted (s : string) : string :=
  String "034"%char (s +:+ String "034"%char EmptyString).

(** Reading a component of a [Result]: a kept error is thrown then, as a
    plain [Error] that names the [accessor] ([throwError]). *)
Definition readItem {A} (accessor : string) (item : Result A) : Result A :=
  match item with
  | Ok v => Ok v
  | Throw _ =>
      Throw (JsError ("deferred error during ABI decoding triggered accessing "
                      +:+ accessor))
  end.

(** [abiCoder.decode(['tuple(address)'], data)[0][0]] *)
Definition decodeAddressTuple (data : string) : Result string :=
  let* bs := getBytes data in
  let* item := defer (decodeAddress bs 0) in
  readItem "index 0" item.

(** [abiCoder.encode(['tuple(address recipient, uint16 bips)[]'], [l])]
    for a list of (recipient, bips): offset word, length word, and two
    words per element. *)
Definition encodeSplitArray (l : list (string * Z)) : Result string :=
  let* items :=
    mapR (fun '(r, b) =>
            let* rw := encodeAddress r in
            let* bw := encodeUint16 b in
            Ok (rw ++ bw)) l in
  Ok (hexlify (writeValue 32 ++ writeValue (Z.of_nat (length l)) ++ concat items)).

(** The element loop of [ArrayCoder.decode]: [count] static tuples read
    one after the other from offset [off]. Every element is decoded
    before any is read; the address of an element is its value or the
    error kept for it. *)
Fixpoint decodeSplitItems (data : list Z) (off : nat) (count : nat)
  : Result (list (Result string * Z)) :=
  match count with
  | O => Ok []
  | S count' =>
      let* r := defer (decodeAddress data off) in
      let* b := decodeUint16 data (off + WordSize) in
      let* rest := decodeSplitItems data (off + 2 * WordSize) count' in
      Ok ((r, b) :: rest)
  end.

(** [ArrayCoder.decode] on the data at the offset: the length word, the
    test that the data can hold that many words, the elements. *)
Definition decodeArray (sub : list Z) : Result (list (Result string * Z)) :=
  let* count := readIndex sub 0 in
  if (count * WordSize <=? length sub)%nat
  then decodeSplitItems sub WordSize count
  else Throw (EthersError "BUFFER_OVERRUN" "insufficient data length").

(** [abiCoder.decode(['tuple(address recipient, uint16 bips)[]'], data)[0]
    .map((s) => [s.recipient, s.bips])]: the offset word is read outside
    the [try] of [unpack], the array inside it; then the array is read,
    and of every element its [recipient]. *)
Definition decodeSplitArray (data : string) : Result (list (string * Z)) :=
  let* bs := getBytes data in
  let* offset := readIndex bs 0 in
  let sub := skipn offset bs in
  let* array := defer (decodeArray sub) in
  let* items := readItem "index 0" array in
  mapR (fun item : Result string * Z =>
          let* r := readItem ("property " +:+ quoted "recipient") (fst item) in
          Ok (r, snd item))
       items.

(** *** [parseUnits(value, decimals)] *)

Definition isDigit (c : ascii) : bool :=
  (48 <=? nat_of_ascii c)%nat && (nat_of_ascii c <=? 57)%nat.

Definition digitVal (c : ascii) : Z := Z.of_nat (nat_of_ascii c) - 48.

Fixpoint takeDigits (l : list ascii) : list ascii :=
  match l with
  | c :: rest => if isDigit c then c :: takeDigits rest else []
  | [] => []
  end.

Fixpoint dropDigits (l : list ascii) : list ascii :=
  match l with
  | c :: rest => if isDigit c then dropDigits rest else l
  | [] => []
  end.

(** The match of the pattern of [FixedNumber.fromString]: an optional
    minus sign, a greedy run of digits (the whole part), an optional
    point, a run of digits (the fractional part), then the end of the
    text; [None] when the text does not match. *)
Definition matchDecimal (l : list ascii)
  : option (bool * list ascii * list ascii) :=
  let (neg, body) :=
    match l with
    | c :: rest => if Ascii.eqb c "-"%char then (true, rest) else (false, l)
    | [] => (false, l)
    end in
  let whole := takeDigits body in
  let after := dropDigits body in
  let frac :=
    match after with
    | c :: rest => if Ascii.eqb c "."%char then rest else after
    | [] => after
    end in
  if forallb isDigit frac then Some (neg, whole, frac) else None.

(** [while (decimal.length < decimals) { decimal += "0000"; }] *)
Fixpoint padDecimal (fuel : nat) (decimals : nat) (decimal : list ascii)
  : list ascii :=
  match fuel with
  | O => decimal
  | S fuel' =>
      if (length decimal <? decimals)%nat
      then padDecimal fuel' decimals (decimal ++ chars "0000")
      else decimal
  end.

(** [BigInt(text)] for decimal digits. *)
Definition bigIntOfDigits (l : list ascii) : Z := fromBase 10 (map digitVal l).

(** [parseUnits(value, decimals)] is
    [FixedNumber.fromString(value, {decimals, width: 512}).value]. *)
Definition parseUnits (value : string) (decimals : nat) : Result Z :=
  match matchDecimal (chars value) with
  | Some (neg, m2, m3) =>
      if (0 <? length m2 + length m3)%nat then
        let whole := match m2 with [] => chars "0" | _ => m2 end in
        let decimal := padDecimal decimals decimals m3 in
        if forallb (Ascii.eqb "0"%char) (skipn decimals decimal) then
          let magnitude := bigIntOfDigits (whole ++ firstn decimals decimal) in
          let v := if neg then - magnitude else magnitude in
          if (- 2 ^ 511 <=? v) && (v <? 2 ^ 511) then Ok v
          else Throw (EthersError "NUMERIC_FAULT" "overflow")
        else Throw (EthersError "NUMERIC_FAULT" "too many decimals for format")
      else Throw (EthersError "INVALID_ARGUMENT" "invalid FixedNumber string value")
  | None => Throw (EthersError "INVALID_ARGUMENT" "invalid FixedNumber string value")
  end.

End Ethers.

(** ** [shared/types.ts] and [shared/hook-data-codec.ts] *)

Module HookDataCodec.

(** One entry of [TransferSplitHookData.splits]. [bips] is a [number];
    the embedding covers the values that are integers. *)
Record Split : Type := { recipient : string; bips : Z }.

(** [HookDataParams]: the union of the three interfaces, discriminated by
    the [type] field; [splits] is an optional property. *)
Inductive HookDataParams : Type :=
| NFTMintHookData (nftContract : string)
| RewardPointsHookData (rewardToken : string)
| TransferSplitHookData (splits : option (list Split)).

(** [params.type] *)
Definition type_of (params : HookDataParams) : string :=
  match params with
  | NFTMintHookData _ => "nft-mint"
  | RewardPointsHookData _ => "reward-points"
  | TransferSplitHookData _ => "transfer-split"
  end.

(** Property reads through the casts of [encode]: a property that the
    value does not have reads as [undefined] ([None]). *)
Definition get_nftContract (params : HookDataParams) : option string :=
  match params with NFTMintHookData c => Some c | _ => None end.
Definition get_rewardToken (params : HookDataParams) : option string :=
  match params with RewardPointsHookData t => Some t | _ => None end.
Definition get_splits (params : HookDataParams) : option (list Split) :=
  match params with TransferSplitHookData s => s | _ => None end.

(** [abiCoder.encode(['tuple(address)'], [[v]])]; an [undefined] address
    is refused by the library. *)
Definition encodeAddressProperty (v : option string) : Result string :=
  match v with
  | Some a => Ethers.encodeAddressTuple a
  | None => Throw (EthersError "INVALID_ARGUMENT" "invalid address")
  end.

Definition encode (hookType : string) (params : HookDataParams) : Result string :=
  if String.eqb hookType "nft-mint" then
    encodeAddressProperty (get_nftContract params)
  else if String.eqb hookType "reward-points" then
    encodeAddressProperty (get_rewardToken params)
  else if String.eqb hookType "transfer-split" then
    match get_splits params with
    | None => Ok "0x"
    | Some l =>
        if (length l =? 0)%nat then Ok "0x"
        else
          let splits := map (fun s => (recipient s, bips s)) l in
          Ethers.encodeSplitArray splits
    end
  else Throw (JsError ("Unknown hook type: " +:+ hookType)).

Definition decode (hookType : string) (hookData : string) : Result HookDataParams :=
  if String.eqb hookType "nft-mint" then
    if String.eqb hookData "0x" || String.eqb hookData "" then
      Throw (JsError "NFT mint hookData cannot be empty")
    else
      let* a := Ethers.decodeAddressTuple hookData in
      Ok (NFTMintHookData a)
  else if String.eqb hookType "reward-points" then
    if String.eqb hookData "0x" || String.eqb hookData "" then
      Throw (JsError "Reward points hookData cannot be empty")
    else
      let* a := Ethers.decodeAddressTuple hookData in
      Ok (RewardPointsHookData a)
  else if String.eqb hookType "transfer-split" then
    if String.eqb hookData "0x" || String.eqb hookData "" then
      Ok (TransferSplitHookData None)
    else
      let* decoded := Ethers.decodeSplitArray hookData in
      let splits := map (fun s => {| recipient := fst s; bips := snd s |}) decoded in
      Ok (TransferSplitHookData (Some splits))
  else Throw (JsError ("Unknown hook type: " +:+ hookType)).

(** The [default] branch of the source is not reachable from a value of
    the union. *)
Definition validate (params : HookDataParams) : bool :=
  match params with
  | NFTMintHookData nftContract => Ethers.isAddress nftContract
  | RewardPointsHookData rewardToken => Ethers.isAddress rewardToken
  | TransferSplitHookData splits =>
      match splits with
      | None => true
      | Some l =>
          if (length l =? 0)%nat then true
          else
            let allValidAddresses :=
              forallb (fun s => Ethers.isAddress (recipient s)) l in
            let totalBips := fold_left (fun sum s => add sum (bips s)) l (Some 0) in
            allValidAddresses && strictEq totalBips 10000
      end
  end.

End HookDataCodec.

(** ** [shared/network-config.ts] *)

Module NetworkConfig.

Inductive CronosNetwork : Type := cronos | cronos_testnet.

Record NetworkSettings : Type := {
  chainId : Z;
  rpcUrl : string;
  usdcAddress : string;
  blockExplorer : string
}.

Definition NETWORK_CONFIGS (network : CronosNetwork) : NetworkSettings :=
  match network with
  | cronos =>
      {| chainId := 25;
         rpcUrl := "https://evm.cronos.org";
         usdcAddress := "0xc21223249CA28397B4B6541dfFaEcC539BfF0c59";
         blockExplorer := "https://explorer.cronos.org" |}
  | cronos_testnet =>
      {| chainId := 338;
         rpcUrl := "https://evm-t3.cronos.org";
         usdcAddress := "0xc01efAaF7C5C61bEbFAeb358E1161b537b8bC0e0";
         blockExplorer := "https://explorer.cronos.org/testnet" |}
  end.

(** The network named by a string, for the strings [isValidNetwork]
    accepts. *)
Definition network_of_string (network : string) : option CronosNetwork :=
  if String.eqb network "cronos" then Some cronos
  else if String.eqb network "cronos-testnet" then Some cronos_testnet
  else None.

Definition isValidNetwork (network : string) : bool :=
  String.eqb network "cronos" || String.eqb network "cronos-testnet".

Definition getDefaultConfig (network : CronosNetwork) : NetworkSettings :=
  NETWORK_CONFIGS network.

(** An absent or empty [customRpcUrl] is falsy. *)
Definition getConfig (network : CronosNetwork) (customRpcUrl : option string)
  : NetworkSettings :=
  let config := getDefaultConfig network in
  match customRpcUrl with
  | Some url =>
      if negb (String.eqb url "") then
        {| chainId := chainId config; rpcUrl := url;
           usdcAddress := usdcAddress config;
           blockExplorer := blockExplorer config |}
      else config
  | None => config
  end.

End NetworkConfig.

(** ** Effects: state, exceptions and the ledger *)

(** A computation over a state [S] that returns or throws. The state
    that was reached is kept when it throws. *)
Definition M (S A : Type) : Type := S -> Result A * S.

Definition ret {S A} (a : A) : M S A := fun s => (Ok a, s).
Definition throw {S A} (t : Thrown) : M S A := fun s => (Throw t, s).
Definition liftR {S A} (r : Result A) : M S A := fun s => (r, s).

Definition bind {S A B} (m : M S A) (k : A -> M S B) : M S B :=
  fun s =>
    match m s with
    | (Ok a, s') => k a s'
    | (Throw t, s') => (Throw t, s')
    end.

(** [try { m } catch (error) { h error }] *)
Definition tryCatch {S A} (m : M S A) (h : Thrown -> M S A) : M S A :=
  fun s =>
    match m s with
    | (Ok a, s') => (Ok a, s')
    | (Throw t, s') => h t s'
    end.

Notation "'let!' x ':=' m 'in' k" := (bind m (fun x => k))
  (at level 10, x name, m at level 100, k at level 200).

(** The operations of the ledger gateway: the calls that the sources
    make on [ethers] contract objects. *)
Module Ledger.

(** Arguments of [calculateCommitment]. *)
Record CommitmentParams : Type := {
  token : string;
  from : string;
  value : Z;
  validAfter : Z;
  validBefore : Z;
  salt : string;
  payTo : string;
  facilitatorFee : Z;
  hook : string;
  hookData : string
}.

(** Arguments of [settleAndExecute], in the order of the call. *)
Record SettleArgs : Type := {
  s_token : string;
  s_from : string;
  s_value : Z;
  s_validAfter : Z;
  s_validBefore : Z;
  s_nonce : string;
  s_signature : string;
  s_salt : string;
  s_payTo : string;
  s_facilitatorFee : Z;
  s_hook : string;
  s_hookData : string
}.

Record Log : Type := { topics : list string; data : string }.

Record Receipt : Type := {
  hash : string;
  blockNumber : Z;
  logs : list Log
}.

(** What [Interface.parseLog] returns for a log it recognises. *)
Record LogDescription : Type := {
  log_name : string;
  log_inputs : list string;
  log_args : list JsValue
}.

(** An operation that the program attempts. What the library does for it
    (building the contract object, encoding the arguments, the JSON-RPC
    exchange) is behind the answer of the world; the library can refuse
    a call before it sends anything (an argument that does not fit its
    type, a target that is no address, a key that is no key), and the
    answer is then the error it throws. *)
Inductive Call : Type :=
| ReadSettlementRouter (hookAddress : JsValue)
| ReadCommitment (routerAddress : string) (params : CommitmentParams)
| ReadTokenName (tokenAddress : string)
| ReadTokenVersion (tokenAddress : string)
| SendSettleAndExecute (routerAddress : string) (signerPrivateKey : string)
                       (args : SettleArgs)
| WaitForReceipt (txHash : string).

(** The world outside the program: how the library and the ledger behind
    it answer each operation in a world [W], the clock and the random
    source. Nothing is assumed about the answers. *)
Record Env (W : Type) : Type := {
  hook_settlementRouter : W -> JsValue -> Result string * W;
  router_calculateCommitment : W -> string -> CommitmentParams -> Result string * W;
  token_name : W -> string -> Result string * W;
  token_version : W -> string -> Result string * W;
  router_settleAndExecute : W -> string -> string -> SettleArgs -> Result string * W;
  tx_wait : W -> string -> Result Receipt * W;
  interface_parseLog : Log -> Result (option LogDescription);
  date_now : W -> Z * W;
  randomBytes : W -> nat -> list Z * W
}.
Arguments hook_settlementRouter {W}.
Arguments router_calculateCommitment {W}.
Arguments token_name {W}.
Arguments token_version {W}.
Arguments router_settleAndExecute {W}.
Arguments tx_wait {W}.
Arguments interface_parseLog {W}.
Arguments date_now {W}.
Arguments randomBytes {W}.

(** The world and the operations attempted so far, oldest first. The
    trace bounds what reached the ledger from above: an operation that is
    not in it was never attempted, one that is in it may have been
    refused by the library before anything was sent. *)
Record State (W : Type) : Type := { world : W; trace : list Call }.
Arguments world {W}.
Arguments trace {W}.

(** Attempt an operation: the attempt is recorded, and the world
    answers. *)
Definition request {W A} (c : Call) (answer : W -> Result A * W) : M (State W) A :=
  fun s =>
    let (r, w') := answer (world s) in
    (r, {| world := w'; trace := trace s ++ [c] |}).

(** Read the clock or the random source: no operation of the gateway. *)
Definition ambient {W A} (read : W -> A * W) : M (State W) A :=
  fun s =>
    let (a, w') := read (world s) in
    (Ok a, {| world := w'; trace := trace s |}).

End Ledger.

(** ** [shared/contract-reader.ts] *)

Module ContractReader.
Import Ledger.

Section Reader.
Context {W : Type} (E : Env W).

Definition getSettlementRouter (hookAddress : JsValue) : M (State W) string :=
  tryCatch
    (let! routerAddress :=
       request (ReadSettlementRouter hookAddress)
               (fun w => hook_settlementRouter E w hookAddress) in
     ret routerAddress)
    (fun error =>
       if instanceofError error then
         if includes (chars (message_of error)) (chars "call revert")
            || includes (chars (message_of error)) (chars "CALL_EXCEPTION")
         then throw (ContractNotFoundError hookAddress)
         else throw (NetworkError
                       ("Failed to read settlement router: " +:+ message_of error)
                       None None)
       else throw error).

Definition calculateCommitment (routerAddress : string) (params : CommitmentParams)
  : M (State W) string :=
  tryCatch
    (let! commitment :=
       request (ReadCommitment routerAddress params)
               (fun w => router_calculateCommitment E w routerAddress params) in
     ret commitment)
    (fun error =>
       if instanceofError error then
         throw (NetworkError
                  ("Failed to calculate commitment: " +:+ message_of error)
                  None None)
       else throw error).

(** [Promise.all([token.name(), token.version()])]: both reads are
    issued; the embedding takes them in this order, and the first
    failure is the one reported. *)
Definition getTokenInfo (tokenAddress : string) : M (State W) (string * string) :=
  tryCatch
    (fun s =>
       let '(rn, s1) := request (ReadTokenName tokenAddress)
                          (fun w => token_name E w tokenAddress) s in
       let '(rv, s2) := request (ReadTokenVersion tokenAddress)
                          (fun w => token_version E w tokenAddress) s1 in
       match rn, rv with
       | Ok name, Ok version => (Ok (name, version), s2)
       | Throw t, _ => (Throw t, s2)
       | Ok _, Throw t => (Throw t, s2)
       end)
    (fun error =>
       if instanceofError error then
         throw (NetworkError
                  ("Failed to read token info: " +:+ message_of error)
                  None None)
       else throw error).

End Reader.
End ContractReader.

(** ** [server/server.ts] *)

Module X402Server.
Import Ledger.

(** [X402ServiceConfig] and [X402Service] values are plain objects: the
    source tests their properties for truthiness and copies them with a
    spread. A property that is not there reads as [undefined]. *)
Abbreviation JsObject := (gmap string JsValue).

Definition prop (o : JsObject) (k : string) : JsValue := default JUndefined (o !! k).

(** [X402ServerConfig]; [None] is a property that is [undefined]. *)
Record X402ServerConfig : Type := {
  name : option string;
  description : option string;
  url : option string;
  network : option string;
  rpcUrl : option string
}.

(** [!v] for an optional string. *)
Definition falsy (v : option string) : bool :=
  match v with
  | None => true
  | Some s => String.eqb s ""
  end.

(** The fields of the object that are fixed by the constructor. *)
Record X402Server : Type := {
  config : X402ServerConfig;
  networkSettings : NetworkConfig.NetworkSettings
}.

(** The mutable part: the [services] map of the object and the ledger
    behind its [contractReader]. *)
Record State (W : Type) : Type := {
  services : list (JsValue * JsObject);
  ledger : Ledger.State W
}.
Arguments services {W}.
Arguments ledger {W}.

Definition liftLedger {W A} (m : M (Ledger.State W) A) : M (State W) A :=
  fun s =>
    let (r, l') := m (ledger s) in
    (r, {| services := services s; ledger := l' |}).

Definition push_if (b : bool) (field : string) (missingFields : list string)
  : list string :=
  if b then missingFields ++ [field] else missingFields.

Definition validateConfig (config : X402ServerConfig)
  : Result NetworkConfig.CronosNetwork :=
  let missingFields := [] in
  let missingFields := push_if (falsy (name config)) "name" missingFields in
  let missingFields := push_if (falsy (url config)) "url" missingFields in
  let missingFields := push_if (falsy (network config)) "network" missingFields in
  if (0 <? length missingFields)%nat then
    Throw (ConfigurationError
             ("Missing required configuration fields: " +:+ join ", " missingFields)
             (Some missingFields))
  else
    match NetworkConfig.network_of_string (default "" (network config)) with
    | Some n => Ok n
    | None =>
        Throw (ConfigurationError
                 ("Invalid network: " +:+ default "" (network config)
                  +:+ ". Must be 'cronos' or 'cronos-testnet'")
                 None)
    end.

(** [new X402Server(config)]; its [services] map starts empty. The
    network that [validateConfig] returns is the key under which the
    constructor reads [NETWORK_CONFIGS]. *)
Definition createX402Server (config : X402ServerConfig) : Result X402Server :=
  let* n := validateConfig config in
  Ok {| config := config;
        networkSettings := NetworkConfig.getConfig n (rpcUrl config) |}.

Section Methods.
Context {W : Type} (E : Env W) (this : X402Server).

Definition addService (serviceConfig : JsObject) : M (State W) unit :=
  let missingFields := [] in
  let missingFields :=
    push_if (negb (truthy (prop serviceConfig "id"))) "id" missingFields in
  let missingFields :=
    push_if (negb (truthy (prop serviceConfig "hookAddress"))) "hookAddress"
            missingFields in
  let missingFields :=
    push_if (negb (truthy (prop serviceConfig "hookType"))) "hookType"
            missingFields in
  let missingFields :=
    push_if (negb (truthy (prop serviceConfig "network"))) "network"
            missingFields in
  if (0 <? length missingFields)%nat then
    throw (ConfigurationError
             ("Missing required service fields: " +:+ join ", " missingFields)
             (Some missingFields))
  else
    let! settlementRouter :=
      liftLedger (ContractReader.getSettlementRouter E
                    (prop serviceConfig "hookAddress")) in
    let service : JsObject :=
      <["chainId" := JNumber (NetworkConfig.chainId (networkSettings this))]>
        (<["usdcAddress" := JString (NetworkConfig.usdcAddress (networkSettings this))]>
           (<["settlementRouter" := JString settlementRouter]> serviceConfig)) in
    fun s =>
      (Ok tt,
       {| services := map_set (prop serviceConfig "id") service (services s);
          ledger := ledger s |}).

Definition getService (id : JsValue) (s : State W) : option JsObject :=
  map_get id (services s).

Definition listServices (s : State W) : list JsObject :=
  map_values (services s).

(** [getAgentCard()]: name, description, url and the listing. *)
Definition getAgentCard (s : State W)
  : option string * option string * option string * list JsObject :=
  (name (config this), description (config this), url (config this),
   listServices s).

End Methods.

(** A sequence of [addService] calls, each awaited before the next; a
    call that throws does not stop the caller from making the next. *)
Fixpoint addServices {W} (E : Env W) (this : X402Server)
         (configs : list JsObject) (s : State W) : State W :=
  match configs with
  | [] => s
  | c :: rest => addServices E this rest (snd (addService E this c s))
  end.

End X402Server.

(** ** [client/client.ts] *)

Module X402Client.
Import Ledger.

(** The fields of [X402Service] that the client reads. *)
Record X402Service : Type := {
  id : string;
  title : string;
  hookType : string;
  hookAddress : string;
  network : string;
  settlementRouter : string;
  usdcAddress : string;
  chainId : Z
}.

(** [TransactionParams]; [None] is an optional property left out. *)
Record TransactionParams : Type := {
  service : X402Service;
  payerAddress : string;
  payTo : string;
  paymentAmount : string;
  facilitatorFee : option string;
  hookDataParams : HookDataCodec.HookDataParams;
  validitySeconds : option Z
}.

Record EIP712Domain : Type := {
  d_name : string;
  d_version : string;
  d_chainId : Z;
  d_verifyingContract : string
}.

Record EIP712Message : Type := {
  m_from : string;
  m_to : string;
  m_value : string;
  m_validAfter : string;
  m_validBefore : string;
  m_nonce : string
}.

Record EIP712TypedData : Type := {
  types_EIP712Domain : list (string * string);
  types_TransferWithAuthorization : list (string * string);
  primaryType : string;
  domain : EIP712Domain;
  message : EIP712Message
}.

(** [PreparedTransaction.params] *)
Record TransferParams : Type := {
  p_token : string;
  p_from : string;
  p_value : Z;
  p_validAfter : Z;
  p_validBefore : Z;
  p_payTo : string;
  p_facilitatorFee : Z;
  p_hook : string
}.

Record PreparedTransaction : Type := {
  typedData : EIP712TypedData;
  routerAddress : string;
  nonce : string;
  salt : string;
  hookData : string;
  params : TransferParams
}.

Record TransactionEvent : Type := {
  event_name : string;
  event_args : list (string * JsValue)
}.

Record TransactionResult : Type := {
  success : bool;
  txHash : string;
  blockNumber : Z;
  events : list TransactionEvent
}.

(** [v || d] for an optional string: absent and empty are falsy. *)
Definition orString (v : option string) (d : string) : string :=
  match v with
  | Some s => if String.eqb s "" then d else s
  | None => d
  end.

(** [v || d] for an optional number: absent and zero are falsy. *)
Definition orNumber (v : option Z) (d : Z) : Z :=
  match v with
  | Some n => if n =? 0 then d else n
  | None => d
  end.

(** The double quote, code unit 34. *)
Definition dquote : ascii := "034"%char.

(** The test of [/^[0-9a-fA-F]+$/]. *)
Definition testHexPlus (l : list ascii) : bool :=
  match l with
  | [] => false
  | _ :: _ => forallb Ethers.isHexChar l
  end.

Definition validateSignature (signature : string) : bool :=
  if negb (startsWith (chars signature) (chars "0x")) then false
  else if negb (String.length signature =? 132)%nat then false
  else
    let hexPart := slice 2 signature in
    testHexPlus (chars hexPart).

Fixpoint takeNonQuote (l : list ascii) : list ascii :=
  match l with
  | c :: rest => if Ascii.eqb c dquote then [] else c :: takeNonQuote rest
  | [] => []
  end.

(** The first match of the pattern [reason=], a double quote, one or more
    characters other than a double quote, a double quote: the captured
    group. *)
Fixpoint matchRevertReason (l : list ascii) : option (list ascii) :=
  let here :=
    let pre := chars "reason=" ++ [dquote] in
    if startsWith l pre then
      let body := skipn (length pre) l in
      let group := takeNonQuote body in
      match group, skipn (length group) body with
      | _ :: _, q :: _ => if Ascii.eqb q dquote then Some group else None
      | _, _ => None
      end
    else None in
  match here with
  | Some g => Some g
  | None =>
      match l with
      | [] => None
      | _ :: rest => matchRevertReason rest
      end
  end.

(** [Object.fromEntries(inputs.map((input, i) => [input.name, args[i]]))] *)
Definition eventArgs (inputs : list string) (args : list JsValue)
  : list (string * JsValue) :=
  fold_left (fun o p => map_set (snd p) (nth (fst p) args JUndefined) o)
            (combine (seq 0 (length inputs)) inputs) [].

Section Methods.
Context {W : Type} (E : Env W).

Definition prepareTransaction (params : TransactionParams)
  : M (Ledger.State W) PreparedTransaction :=
  let service := service params in
  let facilitatorFee := orString (facilitatorFee params) "0" in
  let validitySeconds := orNumber (validitySeconds params) 3600 in
  let! hookData :=
    liftR (HookDataCodec.encode (hookType service) (hookDataParams params)) in
  let! random := ambient (fun w => randomBytes E w 32) in
  let salt := Ethers.hexlify random in
  let validAfter := 0 in
  let! now := ambient (date_now E) in
  let validBefore := now / 1000 + validitySeconds in
  let! value := liftR (Ethers.parseUnits (paymentAmount params) 6) in
  let! fee := liftR (Ethers.parseUnits facilitatorFee 6) in
  let! nonce :=
    ContractReader.calculateCommitment E (settlementRouter service)
      {| token := usdcAddress service;
         from := payerAddress params;
         value := value;
         Ledger.validAfter := validAfter;
         Ledger.validBefore := validBefore;
         Ledger.salt := salt;
         Ledger.payTo := payTo params;
         Ledger.facilitatorFee := fee;
         hook := hookAddress service;
         Ledger.hookData := hookData |} in
  let! tokenInfo := ContractReader.getTokenInfo E (usdcAddress service) in
  let typedData :=
    {| types_EIP712Domain :=
         [("name", "string"); ("version", "string"); ("chainId", "uint256");
          ("verifyingContract", "address")];
       types_TransferWithAuthorization :=
         [("from", "address"); ("to", "address"); ("value", "uint256");
          ("validAfter", "uint256"); ("validBefore", "uint256");
          ("nonce", "bytes32")];
       primaryType := "TransferWithAuthorization";
       domain :=
         {| d_name := fst tokenInfo;
            d_version := snd tokenInfo;
            d_chainId := chainId service;
            d_verifyingContract := usdcAddress service |};
       message :=
         {| m_from := payerAddress params;
            m_to := settlementRouter service;
            m_value := pretty value;
            m_validAfter := pretty validAfter;
            m_validBefore := pretty validBefore;
            m_nonce := nonce |} |} in
  ret {| typedData := typedData;
         routerAddress := settlementRouter service;
         nonce := nonce;
         salt := salt;
         hookData := hookData;
         params :=
           {| p_token := usdcAddress service;
              p_from := payerAddress params;
              p_value := value;
              p_validAfter := validAfter;
              p_validBefore := validBefore;
              p_payTo := payTo params;
              p_facilitatorFee := fee;
              p_hook := hookAddress service |} |}.

(** The callback of [receipt.logs.map]: a log that the interface does not
    recognise, or that makes it throw, becomes the event [Unknown]. *)
Definition parseEvent (log : Log) : TransactionEvent :=
  match interface_parseLog E log with
  | Ok (Some parsed) =>
      {| event_name := log_name parsed;
         event_args := eventArgs (log_inputs parsed) (log_args parsed) |}
  | Ok None | Throw _ => {| event_name := "Unknown"; event_args := [] |}
  end.

(** The answer to [SendSettleAndExecute] covers the construction of the
    wallet from [signerPrivateKey] and of the router contract object,
    which happen inside the same [try]. *)
Definition submitTransaction (prepared : PreparedTransaction)
           (signature : string) (signerPrivateKey : string)
  : M (Ledger.State W) TransactionResult :=
  if negb (validateSignature signature) then
    throw (SignatureError "Invalid signature format"
             (Some "Signature must be a 65-byte hex string starting with 0x"))
  else
    tryCatch
      (let args :=
         {| s_token := p_token (params prepared);
            s_from := p_from (params prepared);
            s_value := p_value (params prepared);
            s_validAfter := p_validAfter (params prepared);
            s_validBefore := p_validBefore (params prepared);
            s_nonce := nonce prepared;
            s_signature := signature;
            s_salt := salt prepared;
            s_payTo := p_payTo (params prepared);
            s_facilitatorFee := p_facilitatorFee (params prepared);
            s_hook := p_hook (params prepared);
            s_hookData := hookData prepared |} in
       let! tx :=
         request (SendSettleAndExecute (routerAddress prepared) signerPrivateKey args)
           (fun w => router_settleAndExecute E w (routerAddress prepared)
                       signerPrivateKey args) in
       let! receipt := request (WaitForReceipt tx) (fun w => tx_wait E w tx) in
       let events := map parseEvent (logs receipt) in
       ret {| success := true;
              txHash := hash receipt;
              blockNumber := Ledger.blockNumber receipt;
              events := events |})
      (fun error =>
         if instanceofError error then
           let revertReason :=
             option_map str (matchRevertReason (chars (message_of error))) in
           throw (TransactionError ("Transaction failed: " +:+ message_of error)
                    None revertReason)
         else throw error).

End Methods.
End X402Client.

(** ** Specification-side definitions *)

Module Spec.
Import HookDataCodec.

(** *** Codec *)

(** The sum of the shares of a list of splits. *)
Fixpoint sumBips (l : list Split) : Z :=
  match l with
  | [] => 0
  | s :: rest => bips s + sumBips rest
  end.

Definition WellFormedAddress (a : string) : Prop := Ethers.isAddress a = true.

(** The addresses that a parameter value carries. *)
Definition addresses (p : HookDataParams) : list string :=
  match p with
  | NFTMintHookData a | RewardPointsHookData a => [a]
  | TransferSplitHookData None => []
  | TransferSplitHookData (Some l) => map recipient l
  end.

Definition shares (p : HookDataParams) : list Z :=
  match p with
  | TransferSplitHookData (Some l) => map bips l
  | _ => []
  end.

(** A value of the schema: well-formed addresses, 16-bit unsigned shares,
    in an array (fewer than 2^32 elements). *)
Definition SchemaValue (p : HookDataParams) : Prop :=
  Forall WellFormedAddress (addresses p)
  /\ Forall (fun b => 0 <= b <= 65535) (shares p)
  /\ Z.of_nat (length (shares p)) < 2 ^ 32.

(** [decode(kind, encode(kind, p))] for the kind of [p]. *)
Definition roundTrip (p : HookDataParams) : Result HookDataParams :=
  bindR (encode (type_of p) p) (decode (type_of p)).

(** The exception of the round-trip statement: splits absent or empty. *)
Definition NoSplits (p : HookDataParams) : Prop :=
  p = TransferSplitHookData None \/ p = TransferSplitHookData (Some []).

(** The checksummed form of a well-formed address. *)
Definition checksummed (a : string) : string :=
  match Ethers.getAddress a with
  | Ok c => c
  | Throw _ => a
  end.

(** [p] with every address in checksummed form, and empty splits absent. *)
Definition canonical (p : HookDataParams) : HookDataParams :=
  match p with
  | NFTMintHookData a => NFTMintHookData (checksummed a)
  | RewardPointsHookData a => RewardPointsHookData (checksummed a)
  | TransferSplitHookData None | TransferSplitHookData (Some []) =>
      TransferSplitHookData None
  | TransferSplitHookData (Some l) =>
      TransferSplitHookData
        (Some (map (fun s => {| recipient := checksummed (recipient s);
                                bips := bips s |}) l))
  end.

(** *** Signature shape *)

Definition HexDigit (c : ascii) : Prop := In c (chars "0123456789abcdefABCDEF").

Definition SignatureShape (s : string) : Prop :=
  exists hexPart : string,
    s = "0x" +:+ hexPart
    /\ String.length hexPart = 130%nat
    /\ String.length s = 132%nat
    /\ Forall HexDigit (chars hexPart).

(** *** Address text, spelled out *)

Definition UpperLetter (c : ascii) : Prop := In c (chars "ABCDEF").
Definition LowerLetter (c : ascii) : Prop := In c (chars "abcdef").

(** The casing of EIP-55: the letter at place [i] is written in upper
    case when nibble [i] of the Keccak-256 hash of the lower-case digits
    is 8 or more, and in lower case otherwise. *)
Definition Eip55 (digits : list ascii) : Prop :=
  let lower := map toLowerChar digits in
  let hashed := Keccak.keccak256 (map (fun c => Z.of_nat (nat_of_ascii c)) lower) in
  forall i c, nth_error digits i = Some c ->
    if 8 <=? Ethers.hashNibble hashed i
    then c = toUpperChar c
    else c = toLowerChar c.

(** A hexadecimal address: 40 hexadecimal digits, with or without the
    prefix [0x]; when letters of both cases occur among the digits, their
    casing is the one of EIP-55. *)
Definition HexAddressText (a : string) : Prop :=
  exists digits : list ascii,
    (chars a = digits \/ chars a = chars "0x" ++ digits)
    /\ length digits = 40%nat
    /\ Forall HexDigit digits
    /\ (Exists UpperLetter digits -> Exists LowerLetter digits -> Eip55 digits).

(** Text that is not of the ICAP form, which begins with [XE]. *)
Definition NotIcap (a : string) : Prop :=
  startsWith (chars a) (chars "XE") = false.

(** The exact sum of a list of integers. *)
Definition total (l : list Z) : Z := fold_right Z.add 0 l.

(** Shares that the double-precision sum adds without rounding error
    that matters: none is negative, or every running sum stays within
    the integers that a double holds exactly. *)
Definition ExactlySummed (l : list Z) : Prop :=
  Forall (fun b => 0 <= b) l
  \/ forall k, - 2 ^ 53 <= total (firstn k l) <= 2 ^ 53.

(** *** Registration *)

Definition requiredFields : list string := ["id"; "hookAddress"; "hookType"; "network"].

(** A required field is missing when the object does not have it or has
    it with a falsy value. *)
Definition missingField (serviceConfig : gmap string JsValue) (field : string) : bool :=
  negb (truthy (X402Server.prop serviceConfig field)).

(** The keys of a sequence in the order of their first occurrence. *)
Fixpoint firstOccurrences (l : list JsValue) : list JsValue :=
  match l with
  | [] => []
  | x :: rest => x :: filter (fun y => y <> x) (firstOccurrences rest)
  end.

(** The ids of the [addService] calls of a sequence that returned. *)
Fixpoint registeredIds {W} (E : Ledger.Env W) (this : X402Server.X402Server)
         (configs : list (gmap string JsValue)) (s : X402Server.State W)
  : list JsValue :=
  match configs with
  | [] => []
  | c :: rest =>
      match X402Server.addService E this c s with
      | (Ok _, s') => X402Server.prop c "id" :: registeredIds E this rest s'
      | (Throw _, s') => registeredIds E this rest s'
      end
  end.

(** The record that a registration of [serviceConfig] stores when the
    ledger reports [router]. *)
Definition resolvedRecord (ns : NetworkConfig.NetworkSettings) (router : string)
           (serviceConfig : gmap string JsValue) : gmap string JsValue :=
  <["chainId" := JNumber (NetworkConfig.chainId ns)]>
    (<["usdcAddress" := JString (NetworkConfig.usdcAddress ns)]>
       (<["settlementRouter" := JString router]> serviceConfig)).

(** *** The registry, in the words of the specification

    A registration is accepted when the configuration has every required
    field and the read of the settlement router of its hook address
    returns; the record is then stored under the id of the configuration,
    in the place of a record that was stored under that id. *)

(** A service configuration with every required field. *)
Definition complete (serviceConfig : gmap string JsValue) : bool :=
  forallb (fun field => negb (missingField serviceConfig field)) requiredFields.

(** The entry that the registration of [serviceConfig] in the world [w]
    stores, when it is accepted. *)
Definition registration {W} (E : Ledger.Env W) (ns : NetworkConfig.NetworkSettings)
           (serviceConfig : gmap string JsValue) (w : W)
  : option (JsValue * gmap string JsValue) :=
  if complete serviceConfig then
    match fst (Ledger.hook_settlementRouter E w
                 (X402Server.prop serviceConfig "hookAddress")) with
    | Ok routerAddress =>
        Some (X402Server.prop serviceConfig "id",
              resolvedRecord ns routerAddress serviceConfig)
    | Throw _ => None
    end
  else None.

(** The world after the registration: the read happened when the
    configuration was complete. *)
Definition worldAfter {W} (E : Ledger.Env W) (serviceConfig : gmap string JsValue)
           (w : W) : W :=
  if complete serviceConfig
  then snd (Ledger.hook_settlementRouter E w
              (X402Server.prop serviceConfig "hookAddress"))
  else w.

(** The accepted registrations of a sequence, in the order of the calls. *)
Fixpoint accepted {W} (E : Ledger.Env W) (ns : NetworkConfig.NetworkSettings)
         (configs : list (gmap string JsValue)) (w : W)
  : list (JsValue * gmap string JsValue) :=
  match configs with
  | [] => []
  | c :: rest =>
      match registration E ns c w with
      | Some entry => entry :: accepted E ns rest (worldAfter E c w)
      | None => accepted E ns rest (worldAfter E c w)
      end
  end.

(** Last write wins: the record of the last entry under [id]. *)
Fixpoint lastWrite (id : JsValue) (entries : list (JsValue * gmap string JsValue))
  : option (gmap string JsValue) :=
  match entries with
  | [] => None
  | (k, record) :: rest =>
      match lastWrite id rest with
      | Some later => Some later
      | None => if decide (k = id) then Some record else None
      end
  end.

(** *** Amounts *)

(** Decimal text: an optional sign, digits, an optional point, digits,
    with a digit somewhere. *)
Definition DecimalText (l : list ascii) : Prop :=
  exists sign whole point frac,
    l = sign ++ whole ++ point ++ frac
    /\ (sign = [] \/ sign = chars "-")
    /\ (point = [] \/ point = chars ".")
    /\ forallb Ethers.isDigit whole = true
    /\ forallb Ethers.isDigit frac = true
    /\ (0 < length whole + length frac)%nat.

(** The number of characters after the first point of a text. *)
Fixpoint fractionalDigits (l : list ascii) : nat :=
  match l with
  | [] => 0
  | c :: rest => if Ascii.eqb c "."%char then length rest else fractionalDigits rest
  end.

(** *** Auxiliary notions of the proofs *)

(** A lower-case hexadecimal digit. *)
Definition lowerHex (c : ascii) : bool :=
  Ethers.isHexChar c && negb (Ethers.isUpperAF c).

Definition hexDigitValue (c : ascii) : Z := default 0 (Ethers.hexVal c).

(** [c'] is [c] or its upper-case form. *)
Definition caseVariant (c c' : ascii) : Prop := c' = c \/ c' = toUpperChar c.

(** The two words that [encodeSplitArray] writes for one element. *)
Definition splitItem (p : string * Z) : Result (list Z) :=
  let '(r, b) := p in
  let* rw := Ethers.encodeAddress r in
  let* bw := Ethers.encodeUint16 b in
  Ok (rw ++ bw).

Definition SplitOk (p : string * Z) : Prop :=
  Ethers.isAddress (fst p) = true /\ 0 <= snd p <= 65535.

Definition canonicalSplit (p : string * Z) : string * Z :=
  (checksummed (fst p), snd p).

(** The network-derived fields of a stored record are those of [ns]. *)
Definition networkFields (ns : NetworkConfig.NetworkSettings)
           (record : gmap string JsValue) : Prop :=
  record !! "usdcAddress" = Some (JString (NetworkConfig.usdcAddress ns))
  /\ record !! "chainId" = Some (JNumber (NetworkConfig.chainId ns)).

(** What [getSettlementRouter] throws when the read throws [e]. *)
Definition readFailure (hookAddress : JsValue) (e : Thrown) : Thrown :=
  if instanceofError e then
    if includes (chars (message_of e)) (chars "call revert")
       || includes (chars (message_of e)) (chars "CALL_EXCEPTION")
    then ContractNotFoundError hookAddress
    else NetworkError ("Failed to read settlement router: " +:+ message_of e) None None
  else e.

(** The ledger after the read of the settlement router of [hookAddress]. *)
Definition afterRead {W} (E : Ledger.Env W) (hookAddress : JsValue)
           (l : Ledger.State W) : Ledger.State W :=
  {| Ledger.world := snd (Ledger.hook_settlementRouter E (Ledger.world l) hookAddress);
     Ledger.trace := Ledger.trace l ++ [Ledger.ReadSettlementRouter hookAddress] |}.

(** Every stored record carries the network fields of the registry, and
    no id is stored twice. *)
Definition storeInvariant {W} (this : X402Server.X402Server)
           (s : X402Server.State W) : Prop :=
  Forall (networkFields (X402Server.networkSettings this))
         (map_values (X402Server.services s))
  /\ NoDup (map_keys (X402Server.services s)).

(** The fixed-point value of a decimal text at six fractional digits. *)
Definition fixedPoint6 (whole frac : list ascii) : Z :=
  Ethers.bigIntOfDigits whole * 10 ^ 6
  + Ethers.bigIntOfDigits frac * 10 ^ (6 - Z.of_nat (length frac)).

(** A world in which the three reads of [prepareTransaction] are
    answered, whatever is asked. *)
Definition Answering {W} (E : Ledger.Env W) : Prop :=
  (forall w routerAddress commitment,
      exists nonce,
        fst (Ledger.router_calculateCommitment E w routerAddress commitment) = Ok nonce)
  /\ (forall w tokenAddress,
        exists name, fst (Ledger.token_name E w tokenAddress) = Ok name)
  /\ (forall w tokenAddress,
        exists version, fst (Ledger.token_version E w tokenAddress) = Ok version).

End Spec.

(** ** A sample world, for the concrete instances *)

Module Sample.
Import Ledger.

Definition router : string := "0x80e941858065dfD4875030A7a30DfbfeE8c7742a".
Definition nftMintHook : string := "0xf2A8921EEAda2734FeAbB9EC1d73fC5771B4Ec5B".
Definition randomNFT : string := "0xA8633f571c51ad0EA7b3c51EC930Ee51fF8F0551".
Definition lowerUsdc : string := "0xc21223249ca28397b4b6541dffaecc539bff0c59".

Definition revertingHook : string := "0xC94ebf218bb67d6FF5599B5a6457Ad5E70E0db8D".

(** What the library throws when the call returns no data, as it does
    for an address without code: its code is [BAD_DATA]. *)
Definition noCodeError : Thrown :=
  EthersError "BAD_DATA"
    ("could not decode result data (value=" +:+ Ethers.quoted "0x"
     +:+ ", info={ " +:+ Ethers.quoted "method" +:+ ": "
     +:+ Ethers.quoted "settlementRouter" +:+ ", " +:+ Ethers.quoted "signature"
     +:+ ": " +:+ Ethers.quoted "settlementRouter()"
     +:+ " }, code=BAD_DATA, version=6.17.0)").

(** What the library throws when the call reverts: its code is
    [CALL_EXCEPTION]. *)
Definition revertError : Thrown :=
  EthersError "CALL_EXCEPTION"
    ("execution reverted (action=" +:+ Ethers.quoted "call" +:+ ", data="
     +:+ Ethers.quoted "0x" +:+ ", reason=null, code=CALL_EXCEPTION, version=6.17.0)").

(** A private key: 32 bytes. *)
Definition signerKey : string := str (chars "0x" ++ repeat "1"%char 64).

(** The world is a counter of the operations answered. The NFT mint hook
    reports the router, the call to [revertingHook] reverts, and any
    other address has no code behind it. A settlement is sent for a key
    of 32 bytes only. *)
Definition env : Env nat :=
  {| hook_settlementRouter w a :=
       if decide (a = JString nftMintHook) then (Ok router, S w)
       else if decide (a = JString revertingHook) then (Throw revertError, S w)
       else (Throw noCodeError, S w);
     router_calculateCommitment w _ _ :=
       (Ok "0x5c1d2d5f8e0b1a7c4e3f9a6b8d7c2e1f0a9b8c7d6e5f4a3b2c1d0e9f8a7b6c5d", S w);
     token_name w _ := (Ok "USD Coin", S w);
     token_version w _ := (Ok "2", S w);
     router_settleAndExecute w _ key _ :=
       if (String.length key =? 66)%nat then (Ok "0xabc1", S w)
       else (Throw (EthersError "INVALID_ARGUMENT" "invalid private key"), S w);
     tx_wait w tx :=
       (Ok {| hash := tx; blockNumber := 4242;
              logs := [ {| topics := ["0x01"]; data := "0x" |} ] |}, S w);
     interface_parseLog _ := Ok None;
     date_now w := (1700000000999, w);
     randomBytes w n := (repeat 7 n, w) |}.

Definition ledger0 : Ledger.State nat := {| world := O; trace := [] |}.

Definition serverConfig : X402Server.X402ServerConfig :=
  {| X402Server.name := Some "My X402 Services";
     X402Server.description := None;
     X402Server.url := Some "http://localhost:8787";
     X402Server.network := Some "cronos-testnet";
     X402Server.rpcUrl := None |}.

Definition server : X402Server.X402Server :=
  {| X402Server.config := serverConfig;
     X402Server.networkSettings :=
       NetworkConfig.getConfig NetworkConfig.cronos_testnet None |}.

Definition state0 : X402Server.State nat :=
  {| X402Server.services := []; X402Server.ledger := ledger0 |}.

(** A complete configuration that also carries values for the resolved
    fields, as an [X402Service] obtained elsewhere would. *)
Definition nftMintConfig : gmap string JsValue :=
  list_to_map
    [("id", JString "nft-mint"); ("title", JString "NFT Mint Service");
     ("hookType", JString "nft-mint"); ("hookAddress", JString nftMintHook);
     ("network", JString "cronos-testnet");
     ("usdcAddress", JString "0xdead"); ("chainId", JNumber 1)].

(** The same id with another title. *)
Definition nftMintConfig2 : gmap string JsValue :=
  <["title" := JString "NFT Mint, second edition"]> nftMintConfig.

(** A hook address without code behind it. *)
Definition noCodeConfig : gmap string JsValue :=
  list_to_map
    [("id", JString "reward-points"); ("title", JString "Reward Points Service");
     ("hookType", JString "reward-points");
     ("hookAddress", JString "0xaF49Bd5164D530aC5127d364F6ce4e079741950b");
     ("network", JString "cronos-testnet")].

(** [id] and [network] are missing, [hookType] is empty. *)
Definition incompleteConfig : gmap string JsValue :=
  list_to_map
    [("title", JString "Transfer"); ("hookType", JString "");
     ("hookAddress", JString "0xC94ebf218bb67d6FF5599B5a6457Ad5E70E0db8D")].

Definition service : X402Client.X402Service :=
  {| X402Client.id := "nft-mint";
     X402Client.title := "NFT Mint Service";
     X402Client.hookType := "nft-mint";
     X402Client.hookAddress := nftMintHook;
     X402Client.network := "cronos-testnet";
     X402Client.settlementRouter := router;
     X402Client.usdcAddress := "0xc01efAaF7C5C61bEbFAeb358E1161b537b8bC0e0";
     X402Client.chainId := 338 |}.

Definition txParams (fee : option string) (validity : option Z)
  : X402Client.TransactionParams :=
  {| X402Client.service := service;
     X402Client.payerAddress := "0xc21223249CA28397B4B6541dfFaEcC539BfF0c59";
     X402Client.payTo := "0xc01efAaF7C5C61bEbFAeb358E1161b537b8bC0e0";
     X402Client.paymentAmount := "0.1";
     X402Client.facilitatorFee := fee;
     X402Client.hookDataParams := HookDataCodec.NFTMintHookData randomNFT;
     X402Client.validitySeconds := validity |}.

(** [0x] followed by 130 times [a]. *)
Definition goodSignature : string := str (chars "0x" ++ repeat "a"%char 130).
(** The same with one character removed. *)
Definition shortSignature : string := str (chars "0x" ++ repeat "a"%char 129).

(** Sample parameter values. *)
Definition lowerCaseMint : HookDataCodec.HookDataParams :=
  HookDataCodec.NFTMintHookData lowerUsdc.
Definition evenSplit : HookDataCodec.HookDataParams :=
  HookDataCodec.TransferSplitHookData
    (Some [ {| HookDataCodec.recipient := lowerUsdc; HookDataCodec.bips := 5000 |};
            {| HookDataCodec.recipient := randomNFT; HookDataCodec.bips := 5000 |} ]).
Definition unevenSplit : HookDataCodec.HookDataParams :=
  HookDataCodec.TransferSplitHookData
    (Some [ {| HookDataCodec.recipient := lowerUsdc; HookDataCodec.bips := 5000 |};
            {| HookDataCodec.recipient := randomNFT; HookDataCodec.bips := 4999 |} ]).

(** Three shares whose exact sum is 10000 and whose double-precision sum,
    taken from the left, is 9999. *)
Definition roundedSplit : HookDataCodec.HookDataParams :=
  HookDataCodec.TransferSplitHookData
    (Some [ {| HookDataCodec.recipient := lowerUsdc;
               HookDataCodec.bips := 9007199254740992 |};
            {| HookDataCodec.recipient := randomNFT; HookDataCodec.bips := 1 |};
            {| HookDataCodec.recipient := lowerUsdc;
               HookDataCodec.bips := - 9007199254730993 |} ]).

(** Three registrations: an id, a failing one, and the first id again. *)
Definition registrations : list (gmap string JsValue) :=
  [nftMintConfig; noCodeConfig; nftMintConfig2].

(** A first edition of the NFT mint service, with a field of its own. *)
Definition nftMintConfig1 : gmap string JsValue :=
  <["note" := JString "first edition"]> nftMintConfig.

(** A second service behind the same hook. *)
Definition vipMintConfig : gmap string JsValue :=
  list_to_map
    [("id", JString "vip-mint"); ("title", JString "VIP Mint Service");
     ("hookType", JString "nft-mint"); ("hookAddress", JString nftMintHook);
     ("network", JString "cronos-testnet")].

(** A service whose hook reverts. *)
Definition revertingConfig : gmap string JsValue :=
  list_to_map
    [("id", JString "transfer-split"); ("title", JString "Transfer Split Service");
     ("hookType", JString "transfer-split"); ("hookAddress", JString revertingHook);
     ("network", JString "cronos-testnet")].

(** Two ids, a failing registration, and the first id again. *)
Definition overwriting : list (gmap string JsValue) :=
  [nftMintConfig1; vipMintConfig; noCodeConfig; nftMintConfig2].

Definition emptyPrepared : X402Client.PreparedTransaction :=
  {| X402Client.typedData :=
       {| X402Client.types_EIP712Domain := [];
          X402Client.types_TransferWithAuthorization := [];
          X402Client.primaryType := "";
          X402Client.domain :=
            {| X402Client.d_name := ""; X402Client.d_version := "";
               X402Client.d_chainId := 0; X402Client.d_verifyingContract := "" |};
          X402Client.message :=
            {| X402Client.m_from := ""; X402Client.m_to := "";
               X402Client.m_value := ""; X402Client.m_validAfter := "";
               X402Client.m_validBefore := ""; X402Client.m_nonce := "" |} |};
     X402Client.routerAddress := "";
     X402Client.nonce := "";
     X402Client.salt := "";
     X402Client.hookData := "";
     X402Client.params :=
       {| X402Client.p_token := ""; X402Client.p_from := "";
          X402Client.p_value := 0; X402Client.p_validAfter := 0;
          X402Client.p_validBefore := 0; X402Client.p_payTo := "";
          X402Client.p_facilitatorFee := 0; X402Client.p_hook := "" |} |}.

(** What [prepareTransaction] returns in the sample world for the sample
    parameters with the given optional fields. *)
Definition preparedWith (fee : option string) (validity : option Z)
  : X402Client.PreparedTransaction :=
  match fst (X402Client.prepareTransaction env (txParams fee validity) ledger0) with
  | Ok prepared => prepared
  | Throw _ => emptyPrepared
  end.

End Sample.

(** ** Further functions of the sources *)

(** *** [HookDataCodec.getSchema] ([shared/hook-data-codec.ts]) *)

Module HookDataSchemas.

Record HookDataSchema : Type := {
  hookType : string;
  abiType : string;
  description : string;
  example : string
}.

(** The double quote as a text of one character. *)
Definition q : string := String X402Client.dquote "".

Definition getSchema (hookType : string) : Result HookDataSchema :=
  if String.eqb hookType "nft-mint" then
    Ok {| hookType := "nft-mint";
          abiType := "tuple(address)";
          description := "NFT contract address to mint from";
          example := "{ " +:+ q +:+ "nftContract" +:+ q +:+ ": " +:+ q +:+ "0x..."
                     +:+ q +:+ " }" |}
  else if String.eqb hookType "reward-points" then
    Ok {| hookType := "reward-points";
          abiType := "tuple(address)";
          description := "Reward token contract address";
          example := "{ " +:+ q +:+ "rewardToken" +:+ q +:+ ": " +:+ q +:+ "0x..."
                     +:+ q +:+ " }" |}
  else if String.eqb hookType "transfer-split" then
    Ok {| hookType := "transfer-split";
          abiType := "tuple(address recipient, uint16 bips)[]";
          description :=
            "Array of split recipients with basis points (10000 = 100%). Empty for simple transfer.";
          example :=
            "{ " +:+ q +:+ "splits" +:+ q +:+ ": [{ " +:+ q +:+ "recipient" +:+ q
            +:+ ": " +:+ q +:+ "0x..." +:+ q +:+ ", " +:+ q +:+ "bips" +:+ q
            +:+ ": 5000 }, { " +:+ q +:+ "recipient" +:+ q +:+ ": " +:+ q +:+ "0x..."
            +:+ q +:+ ", " +:+ q +:+ "bips" +:+ q +:+ ": 5000 }] }" |}
  else Throw (JsError ("Unknown hook type: " +:+ hookType)).

(** The hook types of the union [HookType]. *)
Definition knownHookType (hookType : string) : bool :=
  String.eqb hookType "nft-mint" || String.eqb hookType "reward-points"
  || String.eqb hookType "transfer-split".

End HookDataSchemas.

(** *** The accessors of [NetworkConfig] ([shared/network-config.ts]) *)

Module NetworkAccessors.
Import NetworkConfig.

(** An absent or empty [customUrl] is falsy. *)
Definition getRpcUrl (network : CronosNetwork) (customUrl : option string) : string :=
  match customUrl with
  | Some url => if negb (String.eqb url "") then url else rpcUrl (NETWORK_CONFIGS network)
  | None => rpcUrl (NETWORK_CONFIGS network)
  end.

Definition getChainId (network : CronosNetwork) : Z := chainId (NETWORK_CONFIGS network).

Definition getUsdcAddress (network : CronosNetwork) : string :=
  usdcAddress (NETWORK_CONFIGS network).

Definition getBlockExplorer (network : CronosNetwork) : string :=
  blockExplorer (NETWORK_CONFIGS network).

End NetworkAccessors.

(** *** The HTTP routes of the server ([server/server.ts]) *)

Module X402Routes.
Import X402Server.

(** [{ ...service, hookDataSchema: getSchema(service.hookType) }]: the
    service and the schema added to it. A [hookType] that is not one of
    the three strings reaches the [default] branch of [getSchema]. *)
Definition getServiceResponse (service : JsObject)
  : Result (JsObject * HookDataSchemas.HookDataSchema) :=
  let* schema :=
    match prop service "hookType" with
    | JString hookType => HookDataSchemas.getSchema hookType
    | other => Throw (JsError ("Unknown hook type: " +:+ Js.toString other))
    end in
  Ok (service, schema).

(** What a route handler sends. *)
Inductive Reply : Type :=
| AgentCardJson (name description url : option string) (services : list JsObject)
| ServicesJson (services : list (JsObject * HookDataSchemas.HookDataSchema))
| ServiceJson (service : JsObject * HookDataSchemas.HookDataSchema)
| NotFoundJson (error message : string).

(** The status code of a reply: [res.status(404)] for the last, the
    default 200 for the others. *)
Definition statusOf (r : Reply) : Z :=
  match r with
  | NotFoundJson _ _ => 404
  | _ => 200
  end.

Section Handlers.
Context {W : Type} (this : X402Server).

(** [GET /.well-known/agent.json] *)
Definition agentCardRoute (s : State W) : Result Reply :=
  let '(name, description, url, services) := getAgentCard this s in
  Ok (AgentCardJson name description url services).

(** [GET /api/x402/services] *)
Definition servicesRoute (s : State W) : Result Reply :=
  let* services := mapR getServiceResponse (listServices s) in
  Ok (ServicesJson services).

(** [GET /api/x402/services/:id]; the route parameter is a string. *)
Definition serviceRoute (id : string) (s : State W) : Result Reply :=
  match getService (JString id) s with
  | None =>
      Ok (NotFoundJson "Service not found" ("No service found with ID: " +:+ id))
  | Some service =>
      let* response := getServiceResponse service in
      Ok (ServiceJson response)
  end.

End Handlers.
End X402Routes.

(** *** Construction and discovery in the client ([client/client.ts]) *)

Module X402Discovery.
Import X402Client.

(** [X402ClientConfig]; [None] is a property that is [undefined]. *)
Record X402ClientConfig : Type := {
  network : option string;
  rpcUrl : option string
}.

Definition validateConfig (config : X402ClientConfig)
  : Result NetworkConfig.CronosNetwork :=
  if X402Server.falsy (network config) then
    Throw (ConfigurationError "Missing required field: network" (Some ["network"]))
  else
    match NetworkConfig.network_of_string (default "" (network config)) with
    | Some n => Ok n
    | None =>
        Throw (ConfigurationError
                 ("Invalid network: " +:+ default "" (network config)
                  +:+ ". Must be 'cronos' or 'cronos-testnet'")
                 None)
    end.

(** [new X402Client(config)]: the field [networkSettings] of the object. *)
Definition createX402Client (config : X402ClientConfig)
  : Result NetworkConfig.NetworkSettings :=
  let* n := validateConfig config in
  Ok (NetworkConfig.getConfig n (rpcUrl config)).

(** [encodeHookData(hookDataParams)] *)
Definition encodeHookData (hookDataParams : HookDataCodec.HookDataParams)
  : Result string :=
  HookDataCodec.encode (HookDataCodec.type_of hookDataParams) hookDataParams.

(** [getTypedDataForSigning(prepared)] *)
Definition getTypedDataForSigning (prepared : PreparedTransaction) : EIP712TypedData :=
  typedData prepared.

Record AgentCard : Type := {
  card_name : string;
  card_description : option string;
  card_url : string;
  card_services : list X402Service
}.

Record DiscoveredServices : Type := {
  serverUrl : string;
  agentCard : AgentCard;
  services : list X402Service;
  error : option string
}.

(** What [fetch] resolves to: [ok], [status], [statusText] and what
    [response.json()] gives, typed as the source types it. *)
Record Response : Type := {
  ok : bool;
  status : Z;
  statusText : string;
  json : Result AgentCard
}.

(** The network behind [fetch], and the URLs fetched so far. *)
Record Http (W : Type) : Type := { web : W; fetched : list string }.
Arguments web {W}.
Arguments fetched {W}.

(** [s.replace(/\/$/, '')]: one slash at the end of the text is removed. *)
Fixpoint stripTrailingSlash (l : list ascii) : list ascii :=
  match l with
  | [] => []
  | c :: rest =>
      match rest with
      | [] => if Ascii.eqb c "/"%char then [] else [c]
      | _ :: _ => c :: stripTrailingSlash rest
      end
  end.

Definition agentCardUrl (serverUrl : string) : string :=
  str (stripTrailingSlash (chars serverUrl)) +:+ "/.well-known/agent.json".

(** The result that both [catch] branches build. *)
Definition failed (serverUrl : string) (message : string) : DiscoveredServices :=
  {| serverUrl := serverUrl;
     agentCard := {| card_name := ""; card_description := None;
                     card_url := serverUrl; card_services := [] |};
     services := [];
     error := Some message |}.

Section Discover.
Context {W : Type} (fetch : W -> string -> Result Response * W).

Definition doFetch (url : string) : M (Http W) Response :=
  fun s =>
    let (r, w') := fetch (web s) url in
    (r, {| web := w'; fetched := fetched s ++ [url] |}).

Definition discover (serverUrl : string) : M (Http W) DiscoveredServices :=
  tryCatch
    (let url := agentCardUrl serverUrl in
     let! response := doFetch url in
     if negb (ok response) then
       throw (NetworkError ("Failed to fetch agent card: " +:+ statusText response)
                (Some url) (Some (status response)))
     else
       let! card := liftR (json response) in
       ret {| serverUrl := serverUrl;
              agentCard := card;
              services := card_services card;
              error := None |})
    (fun e =>
       match e with
       | NetworkError message _ _ => ret (failed serverUrl message)
       | _ =>
           ret (failed serverUrl
                  (if instanceofError e then message_of e else "Unknown error"))
       end).

(** [Promise.all(serverUrls.map((url) => this.discover(url)))]: the
    fetches are issued in the order of the list, and the embedding lets
    the network answer them in that order. *)
Fixpoint discoverAll (serverUrls : list string) : M (Http W) (list DiscoveredServices) :=
  match serverUrls with
  | [] => ret []
  | url :: rest =>
      let! d := discover url in
      let! ds := discoverAll rest in
      ret (d :: ds)
  end.

End Discover.
End X402Discovery.

(** *** Specification-side definitions for the further properties *)

Module MoreSpec.
Import HookDataCodec.

(** The call returns a value. *)
Definition returns {A} (r : Result A) : Prop := exists v, r = Ok v.

Definition uint16 (b : Z) : Prop := 0 <= b <= 65535.

(** The number of bytes of the payload of a value. *)
Definition payloadBytes (p : HookDataParams) : nat :=
  match p with
  | NFTMintHookData _ | RewardPointsHookData _ => 32
  | TransferSplitHookData None | TransferSplitHookData (Some []) => 0
  | TransferSplitHookData (Some l) => 64 + 64 * length l
  end.

(** An address in the form [getAddress] returns. *)
Definition Checksummed (a : string) : Prop := Ethers.getAddress a = Ok a.

(** What the [catch] of a read of [contract-reader.ts] throws for [e]:
    an [Error] is wrapped under [prefix], anything else is thrown on. *)
Definition wrapFailure (prefix : string) (e : Thrown) : Thrown :=
  if instanceofError e
  then NetworkError (prefix +:+ message_of e) None None
  else e.

(** The commitment parameters that belong to a prepared transaction. *)
Definition commitmentOf (prepared : X402Client.PreparedTransaction)
  : Ledger.CommitmentParams :=
  let params := X402Client.params prepared in
  {| Ledger.token := X402Client.p_token params;
     Ledger.from := X402Client.p_from params;
     Ledger.value := X402Client.p_value params;
     Ledger.validAfter := X402Client.p_validAfter params;
     Ledger.validBefore := X402Client.p_validBefore params;
     Ledger.salt := X402Client.salt prepared;
     Ledger.payTo := X402Client.p_payTo params;
     Ledger.facilitatorFee := X402Client.p_facilitatorFee params;
     Ledger.hook := X402Client.p_hook params;
     Ledger.hookData := X402Client.hookData prepared |}.

(** The world in which [prepareTransaction] reaches the ledger: after the
    random source and the clock were read. *)
Definition afterAmbient {W} (E : Ledger.Env W) (w : W) : W :=
  snd (Ledger.date_now E (snd (Ledger.randomBytes E w 32))).

(** The arguments of [settleAndExecute] for a prepared transaction and
    a signature. *)
Definition settleArgs (prepared : X402Client.PreparedTransaction)
           (signature : string) : Ledger.SettleArgs :=
  let params := X402Client.params prepared in
  {| Ledger.s_token := X402Client.p_token params;
     Ledger.s_from := X402Client.p_from params;
     Ledger.s_value := X402Client.p_value params;
     Ledger.s_validAfter := X402Client.p_validAfter params;
     Ledger.s_validBefore := X402Client.p_validBefore params;
     Ledger.s_nonce := X402Client.nonce prepared;
     Ledger.s_signature := signature;
     Ledger.s_salt := X402Client.salt prepared;
     Ledger.s_payTo := X402Client.p_payTo params;
     Ledger.s_facilitatorFee := X402Client.p_facilitatorFee params;
     Ledger.s_hook := X402Client.p_hook params;
     Ledger.s_hookData := X402Client.hookData prepared |}.

(** The text [l] holds, after [pre], the pattern of a revert reason with
    the group [group]. *)
Definition reasonAt (pre group l : list ascii) : Prop :=
  exists post,
    l = pre ++ chars "reason=" ++ [X402Client.dquote] ++ group
            ++ [X402Client.dquote] ++ post
    /\ group <> []
    /\ X402Client.dquote ∉ group.

(** The event that stands for a log that was not parsed. *)
Definition unknownEvent : X402Client.TransactionEvent :=
  {| X402Client.event_name := "Unknown"; X402Client.event_args := [] |}.

(** An entry of the registry as a registration leaves it: stored under
    its own [id], with every required field and a settlement router. *)
Definition wellStored (entry : JsValue * gmap string JsValue) : Prop :=
  X402Server.prop (snd entry) "id" = fst entry
  /\ Spec.complete (snd entry) = true
  /\ exists routerAddress,
      snd entry !! "settlementRouter" = Some (JString routerAddress).

(** The required fields of the server configuration that are missing, in
    the order of the checks. *)
Definition missingConfigFields (config : X402Server.X402ServerConfig) : list string :=
  map fst
      (List.filter (fun p => X402Server.falsy (snd p))
                   [("name", X402Server.name config);
                    ("url", X402Server.url config);
                    ("network", X402Server.network config)]).

(** A stored service that carries one of the three hook types. *)
Definition hasKnownHookType (service : gmap string JsValue) : bool :=
  match X402Server.prop service "hookType" with
  | JString hookType => HookDataSchemas.knownHookType hookType
  | _ => false
  end.

End MoreSpec.

(** *** Further sample values *)

Module MoreSample.
Import Ledger.

(** The message of a revert as [ethers] words it. *)
Definition revertText : string :=
  str (chars "execution reverted (reason=" ++ [X402Client.dquote]
       ++ chars "Router: paused" ++ [X402Client.dquote]
       ++ chars ", code=CALL_EXCEPTION)").

(** The sample world, except that the router refuses the settlement and
    the token does not answer the read of its version. *)
Definition failingEnv : Env nat :=
  {| hook_settlementRouter := hook_settlementRouter Sample.env;
     router_calculateCommitment := router_calculateCommitment Sample.env;
     token_name := token_name Sample.env;
     token_version w _ := (Throw (JsError "timeout"), S w);
     router_settleAndExecute w _ _ _ :=
       (Throw (EthersError "CALL_EXCEPTION" revertText), S w);
     tx_wait := tx_wait Sample.env;
     interface_parseLog := interface_parseLog Sample.env;
     date_now := date_now Sample.env;
     randomBytes := randomBytes Sample.env |}.

(** What [submitTransaction] returns in the sample world. *)
Definition submitted : X402Client.TransactionResult :=
  {| X402Client.success := true;
     X402Client.txHash := "0xabc1";
     X402Client.blockNumber := 4242;
     X402Client.events := [MoreSpec.unknownEvent] |}.

(** A complete configuration with a hook type of the caller's own. *)
Definition customHookConfig : gmap string JsValue :=
  <["hookType" := JString "escrow"]> Sample.nftMintConfig.

(** The payload of the sample NFT contract. *)
Definition mintPayload : string :=
  "0x000000000000000000000000a8633f571c51ad0ea7b3c51ec930ee51ff8f0551".

End MoreSample.

(** * Proofs *)

Import Spec.

(** * Lemmas on the library functions *)

Section Numerals.
Import Ethers.

Lemma fromBase_snoc b l d : fromBase b (l ++ [d]) = fromBase b l * b + d.
Proof. unfold fromBase. rewrite fold_left_app. reflexivity. Qed.

Lemma toBase_length b n v : length (toBase b n v) = n.
Proof.
  revert v. induction n as [|n IH]; intros v; simpl; [reflexivity|].
  rewrite length_app, IH. simpl. lia.
Qed.

Lemma fromBase_app b l1 l2 :
  fromBase b (l1 ++ l2) = fromBase b l1 * b ^ Z.of_nat (length l2) + fromBase b l2.
Proof.
  induction l2 as [|d l2 IH] using rev_ind.
  - rewrite app_nil_r. simpl. unfold fromBase at 3. simpl. lia.
  - rewrite app_assoc, !fromBase_snoc, IH, length_app. simpl.
    replace (Z.of_nat (length l2 + 1)) with (Z.of_nat (length l2) + 1) by lia.
    rewrite Z.pow_add_r by lia. lia.
Qed.

Lemma fromBase_toBase b n v :
  0 < b -> fromBase b (toBase b n v) = v mod b ^ Z.of_nat n.
Proof.
  intros Hb. revert v. induction n as [|n IH]; intros v.
  - simpl. rewrite Z.mod_1_r. reflexivity.
  - simpl toBase. rewrite fromBase_snoc, IH.
    replace (Z.of_nat (S n)) with (1 + Z.of_nat n) by lia.
    rewrite Z.pow_add_r, Z.pow_1_r by lia.
    rewrite (Z.rem_mul_r v b (b ^ Z.of_nat n)) by lia. lia.
Qed.

Lemma fromBase_toBase_small b n v :
  0 < b -> 0 <= v < b ^ Z.of_nat n -> fromBase b (toBase b n v) = v.
Proof.
  intros Hb Hv. rewrite fromBase_toBase by assumption. apply Z.mod_small, Hv.
Qed.

Lemma toBase_digits b n v :
  0 < b -> Forall (fun d => 0 <= d < b) (toBase b n v).
Proof.
  intros Hb. revert v. induction n as [|n IH]; intros v; simpl.
  - constructor.
  - apply Forall_app. split; [apply IH|].
    constructor; [apply Z.mod_pos_bound; assumption | constructor].
Qed.

Lemma fromBase_bound b l :
  0 < b -> Forall (fun d => 0 <= d < b) l ->
  0 <= fromBase b l < b ^ Z.of_nat (length l).
Proof.
  intros Hb. induction l as [|d l IH] using rev_ind; intros Hl.
  - unfold fromBase. simpl. lia.
  - apply Forall_app in Hl as [Hl Hd]. inversion Hd as [|? ? Hd' _]; subst.
    specialize (IH Hl). rewrite fromBase_snoc, length_app. simpl.
    replace (Z.of_nat (length l + 1)) with (Z.of_nat (length l) + 1) by lia.
    rewrite Z.pow_add_r, Z.pow_1_r by lia. nia.
Qed.

Lemma toBase_fromBase b l :
  0 < b -> Forall (fun d => 0 <= d < b) l ->
  toBase b (length l) (fromBase b l) = l.
Proof.
  intros Hb. induction l as [|d l IH] using rev_ind; intros Hl.
  - reflexivity.
  - apply Forall_app in Hl as [Hl Hd]. inversion Hd as [|? ? Hd' _]; subst.
    rewrite length_app. simpl. rewrite Nat.add_1_r. simpl toBase.
    rewrite fromBase_snoc.
    replace ((fromBase b l * b + d) / b) with (fromBase b l).
    2:{ rewrite Z.div_add_l by lia. rewrite Z.div_small by lia. lia. }
    replace ((fromBase b l * b + d) mod b) with d.
    2:{ rewrite Z.add_comm, Z.mod_add by lia. rewrite Z.mod_small by lia. reflexivity. }
    rewrite IH by assumption. reflexivity.
Qed.

End Numerals.

Section Hex.
Import Ethers.

Lemma chars_str l : chars (str l) = l.
Proof. apply list_ascii_of_string_of_list_ascii. Qed.

Lemma str_chars s : str (chars s) = s.
Proof. apply string_of_list_ascii_of_string. Qed.

Lemma hexVal_hexChar d : 0 <= d < 16 -> hexVal (hexChar d) = Some d.
Proof.
  intros Hd.
  assert (H : d = 0 \/ d = 1 \/ d = 2 \/ d = 3 \/ d = 4 \/ d = 5 \/ d = 6 \/ d = 7 \/
              d = 8 \/ d = 9 \/ d = 10 \/ d = 11 \/ d = 12 \/ d = 13 \/ d = 14 \/
              d = 15) by lia.
  repeat (destruct H as [-> | H]; [reflexivity|]). subst. reflexivity.
Qed.

Lemma lowerHex_hexChar d : 0 <= d < 16 -> lowerHex (hexChar d) = true.
Proof.
  intros Hd.
  assert (H : d = 0 \/ d = 1 \/ d = 2 \/ d = 3 \/ d = 4 \/ d = 5 \/ d = 6 \/ d = 7 \/
              d = 8 \/ d = 9 \/ d = 10 \/ d = 11 \/ d = 12 \/ d = 13 \/ d = 14 \/
              d = 15) by lia.
  repeat (destruct H as [-> | H]; [reflexivity|]). subst. reflexivity.
Qed.

Ltac by_ascii c :=
  destruct c as [[] [] [] [] [] [] [] []]; vm_compute; try congruence.

Lemma hexDigitValue_range c : 0 <= hexDigitValue c < 16.
Proof. by_ascii c; vm_compute; split; congruence. Qed.

Lemma hexChar_hexDigitValue c : lowerHex c = true -> hexChar (hexDigitValue c) = c.
Proof. by_ascii c. Qed.

Lemma lowerHex_isHexChar c : lowerHex c = true -> isHexChar c = true.
Proof. by_ascii c. Qed.

Lemma lowerHex_not_upper c : lowerHex c = true -> isUpperAF c = false.
Proof. by_ascii c. Qed.

Lemma toLowerChar_lowerHex c : isHexChar c = true -> lowerHex (toLowerChar c) = true.
Proof. by_ascii c. Qed.

Lemma toLowerChar_id c : lowerHex c = true -> toLowerChar c = c.
Proof. by_ascii c. Qed.

Lemma upper_hexDigitValue c :
  lowerHex c = true -> hexDigitValue (toUpperChar c) = hexDigitValue c.
Proof. by_ascii c. Qed.

Lemma upper_isHexChar c : lowerHex c = true -> isHexChar (toUpperChar c) = true.
Proof. by_ascii c. Qed.

Lemma upper_toLowerChar c : lowerHex c = true -> toLowerChar (toUpperChar c) = c.
Proof. by_ascii c. Qed.

Lemma isHexChar_x : isHexChar "x"%char = false.
Proof. reflexivity. Qed.

Lemma byteHex_eq b : byteHex b = [hexChar (b / 16 mod 16); hexChar (b mod 16)].
Proof. reflexivity. Qed.

Lemma bytesOfHex_byteHex bs :
  Forall (fun b => 0 <= b < 256) bs -> bytesOfHex (flat_map byteHex bs) = Some bs.
Proof.
  induction 1 as [|b bs Hb _ IH]; [reflexivity|].
  cbn [flat_map]. rewrite byteHex_eq. cbn [app bytesOfHex].
  rewrite !hexVal_hexChar, IH.
  - f_equal. f_equal. rewrite (Z.mod_small (b / 16)).
    + rewrite (Z.div_mod b 16) at 3 by lia. lia.
    + split; [apply Z.div_pos; lia | apply Z.div_lt_upper_bound; lia].
  - apply Z.mod_pos_bound; lia.
  - apply Z.mod_pos_bound; lia.
Qed.

Lemma getBytes_hexlify bs :
  Forall (fun b => 0 <= b < 256) bs -> getBytes (hexlify bs) = Ok bs.
Proof.
  intros H. unfold getBytes, hexlify. rewrite chars_str. cbn [chars list_ascii_of_string app].
  rewrite bytesOfHex_byteHex by assumption. reflexivity.
Qed.

Lemma hexlify_not_empty bs :
  bs <> [] ->
  String.eqb (hexlify bs) "0x" = false /\ String.eqb (hexlify bs) "" = false.
Proof.
  intros Hbs. destruct bs as [|b bs]; [congruence|].
  unfold hexlify. cbn [flat_map]. rewrite byteHex_eq. split; reflexivity.
Qed.

End Hex.

Section Words.
Import Ethers.

Lemma writeValue_length v : length (writeValue v) = 32%nat.
Proof. apply toBase_length. Qed.

Lemma writeValue_bytes v : Forall (fun b => 0 <= b < 256) (writeValue v).
Proof. apply toBase_digits. lia. Qed.

Lemma readValue_writeValue pre v rest :
  0 <= v < 2 ^ 256 ->
  readValue (pre ++ writeValue v ++ rest) (length pre) = Ok v.
Proof.
  intros Hv. unfold readValue, WordSize.
  rewrite !length_app, writeValue_length.
  destruct (Nat.leb_spec (length pre + 32) (length pre + (32 + length rest))); [|lia].
  rewrite drop_app_length.
  rewrite (take_app_length' (writeValue v) rest 32) by (symmetry; apply writeValue_length).
  unfold fromBeBytes, writeValue, toBeBytes.
  apply f_equal, fromBase_toBase_small; [lia|].
  change (256 ^ Z.of_nat 32) with (2 ^ 256). exact Hv.
Qed.

Lemma decodeUint16_writeValue pre v rest :
  0 <= v <= 65535 ->
  decodeUint16 (pre ++ writeValue v ++ rest) (length pre) = Ok v.
Proof.
  intros Hv. unfold decodeUint16.
  rewrite readValue_writeValue by (split; [lia|]; apply Z.le_lt_trans with 65535; [lia|reflexivity]).
  cbn [bindR]. f_equal.
  change 65535 with (Z.ones 16). rewrite Z.land_ones by lia.
  apply Z.mod_small. change (2 ^ 16) with 65536. lia.
Qed.

Lemma readIndex_writeValue pre v rest :
  0 <= v <= 9007199254740991 ->
  readIndex (pre ++ writeValue v ++ rest) (length pre) = Ok (Z.to_nat v).
Proof.
  intros Hv. unfold readIndex.
  rewrite readValue_writeValue
    by (split; [lia|]; apply Z.le_lt_trans with 9007199254740991; [lia|reflexivity]).
  cbn [bindR]. destruct (Z.leb_spec v 9007199254740991); [reflexivity | lia].
Qed.

End Words.

Section Addresses.
Import Ethers.

Local Arguments checksumCase : simpl never.


Lemma imap_caseVariant (f : nat -> ascii -> ascii) l :
  (forall i c, caseVariant c (f i c)) -> Forall2 caseVariant l (imap f l).
Proof.
  revert f. induction l as [|c l IH]; intros f Hf; [constructor|].
  rewrite imap_cons. constructor; [apply Hf|]. apply IH. intros i c'. apply Hf.
Qed.

Lemma checksumCase_variant l : Forall2 caseVariant l (checksumCase l).
Proof.
  unfold checksumCase. apply imap_caseVariant. intros i c.
  unfold caseVariant. destruct (_ && _); auto.
Qed.

Lemma checksumCase_length l : length (checksumCase l) = length l.
Proof. symmetry. eapply Forall2_length, checksumCase_variant. Qed.

Lemma variant_values l l' :
  Forall2 caseVariant l l' -> forallb lowerHex l = true ->
  map hexDigitValue l' = map hexDigitValue l
  /\ map toLowerChar l' = l
  /\ forallb isHexChar l' = true.
Proof.
  induction 1 as [|c c' l l' Hc _ IH]; intros Hl; [auto|].
  cbn [forallb] in Hl. apply andb_true_iff in Hl as [Hc1 Hl].
  destruct (IH Hl) as (IH1 & IH2 & IH3). cbn [map forallb].
  destruct Hc as [-> | ->].
  - rewrite IH1, IH2, IH3, toLowerChar_id, lowerHex_isHexChar by assumption. auto.
  - rewrite IH1, IH2, IH3, upper_hexDigitValue, upper_toLowerChar, upper_isHexChar
      by assumption. auto.
Qed.

Lemma forallb_lowerHex_map l :
  forallb isHexChar l = true -> forallb lowerHex (map toLowerChar l) = true.
Proof.
  induction l as [|c l IH]; [reflexivity|]. cbn [forallb map]. intros H.
  apply andb_true_iff in H as [Hc Hl].
  rewrite toLowerChar_lowerHex, IH by assumption. reflexivity.
Qed.

Lemma map_toLowerChar_id l :
  forallb lowerHex l = true -> map toLowerChar l = l.
Proof.
  induction l as [|c l IH]; [reflexivity|]. cbn [forallb map]. intros H.
  apply andb_true_iff in H as [Hc Hl].
  rewrite toLowerChar_id, IH by assumption. reflexivity.
Qed.

Lemma lowerHex_no_upper l :
  forallb lowerHex l = true -> existsb isUpperAF l = false.
Proof.
  induction l as [|c l IH]; [reflexivity|]. cbn [forallb existsb]. intros H.
  apply andb_true_iff in H as [Hc Hl].
  rewrite lowerHex_not_upper, IH by assumption. reflexivity.
Qed.

Lemma forallb_lowerHex_isHexChar l :
  forallb lowerHex l = true -> forallb isHexChar l = true.
Proof.
  induction l as [|c l IH]; [reflexivity|]. cbn [forallb]. intros H.
  apply andb_true_iff in H as [Hc Hl].
  rewrite lowerHex_isHexChar, IH by assumption. reflexivity.
Qed.

(** The lower-case digits of the text that [getAddress] accepts. *)
Lemma getAddress_Ok a c :
  getAddress a = Ok c ->
  exists l, length l = 40%nat /\ forallb lowerHex l = true
            /\ c = str (chars "0x" ++ checksumCase l).
Proof.
  unfold getAddress. set (l0 := chars a).
  destruct (matchesAddress l0) eqn:Hm; [|discriminate].
  assert (Hp : exists h, isHex40 h = true /\
            (if startsWith l0 (chars "0x") then l0 else chars "0x" ++ l0)
            = chars "0x" ++ h).
  { unfold matchesAddress in Hm.
    assert (Hx : forall r, isHex40 ("0"%char :: "x"%char :: r) = false).
    { intros r. unfold isHex40. cbn [forallb]. rewrite isHexChar_x.
      cbn [andb]. rewrite andb_false_r. reflexivity. }
    destruct l0 as [|c0 l1].
    - discriminate.
    - destruct (Ascii.eqb_spec c0 "0"%char) as [-> | Hc0].
      + destruct l1 as [|c1 l2].
        * discriminate.
        * destruct (Ascii.eqb_spec c1 "x"%char) as [-> | Hc1].
          -- rewrite Hx, orb_false_r in Hm. exists l2. split; [exact Hm|]. simpl. reflexivity.
          -- assert (Hm' : isHex40 ("0"%char :: c1 :: l2) = true).
             { revert Hm. clear -Hc1.
               destruct c1 as [[] [] [] [] [] [] [] []]; try congruence; auto. }
             exists ("0"%char :: c1 :: l2). split; [exact Hm'|].
             cbn [startsWith chars list_ascii_of_string].
             destruct (Ascii.eqb_spec "x"%char c1); [congruence|].
             rewrite andb_false_r. reflexivity.
      + assert (Hm' : isHex40 (c0 :: l1) = true).
        { revert Hm. clear -Hc0.
          destruct c0 as [[] [] [] [] [] [] [] []]; try congruence; auto. }
        exists (c0 :: l1). split; [exact Hm'|].
        cbn [startsWith chars list_ascii_of_string].
        destruct (Ascii.eqb_spec "0"%char c0); [congruence|]. reflexivity. }
  destruct Hp as (h & Hh & ->).
  destruct (_ && _); [discriminate|]. intros [= <-].
  unfold isHex40 in Hh. apply andb_true_iff in Hh as [Hlen Hhex].
  apply Nat.eqb_eq in Hlen.
  exists (map toLowerChar h). split; [rewrite length_map; exact Hlen|].
  split; [apply forallb_lowerHex_map, Hhex|].
  unfold getChecksumAddress. reflexivity.
Qed.

Lemma getAddress_lower l :
  length l = 40%nat -> forallb lowerHex l = true ->
  getAddress (str (chars "0x" ++ l)) = Ok (str (chars "0x" ++ checksumCase l)).
Proof.
  intros Hlen Hl. unfold getAddress. rewrite chars_str.
  assert (Hm : matchesAddress (chars "0x" ++ l) = true).
  { cbn [chars list_ascii_of_string app matchesAddress]. unfold isHex40 at 1.
    rewrite Hlen, forallb_lowerHex_isHexChar by assumption. reflexivity. }
  rewrite Hm.
  cbn [chars list_ascii_of_string app startsWith Ascii.eqb Bool.eqb andb].
  assert (Hmix : mixedCase ("0"%char :: "x"%char :: l) = false).
  { unfold mixedCase. cbn [existsb]. rewrite lowerHex_no_upper by assumption.
    reflexivity. }
  rewrite Hmix. cbn [andb].
  unfold getChecksumAddress. cbn [map skipn].
  rewrite map_toLowerChar_id by assumption. reflexivity.
Qed.

End Addresses.

Section AbiRoundTrip.
Import Ethers.

Local Arguments checksumCase : simpl never.

Lemma address_round_trip a c :
  getAddress a = Ok c ->
  exists v, 0 <= v < 2 ^ 256
    /\ encodeAddress a = Ok (writeValue v)
    /\ forall pre rest,
         decodeAddress (pre ++ writeValue v ++ rest) (length pre) = Ok c.
Proof.
  intros Ha. destruct (getAddress_Ok a c Ha) as (l & Hlen & Hl & ->).
  destruct (variant_values l (checksumCase l) (checksumCase_variant l) Hl)
    as (Hval & _ & _).
  set (v := fromBase 16 (map hexDigitValue l)).
  assert (Hdigits : Forall (fun d => 0 <= d < 16) (map hexDigitValue l)).
  { clear. induction l; constructor; [apply hexDigitValue_range|assumption]. }
  assert (Hv : 0 <= v < 16 ^ 40).
  { pose proof (fromBase_bound 16 _ ltac:(lia) Hdigits) as Hb.
    rewrite length_map, Hlen in Hb. exact Hb. }
  exists v. split; [|split].
  - split; [lia|]. apply Z.lt_le_trans with (16 ^ 40); [lia|]. vm_compute. congruence.
  - unfold encodeAddress. rewrite Ha. cbn [bindR]. rewrite chars_str.
    cbn [chars list_ascii_of_string app skipn]. rewrite drop_0.
    unfold bigIntOfHexDigits.
    change (map (fun c => default 0 (hexVal c)) (checksumCase l))
      with (map hexDigitValue (checksumCase l)).
    rewrite Hval. reflexivity.
  - intros pre rest. unfold decodeAddress.
    rewrite readValue_writeValue.
    2:{ split; [lia|]. apply Z.lt_le_trans with (16 ^ 40); [lia|].
        vm_compute. congruence. }
    cbn [bindR]. unfold toBeHex.
    change (Z.of_nat (2 * 20)) with 40.
    destruct (Z.ltb_spec v (16 ^ 40)); [|lia]. cbn [bindR].
    replace (2 * 20)%nat with (length (map hexDigitValue l))
      by (rewrite length_map; exact Hlen).
    unfold v. rewrite toBase_fromBase by (lia || assumption).
    rewrite map_map.
    replace (map (fun x => hexChar (hexDigitValue x)) l) with l.
    + apply getAddress_lower; assumption.
    + clear -Hl. induction l as [|x l IH]; [reflexivity|].
      cbn [forallb] in Hl. apply andb_true_iff in Hl as [Hx Hl].
      cbn [map]. rewrite hexChar_hexDigitValue, <- IH by assumption. reflexivity.
Qed.

Lemma isAddress_getAddress a :
  isAddress a = true -> getAddress a = Ok (Spec.checksummed a).
Proof.
  unfold isAddress, Spec.checksummed. destruct (getAddress a); [reflexivity|discriminate].
Qed.

Lemma addressTuple_round_trip a :
  isAddress a = true ->
  exists hookData,
    encodeAddressTuple a = Ok hookData
    /\ String.eqb hookData "0x" = false
    /\ String.eqb hookData "" = false
    /\ decodeAddressTuple hookData = Ok (Spec.checksummed a).
Proof.
  intros Ha. apply isAddress_getAddress in Ha.
  destruct (address_round_trip _ _ Ha) as (v & Hv & He & Hd).
  exists (hexlify (writeValue v)).
  assert (Hne : writeValue v <> []).
  { intros E. pose proof (writeValue_length v) as L. rewrite E in L. discriminate. }
  destruct (hexlify_not_empty _ Hne) as [H1 H2].
  split; [|split; [exact H1|split; [exact H2|]]].
  - unfold encodeAddressTuple. rewrite He. reflexivity.
  - unfold decodeAddressTuple. rewrite getBytes_hexlify by apply writeValue_bytes.
    cbn [bindR]. specialize (Hd [] []). rewrite app_nil_r in Hd.
    cbn [app length] in Hd. rewrite Hd. reflexivity.
Qed.

(** The elements as the decoder keeps them when no address failed. *)
Lemma read_kept_items l :
  mapR (fun item : Result string * Z =>
          let* r := readItem ("property " +:+ quoted "recipient") (fst item) in
          Ok (r, snd item))
       (map (fun p : string * Z => (Ok (Spec.checksummed (fst p)), snd p)) l)
  = Ok (map canonicalSplit l).
Proof.
  induction l as [|[r b] l IH]; [reflexivity|].
  cbn [map mapR fst snd readItem bindR]. rewrite IH. reflexivity.
Qed.


Lemma splitItems_round_trip l :
  Forall SplitOk l ->
  exists items,
    mapR splitItem l = Ok items
    /\ length (concat items) = (64 * length l)%nat
    /\ Forall (fun b => 0 <= b < 256) (concat items)
    /\ forall pre rest,
         decodeSplitItems (pre ++ concat items ++ rest) (length pre) (length l)
         = Ok (map (fun p : string * Z => (Ok (Spec.checksummed (fst p)), snd p)) l).
Proof.
  induction 1 as [|[r b] l [Hr Hb] _ IH].
  - exists []. repeat split; try constructor.
  - cbn [fst snd] in Hr, Hb. destruct IH as (items & Hitems & Hlen & Hbytes & Hdec).
    apply isAddress_getAddress in Hr.
    destruct (address_round_trip _ _ Hr) as (v & Hv & He & Hd).
    exists ((writeValue v ++ writeValue b) :: items).
    split; [|split; [|split]].
    + cbn [mapR splitItem]. rewrite He. cbn [bindR]. unfold encodeUint16.
      destruct (Z.ltb_spec b 0); [lia|]. destruct (Z.ltb_spec 65535 b); [lia|].
      cbn [orb bindR]. rewrite Hitems. reflexivity.
    + cbn [concat]. rewrite !length_app, !writeValue_length, Hlen. cbn [length]. lia.
    + cbn [concat]. rewrite !Forall_app. auto using writeValue_bytes.
    + intros pre rest. cbn [length decodeSplitItems concat].
      set (data := pre ++ ((writeValue v ++ writeValue b) ++ concat items) ++ rest).
      assert (D1 : data = pre ++ writeValue v ++ (writeValue b ++ concat items ++ rest))
        by (unfold data; rewrite <- !app_assoc; reflexivity).
      assert (D2 : data = (pre ++ writeValue v) ++ writeValue b ++ (concat items ++ rest))
        by (unfold data; rewrite <- !app_assoc; reflexivity).
      assert (D3 : data = (pre ++ writeValue v ++ writeValue b) ++ concat items ++ rest)
        by (unfold data; rewrite <- !app_assoc; reflexivity).
      rewrite D1 at 1. rewrite Hd. cbn [defer bindR].
      replace (length pre + WordSize)%nat with (length (pre ++ writeValue v))
        by (rewrite length_app, writeValue_length; reflexivity).
      rewrite D2 at 1. rewrite decodeUint16_writeValue by assumption. cbn [bindR].
      replace (length pre + 2 * WordSize)%nat
        with (length (pre ++ writeValue v ++ writeValue b))
        by (rewrite !length_app, !writeValue_length; unfold WordSize; lia).
      rewrite D3, Hdec. reflexivity.
Qed.

Lemma splitArray_round_trip l :
  Forall SplitOk l -> Z.of_nat (length l) < 2 ^ 32 ->
  exists hookData,
    encodeSplitArray l = Ok hookData
    /\ String.eqb hookData "0x" = false
    /\ String.eqb hookData "" = false
    /\ decodeSplitArray hookData = Ok (map canonicalSplit l).
Proof.
  intros Hl Hlen.
  destruct (splitItems_round_trip l Hl) as (items & Hitems & Hilen & Hbytes & Hdec).
  set (n := Z.of_nat (length l)) in *.
  set (bs := writeValue 32 ++ writeValue n ++ concat items).
  assert (Hn : 0 <= n <= 9007199254740991).
  { split; [unfold n; lia|]. apply Z.lt_le_incl, Z.lt_le_trans with (2 ^ 32); [exact Hlen|].
    vm_compute. congruence. }
  exists (hexlify bs).
  assert (Hne : bs <> []).
  { intros E. apply (f_equal (@length Z)) in E. unfold bs in E.
    rewrite length_app, writeValue_length in E. discriminate. }
  destruct (hexlify_not_empty _ Hne) as [H1 H2].
  split; [|split; [exact H1|split; [exact H2|]]].
  - unfold encodeSplitArray.
    change (fun '(r, b) => let* rw := encodeAddress r in
                           let* bw := encodeUint16 b in Ok (rw ++ bw))
      with splitItem.
    rewrite Hitems. reflexivity.
  - unfold decodeSplitArray. rewrite getBytes_hexlify.
    2:{ unfold bs. rewrite !Forall_app. auto using writeValue_bytes. }
    cbn [bindR].
    pose proof (readIndex_writeValue [] 32 (writeValue n ++ concat items)) as R1.
    cbn [app length] in R1. fold bs in R1. rewrite R1 by lia. cbn [bindR].
    change (Z.to_nat 32) with 32%nat.
    assert (Hsub : skipn 32 bs = writeValue n ++ concat items).
    { unfold bs. apply drop_app_length'. symmetry. apply writeValue_length. }
    rewrite Hsub.
    pose proof (readIndex_writeValue [] n (concat items)) as R2.
    cbn [app length] in R2. unfold decodeArray. rewrite R2 by exact Hn. cbn [bindR].
    replace (Z.to_nat n) with (length l) by (unfold n; lia).
    rewrite length_app, writeValue_length, Hilen. unfold WordSize.
    destruct (Nat.leb_spec (length l * 32) (32 + 64 * length l)); [|lia].
    specialize (Hdec (writeValue n) []). rewrite app_nil_r, writeValue_length in Hdec.
    unfold WordSize in Hdec. rewrite Hdec. cbn [defer bindR readItem].
    apply read_kept_items.
Qed.

End AbiRoundTrip.

(** * The claims on the codec and on the signature shape *)

Section Codec.
Import HookDataCodec Spec.

Lemma string_length_chars s : String.length s = length (chars s).
Proof. induction s as [|c s IH]; [reflexivity|]. simpl. rewrite IH. reflexivity. Qed.

Lemma splits_SplitOk l :
  Forall WellFormedAddress (map recipient l) ->
  Forall (fun b => 0 <= b <= 65535) (map bips l) ->
  Forall SplitOk (map (fun s => (recipient s, bips s)) l).
Proof.
  induction l as [|s l IH]; simpl; intros Ha Hb; [constructor|].
  inversion Ha; inversion Hb; subst. constructor; [split; assumption|]. auto.
Qed.

Lemma canonical_splits l :
  map (fun s => {| recipient := fst s; bips := snd s |})
      (map canonicalSplit (map (fun s => (recipient s, bips s)) l))
  = map (fun s => {| recipient := checksummed (recipient s); bips := bips s |}) l.
Proof. induction l as [|s l IH]; simpl; [reflexivity|]. rewrite IH. reflexivity. Qed.

Lemma round_trip_canonical p : SchemaValue p -> roundTrip p = Ok (canonical p).
Proof.
  intros (Ha & Hb & Hn). unfold roundTrip.
  destruct p as [a | a | [l|]].
  - inversion Ha as [|? ? Hwf _]; subst.
    destruct (addressTuple_round_trip a Hwf) as (hd & He & H1 & H2 & Hd).
    cbn [type_of canonical]. unfold encode. cbn [String.eqb Ascii.eqb Bool.eqb].
    cbn [get_nftContract encodeAddressProperty]. rewrite He. cbn [bindR].
    unfold decode. cbn [String.eqb Ascii.eqb Bool.eqb]. rewrite H1, H2. cbn [orb].
    rewrite Hd. reflexivity.
  - inversion Ha as [|? ? Hwf _]; subst.
    destruct (addressTuple_round_trip a Hwf) as (hd & He & H1 & H2 & Hd).
    cbn [type_of canonical]. unfold encode. cbn [String.eqb Ascii.eqb Bool.eqb].
    cbn [get_rewardToken encodeAddressProperty]. rewrite He. cbn [bindR].
    unfold decode. cbn [String.eqb Ascii.eqb Bool.eqb]. rewrite H1, H2. cbn [orb].
    rewrite Hd. reflexivity.
  - destruct l as [|s l]; [reflexivity|].
    cbn [addresses shares] in Ha, Hb, Hn.
    pose proof (splits_SplitOk _ Ha Hb) as Hok.
    rewrite length_map in Hn.
    destruct (splitArray_round_trip (map (fun s => (recipient s, bips s)) (s :: l)))
      as (hd & He & H1 & H2 & Hd); [exact Hok | rewrite length_map; exact Hn |].
    cbn [type_of]. unfold encode. cbn [String.eqb Ascii.eqb Bool.eqb get_splits].
    cbn [length Nat.eqb]. rewrite He. cbn [bindR].
    unfold decode. cbn [String.eqb Ascii.eqb Bool.eqb]. rewrite H1, H2. cbn [orb].
    rewrite Hd. cbn [bindR]. rewrite canonical_splits. reflexivity.
  - reflexivity.
Qed.

Lemma canonical_fixed p :
  Forall (fun a => Ethers.getAddress a = Ok a) (addresses p) ->
  ~ NoSplits p -> canonical p = p.
Proof.
  intros Ha Hn.
  assert (Hc : forall a, Ethers.getAddress a = Ok a -> checksummed a = a).
  { intros a H. unfold checksummed. rewrite H. reflexivity. }
  destruct p as [a | a | [l|]]; cbn [addresses canonical] in *.
  - inversion Ha; subst. rewrite Hc by assumption. reflexivity.
  - inversion Ha; subst. rewrite Hc by assumption. reflexivity.
  - destruct l as [|s l]; [exfalso; apply Hn; right; reflexivity|].
    do 2 f_equal. revert Ha. generalize (s :: l). clear -Hc.
    intros l0. induction l0 as [|[r b] l0 IH]; simpl; intros Ha; [reflexivity|].
    inversion Ha; subst. rewrite Hc, IH by assumption. reflexivity.
  - exfalso. apply Hn. left. reflexivity.
Qed.

(** C1, as amended: the round trip of a value of the schema yields the
    value with every address in its checksummed form and with empty splits
    absent; it yields the value itself when its addresses are already in
    checksummed form and it has splits or is a single-address variant. *)
Theorem C1_round_trip_up_to_checksum (p : HookDataParams) :
  SchemaValue p ->
  roundTrip p = Ok (canonical p)
  /\ (NoSplits p -> roundTrip p = Ok (TransferSplitHookData None))
  /\ (Forall (fun a => Ethers.getAddress a = Ok a) (addresses p) ->
      ~ NoSplits p -> roundTrip p = Ok p).
Proof.
  intros Hp. pose proof (round_trip_canonical p Hp) as H. split; [exact H|]. split.
  - intros [-> | ->]; reflexivity.
  - intros Ha Hn. rewrite H, canonical_fixed by assumption. reflexivity.
Qed.

End Codec.

Section CodecClaims.
Import HookDataCodec Spec.

Lemma C1_round_trip_witness :
  roundTrip Sample.evenSplit = Ok (canonical Sample.evenSplit)
  /\ (NoSplits Sample.evenSplit -> roundTrip Sample.evenSplit = Ok (TransferSplitHookData None))
  /\ (Forall (fun a => Ethers.getAddress a = Ok a) (addresses Sample.evenSplit) ->
      ~ NoSplits Sample.evenSplit -> roundTrip Sample.evenSplit = Ok Sample.evenSplit).
Proof.
  apply (C1_round_trip_up_to_checksum Sample.evenSplit).
  split; [|split].
  - constructor; [vm_compute; reflexivity|].
    constructor; [vm_compute; reflexivity|]. constructor.
  - constructor; [vm_compute; split; congruence|].
    constructor; [vm_compute; split; congruence|]. constructor.
  - vm_compute. reflexivity.
Defined.

(** C1, as stated, fails: an all-lower-case address is well-formed and
    accepted by [validate], and comes back from the round trip in its
    checksummed, mixed-case form. *)
Lemma C1_lower_case_address_not_preserved :
  validate Sample.lowerCaseMint = true
  /\ SchemaValue Sample.lowerCaseMint
  /\ ~ NoSplits Sample.lowerCaseMint
  /\ roundTrip Sample.lowerCaseMint
     = Ok (NFTMintHookData "0xc21223249CA28397B4B6541dfFaEcC539BfF0c59")
  /\ roundTrip Sample.lowerCaseMint <> Ok Sample.lowerCaseMint.
Proof.
  split; [vm_compute; reflexivity|]. split.
  { split; [|split].
    - constructor; [vm_compute; reflexivity | constructor].
    - constructor.
    - vm_compute. reflexivity. }
  split; [intros [H | H]; discriminate H|].
  assert (H : roundTrip Sample.lowerCaseMint
              = Ok (NFTMintHookData "0xc21223249CA28397B4B6541dfFaEcC539BfF0c59"))
    by (vm_compute; reflexivity).
  split; [exact H|]. rewrite H. unfold Sample.lowerCaseMint, Sample.lowerUsdc. intros E.
  discriminate E.
Qed.

(** C3: on an empty payload, [decode] throws for the two single-address
    kinds and returns the value without splits for transfer-split. *)
Theorem C3_decode_empty_payload (hookData : string) :
  hookData = "0x" \/ hookData = "" ->
  decode "nft-mint" hookData = Throw (JsError "NFT mint hookData cannot be empty")
  /\ decode "reward-points" hookData
     = Throw (JsError "Reward points hookData cannot be empty")
  /\ decode "transfer-split" hookData = Ok (TransferSplitHookData None).
Proof. intros [-> | ->]; repeat split. Qed.

Lemma C3_witness_empty_hex :
  decode "nft-mint" "0x" = Throw (JsError "NFT mint hookData cannot be empty")
  /\ decode "reward-points" "0x"
     = Throw (JsError "Reward points hookData cannot be empty")
  /\ decode "transfer-split" "0x" = Ok (TransferSplitHookData None).
Proof. apply (C3_decode_empty_payload "0x"). left. reflexivity. Defined.

End CodecClaims.

Section SignatureClaims.
Import X402Client Spec.

Lemma isHexChar_spec c : Ethers.isHexChar c = true <-> HexDigit c.
Proof.
  split.
  - destruct c as [[] [] [] [] [] [] [] []]; try discriminate; intros _;
      unfold HexDigit; cbn [chars list_ascii_of_string In];
      repeat (first [left; reflexivity | right]).
  - unfold HexDigit. cbn [chars list_ascii_of_string In].
    intros H. repeat (destruct H as [<- | H]; [reflexivity|]). contradiction.
Qed.

Lemma forallb_isHexChar_spec l :
  forallb Ethers.isHexChar l = true <-> Forall HexDigit l.
Proof.
  induction l as [|c l IH]; simpl.
  - split; [constructor | reflexivity].
  - rewrite andb_true_iff, IH, isHexChar_spec. split.
    + intros [? ?]. constructor; assumption.
    + inversion 1; subst. split; assumption.
Qed.

Lemma validateSignature_shape signature :
  validateSignature signature = true <-> SignatureShape signature.
Proof.
  unfold validateSignature, SignatureShape, slice. split.
  - intros H.
    destruct (startsWith (chars signature) (chars "0x")) eqn:Hp; [|discriminate].
    cbn [negb] in H.
    destruct (Nat.eqb_spec (String.length signature) 132) as [Hlen|]; [|discriminate].
    cbn [negb] in H. rewrite chars_str in H.
    destruct (chars signature) as [|c0 [|c1 rest]] eqn:Hs; try discriminate.
    cbn [chars list_ascii_of_string startsWith] in Hp.
    apply andb_true_iff in Hp as [H0 Hp]. apply andb_true_iff in Hp as [H1 _].
    apply Ascii.eqb_eq in H0, H1. subst c0 c1. cbn [skipn] in H.
    exists (str rest).
    assert (Hsig : signature = "0x" +:+ str rest).
    { rewrite <- (str_chars signature), Hs. reflexivity. }
    assert (Hrl : length rest = 130%nat).
    { rewrite string_length_chars, Hs in Hlen. cbn [length] in Hlen. lia. }
    split; [exact Hsig|]. split; [rewrite string_length_chars, chars_str; exact Hrl|].
    split; [exact Hlen|]. rewrite chars_str. apply forallb_isHexChar_spec.
    destruct rest; [discriminate|exact H].
  - intros (hexPart & -> & Hlen & Htot & Hhex).
    assert (Hs : chars ("0x" +:+ hexPart) = "0"%char :: "x"%char :: chars hexPart)
      by reflexivity.
    rewrite Hs. cbn [chars list_ascii_of_string startsWith Ascii.eqb Bool.eqb andb negb].
    rewrite Htot. cbn [Nat.eqb negb skipn]. rewrite chars_str.
    apply forallb_isHexChar_spec in Hhex.
    rewrite string_length_chars in Hlen.
    destruct (chars hexPart); [discriminate|exact Hhex].
Qed.

(** C4: [validateSignature] accepts exactly the texts made of the marker
    [0x] and 130 hexadecimal digits (132 characters in all), and
    [submitTransaction] on any other text throws [SignatureError] without
    issuing a request to the ledger: the state of the ledger and its trace
    are the ones before the call. *)
Theorem C4_signature_shape (signature : string) :
  (validateSignature signature = true <-> SignatureShape signature)
  /\ (validateSignature signature = false ->
      forall W (E : Ledger.Env W) prepared signerPrivateKey (s : Ledger.State W),
        submitTransaction E prepared signature signerPrivateKey s
        = (Throw (SignatureError "Invalid signature format"
                    (Some "Signature must be a 65-byte hex string starting with 0x")),
           s)).
Proof.
  split; [apply validateSignature_shape|].
  intros H W E prepared key s. unfold submitTransaction. rewrite H. reflexivity.
Qed.

End SignatureClaims.

Section ValidateClaim.
Import HookDataCodec Spec.

Local Arguments Ethers.checksumCase : simpl never.

(** The double nearest to an integer that a double holds is itself. *)
Lemma toDouble_exact z : - 2 ^ 53 <= z <= 2 ^ 53 -> toDouble z = Some z.
Proof.
  intros Hz. unfold toDouble. destruct (Z.leb_spec (Z.abs z) (2 ^ 53)); [reflexivity|lia].
Qed.

(** Rounding does not bring an integer beyond 2^53 below it. *)
Lemma toDouble_large z :
  2 ^ 53 < z -> match toDouble z with Some d => 2 ^ 53 <= d | None => True end.
Proof.
  intros Hz. unfold toDouble. rewrite Z.abs_eq by lia.
  destruct (Z.leb_spec z (2 ^ 53)); [lia|].
  set (e := Z.log2 z - 52).
  assert (Hlog : 53 <= Z.log2 z) by (apply Z.log2_le_pow2; lia).
  assert (He : 1 <= e) by (unfold e; lia).
  assert (Hpow : 0 < 2 ^ e) by (apply Z.pow_pos_nonneg; lia).
  assert (Hq : 2 ^ 52 <= z / 2 ^ e).
  { apply Z.div_le_lower_bound; [exact Hpow|].
    rewrite <- Z.pow_add_r by lia. replace (e + 52) with (Z.log2 z) by (unfold e; lia).
    apply Z.log2_spec. lia. }
  set (q := z / 2 ^ e) in *.
  set (q' := if z mod 2 ^ e <? 2 ^ (e - 1) then q
             else if 2 ^ (e - 1) <? z mod 2 ^ e then q + 1
             else if Z.even q then q else q + 1).
  assert (Hq' : q <= q').
  { unfold q'. destruct (_ <? _); [lia|]. destruct (_ <? _); [lia|].
    destruct (Z.even q); lia. }
  destruct (Z.leb_spec (2 ^ 1024) (q' * 2 ^ e)); [exact I|].
  rewrite Z.sgn_pos by lia. rewrite Z.mul_1_l.
  assert (H2 : 2 <= 2 ^ e).
  { change 2 with (2 ^ 1) at 1. apply Z.pow_le_mono_r; lia. }
  change (2 ^ 53) with (2 ^ 52 * 2). nia.
Qed.

(** The sum of [validate] when every running sum is held exactly. *)
Lemma sum_within l acc :
  (forall k, - 2 ^ 53 <= acc + total (firstn k (map bips l)) <= 2 ^ 53) ->
  fold_left (fun sum s => add sum (bips s)) l (Some acc) = Some (acc + sumBips l).
Proof.
  revert acc. induction l as [|s l IH]; intros acc H.
  - cbn. f_equal. lia.
  - cbn [fold_left add sumBips]. rewrite toDouble_exact.
    + rewrite IH; [f_equal; lia|]. intros k. specialize (H (S k)).
      cbn [map firstn total fold_right] in H. unfold total. lia.
    + specialize (H 1%nat). cbn [map firstn total fold_right] in H.
      rewrite firstn_O in H. cbn in H. lia.
Qed.

(** Once the sum is 2^53 or more, or an infinity, shares that are not
    negative leave it so. *)
Lemma sum_stays_large l sum :
  Forall (fun b => 0 <= b) (map bips l) ->
  match sum with Some x => 2 ^ 53 <= x | None => True end ->
  match fold_left (fun sum s => add sum (bips s)) l sum with
  | Some x => 2 ^ 53 <= x
  | None => True
  end.
Proof.
  revert sum. induction l as [|s l IH]; intros sum Hl Hsum; [exact Hsum|].
  cbn [map] in Hl. inversion Hl as [|? ? Hb Hl']; subst.
  cbn [fold_left]. apply IH; [exact Hl'|].
  destruct sum as [x|]; [|exact I]. cbn [add].
  destruct (Z.eq_dec (x + bips s) (2 ^ 53)) as [E|E].
  - rewrite E. vm_compute. congruence.
  - apply toDouble_large. lia.
Qed.

Lemma sumBips_nonneg l : Forall (fun b => 0 <= b) (map bips l) -> 0 <= sumBips l.
Proof.
  induction l as [|s l IH]; cbn [map sumBips]; intros H; [lia|].
  inversion H; subst. specialize (IH ltac:(assumption)). lia.
Qed.

(** The sum of [validate] over shares that are not negative is exactly
    10000 when their exact sum is. *)
Lemma sum_nonneg l acc :
  0 <= acc <= 2 ^ 53 -> Forall (fun b => 0 <= b) (map bips l) ->
  strictEq (fold_left (fun sum s => add sum (bips s)) l (Some acc)) 10000
  = (acc + sumBips l =? 10000).
Proof.
  revert acc. induction l as [|s l IH]; intros acc Hacc Hl.
  - cbn. f_equal. lia.
  - cbn [map] in Hl. inversion Hl as [|? ? Hb Hl']; subst.
    cbn [fold_left add sumBips].
    destruct (Z.le_gt_cases (acc + bips s) (2 ^ 53)) as [Hle|Hgt].
    + rewrite toDouble_exact by lia. rewrite IH by (assumption || lia).
      f_equal. lia.
    + pose proof (sum_stays_large l (toDouble (acc + bips s)) Hl'
                    (toDouble_large (acc + bips s) ltac:(lia))) as Hlarge.
      pose proof (sumBips_nonneg l Hl') as Hnn.
      destruct (fold_left _ l (toDouble (acc + bips s))) as [x|]; cbn [strictEq].
      * destruct (Z.eqb_spec x 10000); [lia|].
        destruct (Z.eqb_spec (acc + (bips s + sumBips l)) 10000); [lia|reflexivity].
      * destruct (Z.eqb_spec (acc + (bips s + sumBips l)) 10000); [lia|reflexivity].
Qed.

Lemma sum_exact l :
  ExactlySummed (map bips l) ->
  strictEq (fold_left (fun sum s => add sum (bips s)) l (Some 0)) 10000
  = (sumBips l =? 10000).
Proof.
  intros [Hnn | Hsafe].
  - rewrite sum_nonneg by (assumption || lia). reflexivity.
  - rewrite sum_within by (intros k; specialize (Hsafe k); lia). reflexivity.
Qed.

(** The text that [getAddress] hashes and compares: the digits under the
    prefix. *)
Lemma matchesAddress_digits l :
  Ethers.matchesAddress l = true <->
  exists digits,
    (l = digits \/ l = chars "0x" ++ digits) /\ Ethers.isHex40 digits = true.
Proof.
  assert (Hx : forall r, Ethers.isHex40 ("0"%char :: "x"%char :: r) = false).
  { intros r. unfold Ethers.isHex40. cbn [forallb]. rewrite isHexChar_x.
    cbn [andb]. rewrite andb_false_r. reflexivity. }
  split.
  - unfold Ethers.matchesAddress. intros Hm. destruct l as [|c0 l1]; [discriminate|].
    destruct (Ascii.eqb_spec c0 "0"%char) as [-> | Hc0].
    + destruct l1 as [|c1 l2]; [discriminate|].
      destruct (Ascii.eqb_spec c1 "x"%char) as [-> | Hc1].
      * rewrite Hx, orb_false_r in Hm. exists l2. split; [right; reflexivity|exact Hm].
      * exists ("0"%char :: c1 :: l2). split; [left; reflexivity|].
        revert Hm. clear -Hc1.
        destruct c1 as [[] [] [] [] [] [] [] []]; try congruence; auto.
    + exists (c0 :: l1). split; [left; reflexivity|].
      revert Hm. clear -Hc0.
      destruct c0 as [[] [] [] [] [] [] [] []]; try congruence; auto.
  - intros (digits & [-> | ->] & Hd).
    + unfold Ethers.matchesAddress. destruct digits as [|c0 l1]; [discriminate|].
      destruct (Ascii.eqb_spec c0 "0"%char) as [-> | Hc0].
      * destruct l1 as [|c1 l2]; [discriminate|].
        destruct (Ascii.eqb_spec c1 "x"%char) as [-> | Hc1]; [rewrite Hx in Hd; discriminate|].
        revert Hd. clear -Hc1.
        destruct c1 as [[] [] [] [] [] [] [] []]; try congruence; auto.
      * revert Hd. clear -Hc0.
        destruct c0 as [[] [] [] [] [] [] [] []]; try congruence; auto.
    + cbn [chars list_ascii_of_string app Ethers.matchesAddress]. rewrite Hd. reflexivity.
Qed.

Lemma isHex40_prefixed digits :
  Ethers.isHex40 digits = true ->
  startsWith digits (chars "0x") = false.
Proof.
  unfold Ethers.isHex40. intros H. apply andb_true_iff in H as [_ H].
  destruct digits as [|c0 [|c1 l]]; cbn [chars list_ascii_of_string startsWith];
    [reflexivity | apply andb_false_r |].
  cbn [forallb] in H. apply andb_true_iff in H as [_ H]. apply andb_true_iff in H as [H _].
  destruct (Ascii.eqb_spec "x"%char c1) as [<-|]; [discriminate H|].
  rewrite andb_false_r. reflexivity.
Qed.

Lemma existsb_UpperLetter l : existsb Ethers.isUpperAF l = true <-> Exists UpperLetter l.
Proof.
  assert (H1 : forall c, Ethers.isUpperAF c = true <-> UpperLetter c).
  { intros c. unfold UpperLetter. cbn [chars list_ascii_of_string In]. split.
    - destruct c as [[] [] [] [] [] [] [] []]; try discriminate; intros _;
        repeat (first [left; reflexivity | right]).
    - intros H. repeat (destruct H as [<- | H]; [reflexivity|]). contradiction. }
  induction l as [|c l IH]; cbn [existsb].
  - split; [discriminate | intros H; inversion H].
  - rewrite orb_true_iff, IH, H1. split.
    + intros [H|H]; [left|right]; exact H.
    + inversion 1; subst; [left|right]; assumption.
Qed.

Lemma existsb_LowerLetter l : existsb Ethers.isLowerAF l = true <-> Exists LowerLetter l.
Proof.
  assert (H1 : forall c, Ethers.isLowerAF c = true <-> LowerLetter c).
  { intros c. unfold LowerLetter. cbn [chars list_ascii_of_string In]. split.
    - destruct c as [[] [] [] [] [] [] [] []]; try discriminate; intros _;
        repeat (first [left; reflexivity | right]).
    - intros H. repeat (destruct H as [<- | H]; [reflexivity|]). contradiction. }
  induction l as [|c l IH]; cbn [existsb].
  - split; [discriminate | intros H; inversion H].
  - rewrite orb_true_iff, IH, H1. split.
    + intros [H|H]; [left|right]; exact H.
    + inversion 1; subst; [left|right]; assumption.
Qed.

Lemma upper_of_lower c : toUpperChar (toLowerChar c) = toUpperChar c.
Proof. destruct c as [[] [] [] [] [] [] [] []]; reflexivity. Qed.

Lemma nth_error_imap_map {A B C} (f : nat -> B -> C) (g : A -> B) (l : list A) i :
  nth_error (imap f (map g l)) i = option_map (fun c => f i (g c)) (nth_error l i).
Proof.
  revert i f. induction l as [|d l IH]; intros i f.
  - destruct i; reflexivity.
  - destruct i as [|i]; [reflexivity|]. cbn [map imap nth_error].
    rewrite (IH i (f ∘ S)). reflexivity.
Qed.

(** The text that [getChecksumAddress] returns is the one that has the
    casing of EIP-55. *)
Lemma checksumCase_Eip55 digits :
  length digits = 40%nat ->
  (Ethers.checksumCase (map toLowerChar digits) = digits <-> Eip55 digits).
Proof.
  intros Hlen. unfold Ethers.checksumCase, Eip55.
  rewrite firstn_all2 by (rewrite length_map; lia).
  set (hashed := Keccak.keccak256 _).
  set (f := fun (i : nat) (c : ascii) =>
              if (i <? 40)%nat && (8 <=? Ethers.hashNibble hashed i)
              then toUpperChar c else c).
  assert (Hnth : forall i, nth_error (imap f (map toLowerChar digits)) i
                           = option_map (fun c => f i (toLowerChar c)) (nth_error digits i))
    by (intros i; apply nth_error_imap_map).
  split.
  - intros Heq i c Hc. pose proof (Hnth i) as Hi. rewrite Heq, Hc in Hi. cbn in Hi.
    injection Hi as Hi. unfold f in Hi.
    assert (Hi40 : (i < 40)%nat).
    { rewrite <- Hlen. apply nth_error_Some. congruence. }
    destruct (Nat.ltb_spec i 40); [|lia]. cbn [andb] in Hi.
    destruct (8 <=? Ethers.hashNibble hashed i).
    + rewrite upper_of_lower in Hi. exact Hi.
    + exact Hi.
  - intros H. apply nth_error_ext. intros i. rewrite Hnth.
    destruct (nth_error digits i) as [c|] eqn:Hc; [|reflexivity]. cbn. f_equal.
    specialize (H i c Hc). unfold f.
    assert (Hi40 : (i < 40)%nat).
    { rewrite <- Hlen. apply nth_error_Some. congruence. }
    destruct (Nat.ltb_spec i 40); [|lia]. cbn [andb].
    destruct (8 <=? Ethers.hashNibble hashed i).
    + rewrite upper_of_lower. symmetry. exact H.
    + symmetry. exact H.
Qed.

(** What [isAddress] accepts, spelled out: the hexadecimal address
    texts. (The library also accepts text of the ICAP form, which this
    embedding leaves out.) *)
Lemma isAddress_HexAddressText a : Ethers.isAddress a = true <-> HexAddressText a.
Proof.
  unfold Ethers.isAddress, Ethers.getAddress, HexAddressText.
  set (l := chars a).
  assert (Hpre : forall digits,
            (l = digits \/ l = chars "0x" ++ digits) -> Ethers.isHex40 digits = true ->
            (if startsWith l (chars "0x") then l else chars "0x" ++ l)
            = chars "0x" ++ digits).
  { intros digits [-> | ->] Hd.
    - rewrite (isHex40_prefixed _ Hd). reflexivity.
    - reflexivity. }
  assert (Hcheck : forall digits,
            Ethers.isHex40 digits = true ->
            (Ethers.mixedCase (chars "0x" ++ digits)
             && negb (bool_decide (Ethers.getChecksumAddress (chars "0x" ++ digits)
                                   = chars "0x" ++ digits)) = false
             <-> (Exists UpperLetter digits -> Exists LowerLetter digits -> Eip55 digits))).
  { intros digits Hd. unfold Ethers.isHex40 in Hd. apply andb_true_iff in Hd as [Hlen _].
    apply Nat.eqb_eq in Hlen.
    unfold Ethers.mixedCase, Ethers.getChecksumAddress.
    cbn [chars list_ascii_of_string app existsb map skipn]. rewrite drop_0.
    change (Ethers.isUpperAF "0") with false. change (Ethers.isUpperAF "x") with false.
    change (Ethers.isLowerAF "0") with false. change (Ethers.isLowerAF "x") with false.
    cbn [orb]. rewrite <- (checksumCase_Eip55 digits Hlen).
    rewrite <- existsb_UpperLetter, <- existsb_LowerLetter.
    destruct (existsb Ethers.isUpperAF digits); cbn [andb];
      [|split; [intros _ H; discriminate H | reflexivity]].
    destruct (existsb Ethers.isLowerAF digits); cbn [andb];
      [|split; [intros _ _ H; discriminate H | reflexivity]].
    destruct (bool_decide_reflect
                ("0"%char :: "x"%char :: Ethers.checksumCase (map toLowerChar digits)
                 = "0"%char :: "x"%char :: digits)) as [E|E]; cbn [negb].
    - split; [intros _ _ _; congruence | reflexivity].
    - split; [discriminate|]. intros H. exfalso. apply E. rewrite H; reflexivity. }
  split.
  - destruct (Ethers.matchesAddress l) eqn:Hm; [|discriminate].
    apply matchesAddress_digits in Hm as (digits & Hl & Hd).
    rewrite (Hpre digits Hl Hd).
    destruct (_ && _) eqn:Hc; [discriminate|]. intros _.
    exists digits. split; [exact Hl|].
    pose proof Hd as Hd'. unfold Ethers.isHex40 in Hd'.
    apply andb_true_iff in Hd' as [Hlen Hhex]. apply Nat.eqb_eq in Hlen.
    split; [exact Hlen|]. split; [apply forallb_isHexChar_spec, Hhex|].
    apply (Hcheck digits Hd), Hc.
  - intros (digits & Hl & Hlen & Hhex & Hcase).
    assert (Hd : Ethers.isHex40 digits = true).
    { unfold Ethers.isHex40. rewrite Hlen. apply forallb_isHexChar_spec in Hhex.
      rewrite Hhex. reflexivity. }
    assert (Hm : Ethers.matchesAddress l = true).
    { apply matchesAddress_digits. exists digits. split; assumption. }
    rewrite Hm, (Hpre digits Hl Hd).
    apply (Hcheck digits Hd) in Hcase. rewrite Hcase. reflexivity.
Qed.

Lemma forallb_HexAddressText l :
  forallb (fun s => Ethers.isAddress (recipient s)) l = true
  <-> Forall (fun s => HexAddressText (recipient s)) l.
Proof.
  induction l as [|s l IH]; simpl.
  - split; [constructor | reflexivity].
  - rewrite andb_true_iff, IH, isAddress_HexAddressText. split.
    + intros [? ?]. constructor; assumption.
    + inversion 1; subst. split; assumption.
Qed.

(** C2, as amended: for a value whose address texts are not of the ICAP
    form and whose shares are integers that are not negative (or whose
    running sums all lie within plus and minus 2^53), [validate] accepts
    exactly the single-address values whose address is a hexadecimal
    address text, the transfer-split values without splits, and the
    transfer-split values whose recipients are all hexadecimal address
    texts and whose shares sum to exactly 10000. *)
Theorem C2_validate_characterisation (p : HookDataParams) :
  Forall NotIcap (addresses p) ->
  ExactlySummed (shares p) ->
  (validate p = true <->
   (exists a, (p = NFTMintHookData a \/ p = RewardPointsHookData a)
              /\ HexAddressText a)
   \/ (p = TransferSplitHookData None \/ p = TransferSplitHookData (Some []))
   \/ (exists l, p = TransferSplitHookData (Some l)
                 /\ Forall (fun s => HexAddressText (recipient s)) l
                 /\ sumBips l = 10000)).
Proof.
  intros _ Hsum. split.
  - destruct p as [a | a | [l|]]; cbn [validate]; intros H.
    + left. exists a. split; [left; reflexivity | apply isAddress_HexAddressText, H].
    + left. exists a. split; [right; reflexivity | apply isAddress_HexAddressText, H].
    + destruct l as [|s l].
      * right. left. right. reflexivity.
      * right. right. exists (s :: l). cbn [length Nat.eqb] in H.
        apply andb_true_iff in H as [Hall Hs].
        rewrite (sum_exact _ Hsum) in Hs. apply Z.eqb_eq in Hs.
        split; [reflexivity|]. split; [apply forallb_HexAddressText, Hall | exact Hs].
    + right. left. left. reflexivity.
  - intros [(a & [-> | ->] & Ha) | [[-> | ->] | (l & -> & Hall & Hs)]];
      cbn [validate]; try (apply isAddress_HexAddressText; assumption);
      try reflexivity.
    destruct l as [|s l]; [reflexivity|]. cbn [length Nat.eqb].
    apply andb_true_iff. split; [apply forallb_HexAddressText, Hall|].
    rewrite (sum_exact _ Hsum). apply Z.eqb_eq. exact Hs.
Qed.

Lemma C2_witness_even_split :
  validate Sample.evenSplit = true <->
  (exists a, (Sample.evenSplit = NFTMintHookData a
              \/ Sample.evenSplit = RewardPointsHookData a)
             /\ HexAddressText a)
  \/ (Sample.evenSplit = TransferSplitHookData None
      \/ Sample.evenSplit = TransferSplitHookData (Some []))
  \/ (exists l, Sample.evenSplit = TransferSplitHookData (Some l)
                /\ Forall (fun s => HexAddressText (recipient s)) l
                /\ sumBips l = 10000).
Proof.
  apply (C2_validate_characterisation Sample.evenSplit).
  - cbn [Sample.evenSplit addresses map recipient].
    constructor; [reflexivity|]. constructor; [reflexivity|]. constructor.
  - left. cbn [Sample.evenSplit shares map bips].
    constructor; [lia|]. constructor; [lia|]. constructor.
Defined.

(** C2, as stated, fails: the exact sum of the shares of
    [Sample.roundedSplit] is 10000 and its recipients are well-formed, and
    [validate] refuses it, because the sum it compares is the rounded
    one. *)
Lemma C2_rounded_sum_is_refused :
  (exists l, Sample.roundedSplit = TransferSplitHookData (Some l)
             /\ Forall (fun s => Ethers.isAddress (recipient s) = true) l
             /\ sumBips l = 10000)
  /\ validate Sample.roundedSplit = false.
Proof.
  split; [|vm_compute; reflexivity].
  eexists. split; [reflexivity|]. split; [|reflexivity].
  repeat (constructor; [vm_compute; reflexivity|]). constructor.
Qed.

(** The two examples of the specification. *)
Example validate_even_split : validate Sample.evenSplit = true.
Proof. vm_compute. reflexivity. Qed.

Example validate_uneven_split : validate Sample.unevenSplit = false.
Proof. vm_compute. reflexivity. Qed.

End ValidateClaim.

Section JsMapLemmas.
Context {K V : Type} `{EqDecision K}.
Implicit Types (m : list (K * V)).

Lemma map_get_set_eq k v m : map_get k (map_set k v m) = Some v.
Proof.
  induction m as [|[k' v'] m IH]; simpl.
  - destruct (decide (k = k)); [reflexivity|congruence].
  - destruct (decide (k' = k)) as [->|Hne]; simpl.
    + destruct (decide (k = k)); [reflexivity|congruence].
    + destruct (decide (k' = k)); [congruence|exact IH].
Qed.

Lemma map_get_set_ne k k' v m : k' <> k -> map_get k' (map_set k v m) = map_get k' m.
Proof.
  intros Hne. induction m as [|[k0 v0] m IH]; simpl.
  - destruct (decide (k = k')); [congruence|reflexivity].
  - destruct (decide (k0 = k)) as [->|Hk]; simpl.
    + destruct (decide (k = k')); [congruence|reflexivity].
    + destruct (decide (k0 = k')); [reflexivity|exact IH].
Qed.

Lemma map_keys_set k v m :
  map_keys (map_set k v m)
  = if decide (k ∈ map_keys m) then map_keys m else map_keys m ++ [k].
Proof.
  unfold map_keys. induction m as [|[k0 v0] m IH]; simpl.
  - destruct (decide (k ∈ [])) as [Hin|_]; [|reflexivity].
    apply elem_of_nil in Hin. contradiction.
  - destruct (decide (k0 = k)) as [->|Hk]; simpl.
    + destruct (decide (k ∈ k :: map fst m)) as [_|Hn]; [reflexivity|].
      exfalso. apply Hn. apply elem_of_cons. left. reflexivity.
    + rewrite IH. destruct (decide (k ∈ map fst m)) as [Hin|Hin].
      * destruct (decide (k ∈ k0 :: map fst m)) as [_|Hn]; [reflexivity|].
        exfalso. apply Hn. apply elem_of_cons. right. exact Hin.
      * destruct (decide (k ∈ k0 :: map fst m)) as [Hc|_]; [|reflexivity].
        apply elem_of_cons in Hc as [?|?]; [congruence|contradiction].
Qed.

Lemma map_values_set (P : V -> Prop) k v m :
  P v -> Forall P (map_values m) -> Forall P (map_values (map_set k v m)).
Proof.
  intros Hv. unfold map_values. induction m as [|[k0 v0] m IH]; simpl; intros Hm.
  - constructor; [exact Hv|constructor].
  - inversion Hm; subst. destruct (decide (k0 = k)); simpl; constructor; auto.
Qed.

Lemma map_get_values (P : V -> Prop) k v m :
  Forall P (map_values m) -> map_get k m = Some v -> P v.
Proof.
  unfold map_values. induction m as [|[k0 v0] m IH]; simpl; intros Hm Hg; [discriminate|].
  inversion Hm; subst. destruct (decide (k0 = k)); [congruence | auto].
Qed.

(** A [set] on a present key replaces the value where it stands. *)
Lemma map_set_in_place k v m :
  k ∈ map_keys m ->
  exists before old after,
    m = before ++ (k, old) :: after
    /\ (k ∉ map_keys before)
    /\ map_set k v m = before ++ (k, v) :: after.
Proof.
  unfold map_keys. induction m as [|[k0 v0] m IH]; simpl.
  - intros Hin. apply elem_of_nil in Hin. contradiction.
  - intros Hin. destruct (decide (k0 = k)) as [->|Hk].
    + exists [], v0, m. simpl. split; [reflexivity|]. split; [apply not_elem_of_nil|reflexivity].
    + apply elem_of_cons in Hin as [?|Hin]; [congruence|].
      destruct (IH Hin) as (before & old & after & -> & Hb & Hs).
      exists ((k0, v0) :: before), old, after. simpl. rewrite Hs.
      split; [reflexivity|]. split; [|reflexivity].
      intros Hc. apply elem_of_cons in Hc as [?|?]; [congruence|contradiction].
Qed.

Lemma map_keys_NoDup_set k v m :
  NoDup (map_keys m) -> NoDup (map_keys (map_set k v m)).
Proof.
  intros Hnd. rewrite map_keys_set. destruct (decide (k ∈ map_keys m)); [exact Hnd|].
  apply NoDup_app. split; [exact Hnd|]. split.
  - intros x Hx Hx'. apply list_elem_of_singleton in Hx'. subst. contradiction.
  - apply NoDup_singleton.
Qed.

End JsMapLemmas.

(** * The claims on the service registry *)

Section Registry.
Import Ledger X402Server Spec.
Context {W : Type} (E : Env W) (this : X402Server).
Implicit Types (serviceConfig : gmap string JsValue) (s : State W).


Lemma getSettlementRouter_run hookAddress (l : Ledger.State W) :
  ContractReader.getSettlementRouter E hookAddress l
  = (match fst (hook_settlementRouter E (world l) hookAddress) with
     | Ok routerAddress => Ok routerAddress
     | Throw e => Throw (readFailure hookAddress e)
     end, afterRead E hookAddress l).
Proof.
  unfold ContractReader.getSettlementRouter, tryCatch, bind, request, afterRead,
    readFailure.
  destruct (hook_settlementRouter E (world l) hookAddress) as [[r|e] w']; cbn [fst snd].
  - reflexivity.
  - destruct (instanceofError e); [|reflexivity].
    destruct (_ || _); reflexivity.
Qed.

Lemma addService_run serviceConfig s :
  addService E this serviceConfig s
  = match List.filter (missingField serviceConfig) requiredFields with
    | (_ :: _) as fields =>
        (Throw (ConfigurationError
                  ("Missing required service fields: " +:+ join ", " fields)
                  (Some fields)), s)
    | [] =>
        let hookAddress := prop serviceConfig "hookAddress" in
        let after := {| services := services s;
                        ledger := afterRead E hookAddress (ledger s) |} in
        match fst (hook_settlementRouter E (world (ledger s)) hookAddress) with
        | Ok routerAddress =>
            (Ok tt,
             {| services :=
                  map_set (prop serviceConfig "id")
                          (resolvedRecord (networkSettings this) routerAddress
                                          serviceConfig)
                          (services s);
                ledger := afterRead E hookAddress (ledger s) |})
        | Throw e => (Throw (readFailure hookAddress e), after)
        end
    end.
Proof.
  unfold addService, requiredFields, missingField, push_if.
  cbn [List.filter].
  destruct (truthy (prop serviceConfig "id"));
    destruct (truthy (prop serviceConfig "hookAddress"));
    destruct (truthy (prop serviceConfig "hookType"));
    destruct (truthy (prop serviceConfig "network"));
    cbn [negb app length Nat.ltb Nat.leb]; try reflexivity.
  unfold bind, liftLedger. rewrite getSettlementRouter_run.
  destruct (fst (hook_settlementRouter E (world (ledger s))
                   (prop serviceConfig "hookAddress"))); reflexivity.
Qed.

Lemma filter_missing_nonempty serviceConfig :
  (exists field, In field requiredFields /\ missingField serviceConfig field = true) ->
  List.filter (missingField serviceConfig) requiredFields <> [].
Proof.
  intros (f & Hin & Hm) Hnil.
  assert (Hf : In f (List.filter (missingField serviceConfig) requiredFields))
    by (apply filter_In; auto).
  rewrite Hnil in Hf. exact Hf.
Qed.

(** C5: when a required field is missing, [addService] throws a
    [ConfigurationError] whose list holds every missing required field and
    no other, and the state is the one before the call: no request was
    issued to the ledger. *)
Theorem C5_every_missing_field_named serviceConfig s :
  (exists field, In field requiredFields /\ missingField serviceConfig field = true) ->
  exists fields,
    addService E this serviceConfig s
    = (Throw (ConfigurationError
                ("Missing required service fields: " +:+ join ", " fields)
                (Some fields)), s)
    /\ fields = List.filter (missingField serviceConfig) requiredFields
    /\ forall field, In field requiredFields ->
         (In field fields <-> missingField serviceConfig field = true).
Proof.
  intros Hmiss. apply filter_missing_nonempty in Hmiss.
  exists (List.filter (missingField serviceConfig) requiredFields).
  split; [|split; [reflexivity|]].
  - rewrite addService_run.
    destruct (List.filter (missingField serviceConfig) requiredFields);
      [congruence|reflexivity].
  - intros field Hin. rewrite filter_In. tauto.
Qed.

Lemma addService_throw_store serviceConfig s t s' :
  addService E this serviceConfig s = (Throw t, s') -> services s' = services s.
Proof.
  rewrite addService_run.
  destruct (List.filter (missingField serviceConfig) requiredFields).
  - cbv zeta.
    destruct (fst (hook_settlementRouter E (world (ledger s))
                     (prop serviceConfig "hookAddress")));
      intros [= <- <-]; reflexivity.
  - intros [= <- <-]. reflexivity.
Qed.

Lemma complete_filter serviceConfig :
  List.filter (missingField serviceConfig) requiredFields
  = [] <-> complete serviceConfig = true.
Proof.
  unfold complete, requiredFields. cbn [List.filter forallb].
  destruct (missingField serviceConfig "id");
    destruct (missingField serviceConfig "hookAddress");
    destruct (missingField serviceConfig "hookType");
    destruct (missingField serviceConfig "network"); cbn; split; congruence.
Qed.

(** C6. An [addService] that throws leaves the map of services as it
    was. When the required fields are there and the read of the
    settlement router throws [e], [addService] throws: it throws
    [ContractNotFoundError] for the hook address exactly when [e] is an
    [Error] whose message holds [call revert] or [CALL_EXCEPTION], the
    [NetworkError] that quotes the message for any other [Error], and [e]
    itself when it is no [Error]. So the error of the library for an
    address without code, whose message holds neither text, comes out as
    a [NetworkError]. *)
Theorem C6_failed_read_leaves_registry serviceConfig s :
  (forall t s', addService E this serviceConfig s = (Throw t, s') ->
                services s' = services s
                /\ forall id, getService id s' = getService id s)
  /\ (forall e,
        complete serviceConfig = true ->
        fst (hook_settlementRouter E (world (ledger s))
               (prop serviceConfig "hookAddress")) = Throw e ->
        exists t s',
          addService E this serviceConfig s = (Throw t, s')
          /\ services s' = services s
          /\ (instanceofError e = true ->
              includes (chars (message_of e)) (chars "call revert")
              || includes (chars (message_of e)) (chars "CALL_EXCEPTION") = true ->
              t = ContractNotFoundError (prop serviceConfig "hookAddress"))
          /\ (instanceofError e = true ->
              includes (chars (message_of e)) (chars "call revert")
              || includes (chars (message_of e)) (chars "CALL_EXCEPTION") = false ->
              t = NetworkError ("Failed to read settlement router: " +:+ message_of e)
                    None None)
          /\ (instanceofError e = false -> t = e)).
Proof.
  split.
  - intros t s' H. apply addService_throw_store in H. split; [exact H|].
    intros id. unfold getService. rewrite H. reflexivity.
  - intros e Hfields He. apply complete_filter in Hfields.
    rewrite addService_run, Hfields. cbv zeta. rewrite He.
    eexists _, _. split; [reflexivity|]. split; [reflexivity|].
    unfold readFailure. split; [|split].
    + intros Hi Hm. rewrite Hi, Hm. reflexivity.
    + intros Hi Hm. rewrite Hi, Hm. reflexivity.
    + intros Hi. rewrite Hi. reflexivity.
Qed.

End Registry.

Section RegistrySequences.
Import Ledger X402Server Spec.
Context {W : Type} (E : Env W) (this : X402Server).
Implicit Types (serviceConfig : gmap string JsValue) (s : State W).

Lemma resolvedRecord_networkFields ns routerAddress serviceConfig :
  networkFields ns (resolvedRecord ns routerAddress serviceConfig).
Proof.
  unfold networkFields, resolvedRecord. split.
  - rewrite lookup_insert_ne by discriminate. apply lookup_insert_eq.
  - apply lookup_insert_eq.
Qed.

Lemma addService_Ok serviceConfig s s' :
  addService E this serviceConfig s = (Ok tt, s') ->
  exists routerAddress,
    fst (hook_settlementRouter E (world (ledger s))
           (prop serviceConfig "hookAddress")) = Ok routerAddress
    /\ services s'
       = map_set (prop serviceConfig "id")
                 (resolvedRecord (networkSettings this) routerAddress serviceConfig)
                 (services s).
Proof.
  rewrite addService_run.
  destruct (List.filter (missingField serviceConfig) requiredFields); [|discriminate].
  cbv zeta.
  destruct (fst (hook_settlementRouter E (world (ledger s))
                   (prop serviceConfig "hookAddress"))) as [r|e]; [|discriminate].
  intros [= <-]. exists r. split; reflexivity.
Qed.

Lemma addService_result serviceConfig s :
  (exists s', addService E this serviceConfig s = (Ok tt, s'))
  \/ (exists t s', addService E this serviceConfig s = (Throw t, s')).
Proof.
  destruct (addService E this serviceConfig s) as [[[]|t] s'].
  - left. exists s'. reflexivity.
  - right. exists t, s'. reflexivity.
Qed.


Lemma addService_invariant serviceConfig s :
  storeInvariant this s -> storeInvariant this (snd (addService E this serviceConfig s)).
Proof.
  intros [Hv Hk].
  destruct (addService_result serviceConfig s) as [(s' & H) | (t & s' & H)];
    rewrite H; cbn [snd].
  - destruct (addService_Ok _ _ _ H) as (r & _ & Hs). unfold storeInvariant.
    rewrite Hs. split.
    + apply map_values_set; [apply resolvedRecord_networkFields | exact Hv].
    + apply map_keys_NoDup_set, Hk.
  - apply addService_throw_store in H. unfold storeInvariant. rewrite H. split; assumption.
Qed.

Lemma addServices_invariant configs s :
  storeInvariant this s -> storeInvariant this (addServices E this configs s).
Proof.
  revert s. induction configs as [|c configs IH]; intros s Hs; [exact Hs|].
  cbn [addServices]. apply IH, addService_invariant, Hs.
Qed.

(** *** Listing order *)

Lemma elem_of_firstOccurrences x l : x ∈ firstOccurrences l <-> x ∈ l.
Proof.
  induction l as [|a l IH]; [reflexivity|]. cbn [firstOccurrences].
  rewrite !elem_of_cons, list_elem_of_filter, IH.
  destruct (decide (x = a)); tauto.
Qed.

Lemma firstOccurrences_snoc l x :
  firstOccurrences (l ++ [x])
  = if decide (x ∈ l) then firstOccurrences l else firstOccurrences l ++ [x].
Proof.
  induction l as [|a l IH].
  - cbn. destruct (decide (x ∈ [])) as [H|_]; [|reflexivity].
    apply elem_of_nil in H. contradiction.
  - cbn [app firstOccurrences]. rewrite IH.
    destruct (decide (x = a)) as [->|Hxa].
    + destruct (decide (a ∈ a :: l)) as [_|Hn].
      2:{ exfalso. apply Hn, elem_of_cons. left. reflexivity. }
      destruct (decide (a ∈ l)); [reflexivity|].
      rewrite filter_app, filter_cons_False, filter_nil, app_nil_r; [reflexivity|].
      intros H. apply H. reflexivity.
    + destruct (decide (x ∈ l)) as [Hin|Hin].
      * destruct (decide (x ∈ a :: l)) as [_|Hn]; [reflexivity|].
        exfalso. apply Hn, elem_of_cons. right. exact Hin.
      * destruct (decide (x ∈ a :: l)) as [Hc|_].
        { apply elem_of_cons in Hc as [?|?]; [congruence|contradiction]. }
        rewrite filter_app, filter_cons_True, filter_nil by exact Hxa. reflexivity.
Qed.

(** The world in which the next registration takes place. *)
Lemma addService_world serviceConfig s :
  world (ledger (snd (addService E this serviceConfig s)))
  = worldAfter E serviceConfig (world (ledger s)).
Proof.
  rewrite addService_run. unfold worldAfter.
  destruct (complete serviceConfig) eqn:Hc.
  - apply complete_filter in Hc. rewrite Hc. cbv zeta.
    destruct (fst (hook_settlementRouter E _ _)); reflexivity.
  - destruct (List.filter _ _) eqn:Hf; [|reflexivity].
    apply complete_filter in Hf. congruence.
Qed.

(** One call stores the entry of the registration, when there is one. *)
Lemma addService_registration serviceConfig s :
  services (snd (addService E this serviceConfig s))
  = match registration E (networkSettings this) serviceConfig (world (ledger s)) with
    | Some entry => map_set (fst entry) (snd entry) (services s)
    | None => services s
    end.
Proof.
  rewrite addService_run. unfold registration.
  destruct (complete serviceConfig) eqn:Hc.
  - apply complete_filter in Hc. rewrite Hc. cbv zeta.
    destruct (fst (hook_settlementRouter E _ _)); reflexivity.
  - destruct (List.filter _ _) eqn:Hf; [|reflexivity].
    apply complete_filter in Hf. congruence.
Qed.

(** A sequence of calls stores the accepted registrations one after the
    other. *)
Lemma addServices_accepted configs s :
  services (addServices E this configs s)
  = fold_left (fun m entry => map_set (fst entry) (snd entry) m)
              (accepted E (networkSettings this) configs (world (ledger s)))
              (services s).
Proof.
  revert s. induction configs as [|c configs IH]; intros s; [reflexivity|].
  cbn [addServices accepted]. rewrite IH, addService_world, addService_registration.
  destruct (registration E (networkSettings this) c (world (ledger s)));
    reflexivity.
Qed.

(** What is found under an id after the entries were stored: the last of
    them under that id, or what was there. *)
Lemma map_get_stored id entries (m : list (JsValue * gmap string JsValue)) :
  map_get id (fold_left (fun m entry => map_set (fst entry) (snd entry) m) entries m)
  = match lastWrite id entries with
    | Some record => Some record
    | None => map_get id m
    end.
Proof.
  revert m. induction entries as [|[k r] entries IH]; intros m; [reflexivity|].
  cbn [fold_left lastWrite fst snd]. rewrite IH.
  destruct (lastWrite id entries); [reflexivity|].
  destruct (decide (k = id)) as [->|Hne].
  - apply map_get_set_eq.
  - apply map_get_set_ne. congruence.
Qed.

Lemma map_keys_stored entries (m : list (JsValue * gmap string JsValue)) history :
  map_keys m = firstOccurrences history ->
  map_keys (fold_left (fun m entry => map_set (fst entry) (snd entry) m) entries m)
  = firstOccurrences (history ++ map fst entries).
Proof.
  revert m history. induction entries as [|[k r] entries IH]; intros m history Hm.
  - cbn. rewrite app_nil_r. exact Hm.
  - cbn [fold_left map fst snd].
    replace (history ++ k :: map fst entries)
      with ((history ++ [k]) ++ map fst entries)
      by (rewrite <- app_assoc; reflexivity).
    apply IH. rewrite map_keys_set, firstOccurrences_snoc, Hm.
    destruct (decide (k ∈ firstOccurrences history)) as [Hin|Hin];
      destruct (decide (k ∈ history)) as [Hin'|Hin']; try reflexivity.
    + apply (proj1 (elem_of_firstOccurrences _ _)) in Hin. contradiction.
    + apply (proj2 (elem_of_firstOccurrences _ _)) in Hin'. contradiction.
Qed.

Lemma omap_ext_in {A B} (f g : A -> option B) (l : list A) :
  (forall x, x ∈ l -> f x = g x) -> omap f l = omap g l.
Proof.
  induction l as [|x l IH]; intros H; [reflexivity|].
  change (omap f (x :: l)) with (match f x with
                                 | Some y => y :: omap f l
                                 | None => omap f l
                                 end).
  change (omap g (x :: l)) with (match g x with
                                 | Some y => y :: omap g l
                                 | None => omap g l
                                 end).
  rewrite (H x) by (apply elem_of_cons; left; reflexivity).
  rewrite IH; [reflexivity|]. intros y Hy. apply H, elem_of_cons. right. exact Hy.
Qed.

(** The values of a map without repeated keys are what is found under
    its keys. *)
Lemma map_values_by_key (m : list (JsValue * gmap string JsValue)) :
  NoDup (map_keys m) ->
  map_values m = omap (fun id => map_get id m) (map_keys m).
Proof.
  induction m as [|[k v] m IH]; [reflexivity|]. intros Hn.
  change (map_keys ((k, v) :: m)) with (k :: map_keys m) in *.
  change (map_values ((k, v) :: m)) with (v :: map_values m).
  apply NoDup_cons in Hn as [Hk Hn].
  change (omap (fun id => map_get id ((k, v) :: m)) (k :: map_keys m))
    with (match map_get k ((k, v) :: m) with
          | Some y => y :: omap (fun id => map_get id ((k, v) :: m)) (map_keys m)
          | None => omap (fun id => map_get id ((k, v) :: m)) (map_keys m)
          end).
  cbn [map_get]. rewrite decide_True by reflexivity. f_equal.
  rewrite IH by exact Hn. apply omap_ext_in. intros id Hid.
  cbn [map_get]. rewrite decide_False; [reflexivity|]. intros ->. contradiction.
Qed.

(** The fields of the record that a registration stores. *)
Lemma resolvedRecord_fields ns routerAddress serviceConfig :
  let record := resolvedRecord ns routerAddress serviceConfig in
  record !! "usdcAddress" = Some (JString (NetworkConfig.usdcAddress ns))
  /\ record !! "chainId" = Some (JNumber (NetworkConfig.chainId ns))
  /\ record !! "settlementRouter" = Some (JString routerAddress)
  /\ forall field, field <> "usdcAddress" -> field <> "chainId" ->
                   field <> "settlementRouter" ->
                   record !! field = serviceConfig !! field.
Proof.
  cbv zeta. unfold resolvedRecord. repeat split.
  - rewrite lookup_insert_ne by discriminate. apply lookup_insert_eq.
  - apply lookup_insert_eq.
  - rewrite !lookup_insert_ne by discriminate. apply lookup_insert_eq.
  - intros field H1 H2 H3. rewrite !lookup_insert_ne by congruence. reflexivity.
Qed.

(** C7. On a new server, after any sequence of [addService] calls: what
    is found under an id is the record of the last accepted registration
    under that id, and nothing when there was none (last write wins);
    every stored record has [usdcAddress] and [chainId] equal to those
    of the network settings of the server, and no id is stored twice. One
    call with a complete configuration whose read returns a router is
    accepted whatever the registry holds, also under an id that is
    present: it returns, stores its record under the id and leaves the
    other ids as they were. The record has the network fields of the
    server and the router that was read, whatever the configuration
    carried for them, and every other field from the configuration: no
    field of a record it replaces is kept. *)
Theorem C7_network_fields_and_last_write configs s :
  services s = [] ->
  let final := addServices E this configs s in
  let entries := accepted E (networkSettings this) configs (world (ledger s)) in
  (forall id, getService id final = lastWrite id entries)
  /\ Forall (networkFields (networkSettings this)) (listServices final)
  /\ NoDup (map_keys (services final))
  /\ (forall serviceConfig s1 routerAddress,
        complete serviceConfig = true ->
        fst (hook_settlementRouter E (world (ledger s1))
               (prop serviceConfig "hookAddress")) = Ok routerAddress ->
        exists s2,
          addService E this serviceConfig s1 = (Ok tt, s2)
          /\ getService (prop serviceConfig "id") s2
             = Some (resolvedRecord (networkSettings this) routerAddress serviceConfig)
          /\ forall id, id <> prop serviceConfig "id" ->
                        getService id s2 = getService id s1)
  /\ (forall serviceConfig routerAddress,
        let record :=
          resolvedRecord (networkSettings this) routerAddress serviceConfig in
        record !! "usdcAddress"
        = Some (JString (NetworkConfig.usdcAddress (networkSettings this)))
        /\ record !! "chainId"
           = Some (JNumber (NetworkConfig.chainId (networkSettings this)))
        /\ record !! "settlementRouter" = Some (JString routerAddress)
        /\ forall field, field <> "usdcAddress" -> field <> "chainId" ->
                         field <> "settlementRouter" ->
                         record !! field = serviceConfig !! field).
Proof.
  intros Hempty final entries.
  assert (Hinv : storeInvariant this final).
  { apply addServices_invariant. unfold storeInvariant. rewrite Hempty.
    split; constructor. }
  destruct Hinv as [Hv Hk]. split; [|split; [exact Hv|split; [exact Hk|split]]].
  - intros id. unfold getService, final. rewrite addServices_accepted, map_get_stored.
    fold entries. rewrite Hempty. destruct (lastWrite id entries); reflexivity.
  - intros serviceConfig s1 routerAddress Hc Hr.
    apply complete_filter in Hc. rewrite addService_run, Hc. cbv zeta. rewrite Hr.
    eexists. split; [reflexivity|]. unfold getService. cbn [services]. split.
    + apply map_get_set_eq.
    + intros id Hid. apply map_get_set_ne. exact Hid.
  - intros serviceConfig routerAddress. apply resolvedRecord_fields.
Qed.

(** [network_of_string] names a network exactly for the strings that
    [isValidNetwork] accepts. *)
Lemma isValidNetwork_network_of_string (networkName : string) :
  NetworkConfig.isValidNetwork networkName = true
  <-> is_Some (NetworkConfig.network_of_string networkName).
Proof.
  unfold NetworkConfig.isValidNetwork, NetworkConfig.network_of_string.
  destruct (String.eqb networkName "cronos").
  - split; [eauto | reflexivity].
  - destruct (String.eqb networkName "cronos-testnet").
    + split; [eauto | reflexivity].
    + split; [discriminate | intros [? ?]; discriminate].
Qed.

(** The network settings of a constructed server are those of the table
    for its network; a custom RPC URL changes [rpcUrl] only. *)
Lemma createX402Server_settings (serverConfig : X402ServerConfig) (server : X402Server) :
  createX402Server serverConfig = Ok server ->
  exists n,
    NetworkConfig.network_of_string (default "" (network serverConfig)) = Some n
    /\ NetworkConfig.chainId (networkSettings server)
       = NetworkConfig.chainId (NetworkConfig.NETWORK_CONFIGS n)
    /\ NetworkConfig.usdcAddress (networkSettings server)
       = NetworkConfig.usdcAddress (NetworkConfig.NETWORK_CONFIGS n).
Proof.
  unfold createX402Server, validateConfig.
  destruct (0 <? length _)%nat; [discriminate|].
  destruct (NetworkConfig.network_of_string _) as [n|]; [|discriminate].
  cbn [bindR]. intros [= <-]. exists n. split; [reflexivity|].
  cbn [networkSettings]. unfold NetworkConfig.getConfig, NetworkConfig.getDefaultConfig.
  destruct (rpcUrl serverConfig) as [u|]; [|split; reflexivity].
  destruct (negb (String.eqb u "")); split; reflexivity.
Qed.

Example sample_server_constructed :
  createX402Server Sample.serverConfig = Ok Sample.server.
Proof. reflexivity. Qed.

Lemma addServices_keys configs s history :
  map_keys (services s) = firstOccurrences history ->
  map_keys (services (addServices E this configs s))
  = firstOccurrences (history ++ registeredIds E this configs s).
Proof.
  revert s history. induction configs as [|c configs IH]; intros s history Hs.
  - cbn. rewrite app_nil_r. exact Hs.
  - cbn [addServices registeredIds].
    destruct (addService_result c s) as [(s' & H) | (t & s' & H)]; rewrite H; cbn [snd].
    + destruct (addService_Ok _ _ _ H) as (r & _ & Hstore).
      replace (history ++ prop c "id" :: registeredIds E this configs s')
        with ((history ++ [prop c "id"]) ++ registeredIds E this configs s')
        by (rewrite <- app_assoc; reflexivity).
      apply IH. rewrite Hstore, map_keys_set, firstOccurrences_snoc, Hs.
      destruct (decide (prop c "id" ∈ firstOccurrences history)) as [Hin|Hin];
        destruct (decide (prop c "id" ∈ history)) as [Hin'|Hin']; try reflexivity.
      * apply (proj1 (elem_of_firstOccurrences _ _)) in Hin. contradiction.
      * apply (proj2 (elem_of_firstOccurrences _ _)) in Hin'. contradiction.
    + apply IH. apply addService_throw_store in H. rewrite H. exact Hs.
Qed.

(** C10. On a new server, after any sequence of [addService] calls, the
    listing holds one record for each id with an accepted registration,
    in the order in which the ids were first registered, and the record
    of an id is the one of its last accepted registration. A call that
    is accepted under an id that is present returns and puts its record
    where the record of that id stood, so the order of the listing does
    not change; under an id that is not present it returns and puts its
    record at the end. *)
Theorem C10_listing_in_first_registration_order configs s :
  services s = [] ->
  let final := addServices E this configs s in
  let entries := accepted E (networkSettings this) configs (world (ledger s)) in
  listServices final
  = omap (fun id => lastWrite id entries) (firstOccurrences (map fst entries))
  /\ map_keys (services final) = firstOccurrences (map fst entries)
  /\ (forall serviceConfig s1 routerAddress,
        complete serviceConfig = true ->
        fst (hook_settlementRouter E (world (ledger s1))
               (prop serviceConfig "hookAddress")) = Ok routerAddress ->
        prop serviceConfig "id" ∈ map_keys (services s1) ->
        exists s2 before old after,
          addService E this serviceConfig s1 = (Ok tt, s2)
          /\ services s1 = before ++ (prop serviceConfig "id", old) :: after
          /\ listServices s2
             = map_values before
               ++ resolvedRecord (networkSettings this) routerAddress serviceConfig
                  :: map_values after
          /\ map_keys (services s2) = map_keys (services s1))
  /\ (forall serviceConfig s1 routerAddress,
        complete serviceConfig = true ->
        fst (hook_settlementRouter E (world (ledger s1))
               (prop serviceConfig "hookAddress")) = Ok routerAddress ->
        prop serviceConfig "id" ∉ map_keys (services s1) ->
        exists s2,
          addService E this serviceConfig s1 = (Ok tt, s2)
          /\ listServices s2
             = listServices s1
               ++ [resolvedRecord (networkSettings this) routerAddress serviceConfig]).
Proof.
  intros Hempty final entries.
  assert (Hkeys : map_keys (services final) = firstOccurrences (map fst entries)).
  { unfold final. rewrite addServices_accepted. fold entries.
    apply (map_keys_stored entries (services s) []). rewrite Hempty. reflexivity. }
  assert (Hn : NoDup (map_keys (services final))).
  { apply (addServices_invariant configs s). unfold storeInvariant. rewrite Hempty.
    split; constructor. }
  split; [|split; [exact Hkeys|split]].
  - unfold listServices. rewrite (map_values_by_key _ Hn), Hkeys.
    apply omap_ext_in. intros id _.
    unfold final. rewrite addServices_accepted, map_get_stored. fold entries.
    rewrite Hempty. destruct (lastWrite id entries); reflexivity.
  - intros serviceConfig s1 routerAddress Hc Hr Hin.
    apply complete_filter in Hc.
    destruct (map_set_in_place (prop serviceConfig "id")
                (resolvedRecord (networkSettings this) routerAddress serviceConfig)
                (services s1) Hin) as (before & old & after & H1 & _ & H2).
    eexists _, before, old, after.
    rewrite addService_run, Hc. cbv zeta. rewrite Hr.
    split; [reflexivity|]. split; [exact H1|]. cbn [services]. split.
    + unfold listServices, map_values. cbn [services]. rewrite H2, map_app. reflexivity.
    + rewrite map_keys_set.
      destruct (decide (prop serviceConfig "id" ∈ map_keys (services s1)));
        [reflexivity|contradiction].
  - intros serviceConfig s1 routerAddress Hc Hr Hin.
    apply complete_filter in Hc.
    eexists. rewrite addService_run, Hc. cbv zeta. rewrite Hr.
    split; [reflexivity|]. unfold listServices, map_values. cbn [services].
    generalize (resolvedRecord (networkSettings this) routerAddress serviceConfig).
    revert Hin. generalize (prop serviceConfig "id"). clear.
    intros k Hin v. induction (services s1) as [|[k' v'] m IH]; [reflexivity|].
    cbn [map_keys map fst] in Hin. apply not_elem_of_cons in Hin as [Hne Hin].
    cbn [map_set]. rewrite decide_False by congruence. cbn [map snd app].
    f_equal. apply IH. exact Hin.
Qed.

End RegistrySequences.

(** * The claims on the authorization preparer *)

Section Preparer.
Import Ledger X402Client.

(** C8, as amended: the prepared authorization has [validAfter] 0 and
    [validBefore] equal to the Unix time read from the clock plus
    [validitySeconds], where an absent or zero [validitySeconds] counts as
    3600; the fee is parsed from [facilitatorFee], where an absent or empty
    [facilitatorFee] counts as the text 0. *)
Theorem C8_time_window_and_defaults {W} (E : Env W) (txParams : TransactionParams)
        (s s' : Ledger.State W) (prepared : PreparedTransaction) :
  prepareTransaction E txParams s = (Ok prepared, s') ->
  p_validAfter (params prepared) = 0
  /\ p_validBefore (params prepared)
     = fst (date_now E (snd (randomBytes E (world s) 32))) / 1000
       + match validitySeconds txParams with
         | Some v => if v =? 0 then 3600 else v
         | None => 3600
         end
  /\ Ethers.parseUnits
       match facilitatorFee txParams with
       | Some f => if String.eqb f "" then "0" else f
       | None => "0"
       end 6
     = Ok (p_facilitatorFee (params prepared))
  /\ m_validAfter (message (typedData prepared)) = "0"
  /\ m_validBefore (message (typedData prepared))
     = pretty (p_validBefore (params prepared)).
Proof.
  unfold prepareTransaction, bind, liftR, ambient, ret.
  destruct (HookDataCodec.encode _ _) as [hd|]; [|discriminate].
  destruct (randomBytes E (world s) 32) as [random w1] eqn:Hr. cbn [world trace fst snd].
  destruct (date_now E w1) as [now w2] eqn:Hn. cbn [world trace].
  destruct (Ethers.parseUnits (paymentAmount txParams) 6) as [value|]; [|discriminate].
  unfold orString, orNumber.
  destruct (Ethers.parseUnits _ 6) as [fee|]; [|discriminate].
  destruct (ContractReader.calculateCommitment _ _ _ _) as [[nonce|] l1]; [|discriminate].
  destruct (ContractReader.getTokenInfo _ _ _) as [[info|] l2]; [|discriminate].
  intros [= <- _]. cbn [params p_validAfter p_validBefore p_facilitatorFee typedData
                         message m_validAfter m_validBefore].
  repeat split; reflexivity.
Qed.

End Preparer.

Section Amounts.
Import Ethers Spec.

Lemma takeDigits_dropDigits l : takeDigits l ++ dropDigits l = l.
Proof.
  induction l as [|c l IH]; [reflexivity|]. cbn [takeDigits dropDigits].
  destruct (isDigit c); [cbn; rewrite IH|]; reflexivity.
Qed.

Lemma takeDigits_digits l : forallb isDigit (takeDigits l) = true.
Proof.
  induction l as [|c l IH]; [reflexivity|]. cbn [takeDigits].
  destruct (isDigit c) eqn:Hc; [cbn; rewrite Hc, IH|]; reflexivity.
Qed.

(** A run of digits followed by something that does not start with a
    digit is split where it ends. *)
Lemma digits_prefix w rest :
  forallb isDigit w = true ->
  match rest with [] => True | c :: _ => isDigit c = false end ->
  takeDigits (w ++ rest) = w /\ dropDigits (w ++ rest) = rest.
Proof.
  intros Hw Hrest. induction w as [|c w IH].
  - cbn [app]. destruct rest as [|c rest]; [split; reflexivity|].
    cbn [takeDigits dropDigits]. rewrite Hrest. split; reflexivity.
  - cbn [forallb] in Hw. apply andb_true_iff in Hw as [Hc Hw].
    destruct (IH Hw) as [IH1 IH2]. cbn [app takeDigits dropDigits].
    rewrite Hc, IH1, IH2. split; reflexivity.
Qed.

Lemma matchDecimal_sound l neg whole frac :
  matchDecimal l = Some (neg, whole, frac) ->
  exists point,
    l = (if neg then chars "-" else []) ++ whole ++ point ++ frac
    /\ (point = [] \/ point = chars ".")
    /\ forallb isDigit whole = true
    /\ forallb isDigit frac = true.
Proof.
  unfold matchDecimal.
  set (sb := match l with
             | c :: rest => if Ascii.eqb c "-"%char then (true, rest) else (false, l)
             | [] => (false, l)
             end).
  assert (Hsb : l = (if fst sb then chars "-" else []) ++ snd sb).
  { unfold sb. destruct l as [|c rest]; [reflexivity|].
    destruct (Ascii.eqb_spec c "-"%char) as [->|]; reflexivity. }
  destruct sb as [neg0 body]. cbn [fst snd] in Hsb.
  set (after := dropDigits body).
  set (fr := match after with
             | c :: rest => if Ascii.eqb c "."%char then rest else after
             | [] => after
             end).
  assert (Hfr : exists point, after = point ++ fr /\ (point = [] \/ point = chars ".")).
  { unfold fr. destruct after as [|c rest]; [exists []; auto|].
    destruct (Ascii.eqb_spec c "."%char) as [->|].
    - exists (chars "."). auto.
    - exists []. auto. }
  destruct (forallb isDigit fr) eqn:Hd; [|discriminate].
  intros [= <- <- <-]. destruct Hfr as (point & Hafter & Hpoint).
  exists point. split; [|split; [exact Hpoint|split; [apply takeDigits_digits|exact Hd]]].
  rewrite Hsb at 1. f_equal. rewrite <- Hafter. unfold after.
  symmetry. apply takeDigits_dropDigits.
Qed.

Lemma matchDecimal_point sign whole frac :
  sign = [] \/ sign = chars "-" ->
  forallb isDigit whole = true -> forallb isDigit frac = true ->
  matchDecimal (sign ++ whole ++ chars "." ++ frac)
  = Some (bool_decide (sign = chars "-"), whole, frac).
Proof.
  intros Hsign Hw Hf.
  assert (Hsplit : takeDigits (whole ++ chars "." ++ frac) = whole
                   /\ dropDigits (whole ++ chars "." ++ frac) = chars "." ++ frac).
  { apply digits_prefix; [exact Hw|reflexivity]. }
  destruct Hsplit as [H1 H2].
  assert (Hhead : match whole ++ chars "." ++ frac with
                  | c :: rest => Ascii.eqb c "-"%char = false
                  | [] => True
                  end).
  { destruct whole as [|c w]; [reflexivity|]. cbn [app forallb] in *.
    apply andb_true_iff in Hw as [Hc _]. revert Hc. clear.
    destruct c as [[] [] [] [] [] [] [] []]; vm_compute; congruence. }
  assert (Hstrip : forall l : list ascii,
            match l with
            | c :: rest => Ascii.eqb c "-"%char = false
            | [] => True
            end ->
            match l with
            | c :: rest => if Ascii.eqb c "-"%char then (true, rest) else (false, l)
            | [] => (false, l)
            end = (false, l)).
  { intros [|c rest] H; [reflexivity|]. rewrite H. reflexivity. }
  unfold matchDecimal. destruct Hsign as [-> | ->].
  - cbn [app]. rewrite (Hstrip _ Hhead). cbv beta iota zeta. rewrite H1, H2.
    cbn [chars list_ascii_of_string app Ascii.eqb Bool.eqb].
    rewrite Hf. reflexivity.
  - change (chars "-" ++ whole ++ chars "." ++ frac)
      with ("-"%char :: whole ++ chars "." ++ frac).
    cbn [Ascii.eqb Bool.eqb]. cbv beta iota zeta. rewrite H1, H2.
    cbn [chars list_ascii_of_string app Ascii.eqb Bool.eqb]. rewrite Hf. reflexivity.
Qed.

Lemma padDecimal_long fuel decimals d :
  (decimals <= length d)%nat -> padDecimal fuel decimals d = d.
Proof.
  intros H. destruct fuel; [reflexivity|]. cbn [padDecimal].
  destruct (Nat.ltb_spec (length d) decimals); [lia|reflexivity].
Qed.

End Amounts.

Section AmountValues.
Import Ethers Spec.

Lemma matchDecimal_plain sign whole :
  sign = [] \/ sign = chars "-" ->
  forallb isDigit whole = true ->
  matchDecimal (sign ++ whole) = Some (bool_decide (sign = chars "-"), whole, []).
Proof.
  intros Hsign Hw.
  destruct (digits_prefix whole [] Hw I) as [H1 H2]. rewrite app_nil_r in H1, H2.
  assert (Hhead : match whole with
                  | c :: rest => Ascii.eqb c "-"%char = false
                  | [] => True
                  end).
  { destruct whole as [|c w]; [reflexivity|]. cbn [forallb] in Hw.
    apply andb_true_iff in Hw as [Hc _]. revert Hc. clear.
    destruct c as [[] [] [] [] [] [] [] []]; vm_compute; congruence. }
  unfold matchDecimal. destruct Hsign as [-> | ->].
  - cbn [app]. destruct whole as [|c w].
    + reflexivity.
    + rewrite Hhead. cbv beta iota zeta. rewrite H1, H2. reflexivity.
  - change (chars "-" ++ whole) with ("-"%char :: whole).
    cbn [Ascii.eqb Bool.eqb]. cbv beta iota zeta. rewrite H1, H2. reflexivity.
Qed.

Lemma repeat_zero_chars : chars "0000" = repeat "0"%char 4.
Proof. reflexivity. Qed.

Lemma padDecimal_zeros fuel decimals d :
  exists n,
    padDecimal fuel decimals d = d ++ repeat "0"%char n
    /\ ((decimals <= length d + 4 * fuel)%nat -> (decimals <= length d + n)%nat).
Proof.
  revert d. induction fuel as [|fuel IH]; intros d.
  - exists O. rewrite app_nil_r. split; [reflexivity|lia].
  - cbn [padDecimal]. destruct (Nat.ltb_spec (length d) decimals) as [Hlt|Hge].
    + destruct (IH (d ++ chars "0000")) as (n & Hn & Hbound).
      exists (4 + n)%nat. rewrite Hn, repeat_zero_chars, <- app_assoc, <- repeat_app.
      split; [reflexivity|]. intros Hfuel.
      rewrite length_app in Hbound.
      change (length (chars "0000")) with 4%nat in Hbound. lia.
    + exists O. rewrite app_nil_r. split; [reflexivity|lia].
Qed.

Lemma bigIntOfDigits_app a b :
  bigIntOfDigits (a ++ b)
  = bigIntOfDigits a * 10 ^ Z.of_nat (length b) + bigIntOfDigits b.
Proof.
  unfold bigIntOfDigits. rewrite map_app, fromBase_app, length_map. reflexivity.
Qed.

Lemma bigIntOfDigits_zeros n : bigIntOfDigits (repeat "0"%char n) = 0.
Proof.
  induction n as [|n IH]; [reflexivity|].
  change (repeat "0"%char (S n)) with ([("0"%char)] ++ repeat "0"%char n).
  rewrite bigIntOfDigits_app, IH.
  change (bigIntOfDigits [("0"%char)]) with 0. lia.
Qed.

Lemma forallb_zero_repeat n : forallb (Ascii.eqb "0"%char) (repeat "0"%char n) = true.
Proof. induction n as [|n IH]; [reflexivity|]. cbn. exact IH. Qed.


Lemma bigIntOfDigits_nonneg l : forallb isDigit l = true -> 0 <= bigIntOfDigits l.
Proof.
  intros Hl. unfold bigIntOfDigits. apply (fromBase_bound 10); [lia|].
  induction l as [|c l IH]; [constructor|]. cbn [forallb] in Hl.
  apply andb_true_iff in Hl as [Hc Hl]. constructor; [|apply IH, Hl].
  revert Hc. clear. destruct c as [[] [] [] [] [] [] [] []]; vm_compute;
    intros; try discriminate; split; congruence.
Qed.

Lemma fixedPoint6_nonneg whole frac :
  forallb isDigit whole = true -> forallb isDigit frac = true ->
  0 <= fixedPoint6 whole frac.
Proof.
  intros Hw Hf. unfold fixedPoint6.
  pose proof (bigIntOfDigits_nonneg whole Hw).
  pose proof (bigIntOfDigits_nonneg frac Hf).
  assert (0 <= 10 ^ (6 - Z.of_nat (length frac))) by (apply Z.pow_nonneg; lia).
  nia.
Qed.

(** The parse of a matched text with at most six fractional digits before
    its trailing zeros, up to the test of the width. *)
Lemma parseUnits_matched_width s neg whole frac zeros :
  matchDecimal (chars s) = Some (neg, whole, frac ++ repeat "0"%char zeros) ->
  (0 < length whole + length (frac ++ repeat "0"%char zeros))%nat ->
  (length frac <= 6)%nat ->
  parseUnits s 6
  = (if (- 2 ^ 511 <=? (if neg then - fixedPoint6 whole frac else fixedPoint6 whole frac))
        && ((if neg then - fixedPoint6 whole frac else fixedPoint6 whole frac) <? 2 ^ 511)
     then Ok (if neg then - fixedPoint6 whole frac else fixedPoint6 whole frac)
     else Throw (EthersError "NUMERIC_FAULT" "overflow")).
Proof.
  intros Hm Hpos Hlen. unfold parseUnits. rewrite Hm.
  destruct (Nat.ltb_spec 0 (length whole + length (frac ++ repeat "0"%char zeros)));
    [|lia].
  destruct (padDecimal_zeros 6 6 (frac ++ repeat "0"%char zeros)) as (n & Hn & Hb).
  rewrite Hn, <- app_assoc, <- repeat_app.
  rewrite length_app, repeat_length in Hb.
  set (k := (zeros + n)%nat). assert (Hk : (6 <= length frac + k)%nat) by lia.
  clearbody k. clear Hn Hb n.
  assert (Hsplit : repeat "0"%char k
                   = repeat "0"%char (6 - length frac)
                     ++ repeat "0"%char (k - (6 - length frac))).
  { rewrite <- repeat_app. f_equal. lia. }
  rewrite Hsplit, app_assoc.
  assert (Hl6 : length (frac ++ repeat "0"%char (6 - length frac)) = 6%nat).
  { rewrite length_app, repeat_length. lia. }
  rewrite (drop_app_length' _ _ 6) by (symmetry; exact Hl6).
  rewrite (take_app_length' _ _ 6) by (symmetry; exact Hl6).
  rewrite forallb_zero_repeat.
  set (whole' := match whole with [] => chars "0" | _ :: _ => whole end).
  assert (Hwhole : bigIntOfDigits whole' = bigIntOfDigits whole).
  { unfold whole'. destruct whole; reflexivity. }
  assert (Hval : bigIntOfDigits (whole' ++ frac ++ repeat "0"%char (6 - length frac))
                 = fixedPoint6 whole frac).
  { rewrite bigIntOfDigits_app, Hl6, Hwhole, bigIntOfDigits_app, bigIntOfDigits_zeros,
      repeat_length. unfold fixedPoint6.
    replace (Z.of_nat (6 - length frac)) with (6 - Z.of_nat (length frac)) by lia.
    change (Z.of_nat 6) with 6. lia. }
  rewrite Hval. reflexivity.
Qed.

Lemma parseUnits_matched s neg whole frac zeros :
  matchDecimal (chars s) = Some (neg, whole, frac ++ repeat "0"%char zeros) ->
  (0 < length whole + length (frac ++ repeat "0"%char zeros))%nat ->
  (length frac <= 6)%nat ->
  fixedPoint6 whole frac < 2 ^ 511 ->
  forallb isDigit whole = true -> forallb isDigit frac = true ->
  parseUnits s 6
  = Ok (if neg then - fixedPoint6 whole frac else fixedPoint6 whole frac).
Proof.
  intros Hm Hpos Hlen Hmax Hw Hf.
  rewrite (parseUnits_matched_width s neg whole frac zeros Hm Hpos Hlen).
  pose proof (fixedPoint6_nonneg whole frac Hw Hf) as Hnonneg.
  destruct neg.
  - destruct (Z.leb_spec (- 2 ^ 511) (- fixedPoint6 whole frac)); [|lia].
    destruct (Z.ltb_spec (- fixedPoint6 whole frac) (2 ^ 511)); [reflexivity|lia].
  - destruct (Z.leb_spec (- 2 ^ 511) (fixedPoint6 whole frac)); [|lia].
    destruct (Z.ltb_spec (fixedPoint6 whole frac) (2 ^ 511)); [reflexivity|lia].
Qed.

Lemma parseUnits_matched_overflow s neg whole frac zeros :
  matchDecimal (chars s) = Some (neg, whole, frac ++ repeat "0"%char zeros) ->
  (0 < length whole + length (frac ++ repeat "0"%char zeros))%nat ->
  (length frac <= 6)%nat ->
  2 ^ 511 < fixedPoint6 whole frac ->
  parseUnits s 6 = Throw (EthersError "NUMERIC_FAULT" "overflow").
Proof.
  intros Hm Hpos Hlen Hmax.
  rewrite (parseUnits_matched_width s neg whole frac zeros Hm Hpos Hlen).
  destruct neg.
  - destruct (Z.leb_spec (- 2 ^ 511) (- fixedPoint6 whole frac)); [lia|reflexivity].
  - destruct (Z.ltb_spec (fixedPoint6 whole frac) (2 ^ 511)); [lia|].
    rewrite andb_false_r. reflexivity.
Qed.

(** The match of a decimal text, with or without a point. *)
Lemma matchDecimal_text sign whole point frac :
  sign = [] \/ sign = chars "-" ->
  point = chars "." \/ (point = [] /\ frac = []) ->
  forallb isDigit whole = true -> forallb isDigit frac = true ->
  matchDecimal (sign ++ whole ++ point ++ frac)
  = Some (bool_decide (sign = chars "-"), whole, frac).
Proof.
  intros Hsign [-> | [-> ->]] Hw Hf.
  - apply matchDecimal_point; assumption.
  - cbn [app]. rewrite app_nil_r. apply matchDecimal_plain; assumption.
Qed.

End AmountValues.

Section AmountClaims.
Import Ethers Spec.

Lemma forallb_zero_false l c :
  c ∈ l -> c <> "0"%char -> forallb (Ascii.eqb "0"%char) l = false.
Proof.
  intros Hin Hc. destruct (forallb (Ascii.eqb "0"%char) l) eqn:H; [|reflexivity].
  rewrite forallb_forall in H. apply list_elem_of_In in Hin.
  specialize (H c Hin). apply Ascii.eqb_eq in H. congruence.
Qed.

Lemma parseUnits_excess sign whole frac :
  sign = [] \/ sign = chars "-" ->
  forallb isDigit whole = true -> forallb isDigit frac = true ->
  (exists c, c ∈ skipn 6 frac /\ c <> "0"%char) ->
  parseUnits (str (sign ++ whole ++ chars "." ++ frac)) 6
  = Throw (EthersError "NUMERIC_FAULT" "too many decimals for format").
Proof.
  intros Hsign Hw Hf (c & Hin & Hc). unfold parseUnits.
  rewrite chars_str, matchDecimal_point by assumption.
  assert (Hlen : (6 < length frac)%nat).
  { destruct (Nat.ltb_spec 6 (length frac)); [assumption|].
    rewrite drop_ge in Hin by lia. apply elem_of_nil in Hin. contradiction. }
  destruct (Nat.ltb_spec 0 (length whole + length frac)); [|lia].
  rewrite padDecimal_long by lia.
  rewrite (forallb_zero_false _ c Hin Hc). reflexivity.
Qed.

Lemma parseUnits_not_text s :
  ~ DecimalText (chars s) ->
  parseUnits s 6 = Throw (EthersError "INVALID_ARGUMENT" "invalid FixedNumber string value").
Proof.
  intros Hs. unfold parseUnits.
  destruct (matchDecimal (chars s)) as [[[neg m2] m3]|] eqn:Hm; [|reflexivity].
  destruct (Nat.ltb_spec 0 (length m2 + length m3)) as [Hpos|]; [|reflexivity].
  exfalso. apply Hs.
  destruct (matchDecimal_sound _ _ _ _ Hm) as (point & Hl & Hp & H2 & H3).
  exists (if neg then chars "-" else []), m2, point, m3.
  split; [exact Hl|]. split; [destruct neg; auto|]. auto.
Qed.

(** The parse of a decimal text with at most six fractional digits
    before its trailing zeros. *)
Lemma parseUnits_text sign whole point frac zeros :
  sign = [] \/ sign = chars "-" ->
  point = chars "." \/ (point = [] /\ frac = [] /\ zeros = O) ->
  forallb isDigit whole = true -> forallb isDigit frac = true ->
  (length frac <= 6)%nat ->
  (0 < length whole + length frac + zeros)%nat ->
  (fixedPoint6 whole frac < 2 ^ 511 ->
   parseUnits (str (sign ++ whole ++ point ++ frac ++ repeat "0"%char zeros)) 6
   = Ok (if bool_decide (sign = chars "-")
         then - fixedPoint6 whole frac else fixedPoint6 whole frac))
  /\ (2 ^ 511 < fixedPoint6 whole frac ->
      parseUnits (str (sign ++ whole ++ point ++ frac ++ repeat "0"%char zeros)) 6
      = Throw (EthersError "NUMERIC_FAULT" "overflow")).
Proof.
  intros Hsign Hpoint Hw Hf Hlen Hpos.
  assert (Hz : forallb isDigit (frac ++ repeat "0"%char zeros) = true).
  { rewrite forallb_app, Hf. cbn [andb]. clear.
    induction zeros as [|n IH]; [reflexivity|exact IH]. }
  assert (Hm : matchDecimal
                 (chars (str (sign ++ whole ++ point ++ frac ++ repeat "0"%char zeros)))
               = Some (bool_decide (sign = chars "-"), whole,
                       frac ++ repeat "0"%char zeros)).
  { rewrite chars_str. apply matchDecimal_text; try assumption.
    destruct Hpoint as [-> | (-> & -> & ->)]; [left; reflexivity|].
    right. split; reflexivity. }
  assert (Hpos' : (0 < length whole + length (frac ++ repeat "0"%char zeros))%nat).
  { rewrite length_app, repeat_length. lia. }
  split; intros Hmax.
  - apply (parseUnits_matched _ _ _ _ zeros); assumption.
  - apply (parseUnits_matched_overflow _ (bool_decide (sign = chars "-")) whole frac zeros);
      assumption.
Qed.

End AmountClaims.

(** * Concrete instances in the sample world *)

Section Instances.
Import Ledger Spec.

Lemma C4_witness_short_signature :
  X402Client.submitTransaction Sample.env (Sample.preparedWith None None)
    Sample.shortSignature "0x01" Sample.ledger0
  = (Throw (SignatureError "Invalid signature format"
              (Some "Signature must be a 65-byte hex string starting with 0x")),
     Sample.ledger0).
Proof.
  apply (proj2 (C4_signature_shape Sample.shortSignature)).
  vm_compute. reflexivity.
Defined.

(** The example of the specification: the marker and 130 times [a] is
    accepted, and is refused once a character is removed. *)
Example validateSignature_examples :
  X402Client.validateSignature Sample.goodSignature = true
  /\ X402Client.validateSignature Sample.shortSignature = false.
Proof. split; vm_compute; reflexivity. Qed.

Lemma C5_witness_incomplete_config :
  exists fields,
    X402Server.addService Sample.env Sample.server Sample.incompleteConfig Sample.state0
    = (Throw (ConfigurationError
                ("Missing required service fields: " +:+ join ", " fields)
                (Some fields)), Sample.state0)
    /\ fields = List.filter (missingField Sample.incompleteConfig) requiredFields
    /\ forall field, In field requiredFields ->
         (In field fields <-> missingField Sample.incompleteConfig field = true).
Proof.
  apply (C5_every_missing_field_named Sample.env Sample.server
           Sample.incompleteConfig Sample.state0).
  exists "id". split; [left; reflexivity | vm_compute; reflexivity].
Defined.

Example incomplete_config_fields :
  List.filter (missingField Sample.incompleteConfig) requiredFields
  = ["id"; "hookType"; "network"].
Proof. vm_compute. reflexivity. Qed.

(** C6 at the address without code of the sample world: the error of the
    library holds neither of the two texts, and what [addService] throws
    is the [NetworkError], not [ContractNotFoundError]; the registry is
    as it was. *)
Lemma C6_witness_no_code :
  exists t s',
    X402Server.addService Sample.env Sample.server Sample.noCodeConfig Sample.state0
    = (Throw t, s')
    /\ X402Server.services s' = X402Server.services Sample.state0
    /\ t = NetworkError
             ("Failed to read settlement router: " +:+ message_of Sample.noCodeError)
             None None
    /\ t <> ContractNotFoundError (X402Server.prop Sample.noCodeConfig "hookAddress").
Proof.
  destruct (proj2 (C6_failed_read_leaves_registry Sample.env Sample.server
                     Sample.noCodeConfig Sample.state0)
              Sample.noCodeError eq_refl eq_refl)
    as (t & s' & H1 & H2 & _ & H4 & _).
  exists t, s'. split; [exact H1|]. split; [exact H2|].
  assert (Ht : t = NetworkError
                     ("Failed to read settlement router: "
                      +:+ message_of Sample.noCodeError) None None)
    by (apply H4; vm_compute; reflexivity).
  split; [exact Ht|]. rewrite Ht. discriminate.
Defined.

(** The hook of the sample world whose call reverts is the one that is
    reported as not found. *)
Example reverting_hook_is_reported_missing :
  fst (X402Server.addService Sample.env Sample.server Sample.revertingConfig
         Sample.state0)
  = Throw (ContractNotFoundError (JString Sample.revertingHook)).
Proof. vm_compute. reflexivity. Qed.

Lemma C7_witness_overwriting :
  let final := X402Server.addServices Sample.env Sample.server Sample.overwriting
                 Sample.state0 in
  let entries := accepted Sample.env (X402Server.networkSettings Sample.server)
                   Sample.overwriting (world (X402Server.ledger Sample.state0)) in
  (forall id, X402Server.getService id final = lastWrite id entries)
  /\ Forall (networkFields (X402Server.networkSettings Sample.server))
            (X402Server.listServices final)
  /\ NoDup (map_keys (X402Server.services final))
  /\ (forall serviceConfig s1 routerAddress,
        complete serviceConfig = true ->
        fst (hook_settlementRouter Sample.env (world (X402Server.ledger s1))
               (X402Server.prop serviceConfig "hookAddress")) = Ok routerAddress ->
        exists s2,
          X402Server.addService Sample.env Sample.server serviceConfig s1 = (Ok tt, s2)
          /\ X402Server.getService (X402Server.prop serviceConfig "id") s2
             = Some (resolvedRecord (X402Server.networkSettings Sample.server)
                       routerAddress serviceConfig)
          /\ forall id, id <> X402Server.prop serviceConfig "id" ->
                        X402Server.getService id s2 = X402Server.getService id s1)
  /\ (forall serviceConfig routerAddress,
        let record :=
          resolvedRecord (X402Server.networkSettings Sample.server) routerAddress
            serviceConfig in
        record !! "usdcAddress"
        = Some (JString (NetworkConfig.usdcAddress
                           (X402Server.networkSettings Sample.server)))
        /\ record !! "chainId"
           = Some (JNumber (NetworkConfig.chainId
                              (X402Server.networkSettings Sample.server)))
        /\ record !! "settlementRouter" = Some (JString routerAddress)
        /\ forall field, field <> "usdcAddress" -> field <> "chainId" ->
                         field <> "settlementRouter" ->
                         record !! field = serviceConfig !! field).
Proof.
  apply (C7_network_fields_and_last_write Sample.env Sample.server
           Sample.overwriting Sample.state0).
  reflexivity.
Defined.

(** In the sample world the first edition carried a note, [chainId] 1 and
    another token address. After the second registration of the id the
    stored record has the new title, the network fields of the testnet
    and no note; the service registered in between is untouched. *)
Example overwritten_record_fields :
  match X402Server.getService (JString "nft-mint")
          (X402Server.addServices Sample.env Sample.server Sample.overwriting
             Sample.state0) with
  | Some record =>
      record !! "chainId" = Some (JNumber 338)
      /\ record !! "usdcAddress"
         = Some (JString "0xc01efAaF7C5C61bEbFAeb358E1161b537b8bC0e0")
      /\ record !! "settlementRouter" = Some (JString Sample.router)
      /\ record !! "title" = Some (JString "NFT Mint, second edition")
      /\ record !! "note" = None
  | None => False
  end
  /\ Sample.nftMintConfig1 !! "note" = Some (JString "first edition")
  /\ is_Some (X402Server.getService (JString "vip-mint")
                (X402Server.addServices Sample.env Sample.server Sample.overwriting
                   Sample.state0))
  /\ X402Server.getService (JString "reward-points")
       (X402Server.addServices Sample.env Sample.server Sample.overwriting
          Sample.state0) = None.
Proof. vm_compute. repeat split. eexists; reflexivity. Qed.

(** In the sample world the configuration carried [chainId] 1 and another
    token address; the stored record has the ones of the testnet, and the
    second registration of the id replaced the title. *)
Example stored_record_fields :
  match X402Server.getService (JString "nft-mint")
          (X402Server.addServices Sample.env Sample.server Sample.registrations
             Sample.state0) with
  | Some record =>
      record !! "chainId" = Some (JNumber 338)
      /\ record !! "usdcAddress"
         = Some (JString "0xc01efAaF7C5C61bEbFAeb358E1161b537b8bC0e0")
      /\ record !! "settlementRouter" = Some (JString Sample.router)
      /\ record !! "title" = Some (JString "NFT Mint, second edition")
  | None => False
  end.
Proof. vm_compute. repeat split. Qed.

Lemma C10_witness_two_ids :
  let final := X402Server.addServices Sample.env Sample.server Sample.overwriting
                 Sample.state0 in
  let entries := accepted Sample.env (X402Server.networkSettings Sample.server)
                   Sample.overwriting (world (X402Server.ledger Sample.state0)) in
  X402Server.listServices final
  = omap (fun id => lastWrite id entries) (firstOccurrences (map fst entries))
  /\ map_keys (X402Server.services final) = firstOccurrences (map fst entries)
  /\ (forall serviceConfig s1 routerAddress,
        complete serviceConfig = true ->
        fst (hook_settlementRouter Sample.env (world (X402Server.ledger s1))
               (X402Server.prop serviceConfig "hookAddress")) = Ok routerAddress ->
        X402Server.prop serviceConfig "id" ∈ map_keys (X402Server.services s1) ->
        exists s2 before old after,
          X402Server.addService Sample.env Sample.server serviceConfig s1 = (Ok tt, s2)
          /\ X402Server.services s1
             = before ++ (X402Server.prop serviceConfig "id", old) :: after
          /\ X402Server.listServices s2
             = map_values before
               ++ resolvedRecord (X402Server.networkSettings Sample.server)
                    routerAddress serviceConfig
                  :: map_values after
          /\ map_keys (X402Server.services s2) = map_keys (X402Server.services s1))
  /\ (forall serviceConfig s1 routerAddress,
        complete serviceConfig = true ->
        fst (hook_settlementRouter Sample.env (world (X402Server.ledger s1))
               (X402Server.prop serviceConfig "hookAddress")) = Ok routerAddress ->
        X402Server.prop serviceConfig "id" ∉ map_keys (X402Server.services s1) ->
        exists s2,
          X402Server.addService Sample.env Sample.server serviceConfig s1 = (Ok tt, s2)
          /\ X402Server.listServices s2
             = X402Server.listServices s1
               ++ [resolvedRecord (X402Server.networkSettings Sample.server)
                     routerAddress serviceConfig]).
Proof.
  apply (C10_listing_in_first_registration_order Sample.env Sample.server
           Sample.overwriting Sample.state0).
  reflexivity.
Defined.

(** In the sample world the ids were registered in the order nft-mint,
    vip-mint, nft-mint. The listing has nft-mint first, with the title of
    its second registration: the order of first registration, not the
    order of the latest. *)
Example listing_after_overwrite :
  map (fun record => (X402Server.prop record "id", X402Server.prop record "title"))
      (X402Server.listServices
         (X402Server.addServices Sample.env Sample.server Sample.overwriting
            Sample.state0))
  = [(JString "nft-mint", JString "NFT Mint, second edition");
     (JString "vip-mint", JString "VIP Mint Service")]
  /\ map fst (accepted Sample.env (X402Server.networkSettings Sample.server)
                Sample.overwriting (world (X402Server.ledger Sample.state0)))
     = [JString "nft-mint"; JString "vip-mint"; JString "nft-mint"].
Proof. split; vm_compute; reflexivity. Qed.

Lemma C8_witness_two_minutes :
  X402Client.p_validAfter (X402Client.params (Sample.preparedWith None (Some 120))) = 0
  /\ X402Client.p_validBefore (X402Client.params (Sample.preparedWith None (Some 120)))
     = fst (date_now Sample.env
              (snd (randomBytes Sample.env (world Sample.ledger0) 32))) / 1000
       + match X402Client.validitySeconds (Sample.txParams None (Some 120)) with
         | Some v => if v =? 0 then 3600 else v
         | None => 3600
         end
  /\ Ethers.parseUnits
       match X402Client.facilitatorFee (Sample.txParams None (Some 120)) with
       | Some f => if String.eqb f "" then "0" else f
       | None => "0"
       end 6
     = Ok (X402Client.p_facilitatorFee
             (X402Client.params (Sample.preparedWith None (Some 120))))
  /\ X402Client.m_validAfter
       (X402Client.message
          (X402Client.typedData (Sample.preparedWith None (Some 120)))) = "0"
  /\ X402Client.m_validBefore
       (X402Client.message
          (X402Client.typedData (Sample.preparedWith None (Some 120))))
     = pretty (X402Client.p_validBefore
                 (X402Client.params (Sample.preparedWith None (Some 120)))).
Proof.
  apply (C8_time_window_and_defaults Sample.env (Sample.txParams None (Some 120))
           Sample.ledger0
           (snd (X402Client.prepareTransaction Sample.env
                   (Sample.txParams None (Some 120)) Sample.ledger0))).
  vm_compute. reflexivity.
Defined.

(** C8, as stated, fails: a caller who specifies 0 for [validitySeconds]
    gets the window of 3600 seconds, and one who specifies the empty text
    for [facilitatorFee] gets the fee parsed from the text 0. *)
Lemma C8_zero_validity_is_replaced :
  fst (X402Client.prepareTransaction Sample.env (Sample.txParams (Some "") (Some 0))
         Sample.ledger0)
  = Ok (Sample.preparedWith (Some "") (Some 0))
  /\ fst (date_now Sample.env
            (snd (randomBytes Sample.env (world Sample.ledger0) 32))) / 1000
     = 1700000000
  /\ X402Client.p_validBefore
       (X402Client.params (Sample.preparedWith (Some "") (Some 0)))
     = 1700000000 + 3600
  /\ X402Client.p_validBefore
       (X402Client.params (Sample.preparedWith (Some "") (Some 0)))
     <> 1700000000 + 0
  /\ X402Client.p_facilitatorFee
       (X402Client.params (Sample.preparedWith (Some "") (Some 0))) = 0
  /\ Ethers.parseUnits "" 6
     = Throw (EthersError "INVALID_ARGUMENT" "invalid FixedNumber string value").
Proof.
  split; [vm_compute; reflexivity|]. split; [vm_compute; reflexivity|].
  split; [vm_compute; reflexivity|]. split; [vm_compute; congruence|].
  split; vm_compute; reflexivity.
Qed.

End Instances.

(** * Further properties *)

Import MoreSpec.

(** * Further properties of the codec *)

Section CodecMore.
Import HookDataCodec Ethers.

Local Arguments checksumCase : simpl never.

Lemma mapR_returns {A B} (f : A -> Result B) (l : list A) :
  returns (mapR f l) <-> Forall (fun x => returns (f x)) l.
Proof.
  induction l as [|x l IH]; cbn [mapR].
  - split; [constructor | exists []; reflexivity].
  - split.
    + intros [ys H]. destruct (f x) as [y|t] eqn:Hx; [|discriminate].
      cbn [bindR] in H. destruct (mapR f l) as [ys'|t] eqn:Hl; [|discriminate].
      constructor; [exists y; exact Hx | apply IH; exists ys'; reflexivity].
    + inversion 1 as [|? ? [y Hy] Hl]; subst. apply IH in Hl as [ys Hys].
      rewrite Hy, Hys. exists (y :: ys). reflexivity.
Qed.

Lemma isAddress_returns a : isAddress a = true <-> returns (getAddress a).
Proof.
  unfold isAddress, returns. destruct (getAddress a) as [c|t].
  - split; [exists c; reflexivity | reflexivity].
  - split; [discriminate | intros [v H]; discriminate].
Qed.

Lemma encodeAddress_returns a : returns (encodeAddress a) <-> isAddress a = true.
Proof.
  rewrite isAddress_returns. unfold encodeAddress, returns.
  destruct (getAddress a) as [c|t]; cbn [bindR].
  - split; intros _; eexists; reflexivity.
  - split; intros [v H]; discriminate.
Qed.

Lemma encodeUint16_returns b : returns (encodeUint16 b) <-> uint16 b.
Proof.
  unfold encodeUint16, returns, uint16.
  destruct (Z.ltb_spec b 0); destruct (Z.ltb_spec 65535 b); cbn [orb];
    split; intros H';
    first [ destruct H' as [v Hv]; discriminate Hv
          | lia
          | exfalso; lia
          | eexists; reflexivity ].
Qed.

Lemma splitItem_returns r b :
  returns (splitItem (r, b)) <-> isAddress r = true /\ uint16 b.
Proof.
  rewrite <- encodeAddress_returns, <- encodeUint16_returns.
  unfold splitItem, returns.
  destruct (encodeAddress r) as [rw|]; destruct (encodeUint16 b) as [bw|]; cbn [bindR];
    split; try (intros [v H]; discriminate);
    try (intros [[? ?] [? ?]]; discriminate).
  - intros _. split; eexists; reflexivity.
  - intros _. eexists; reflexivity.
Qed.

Lemma encodeSplitArray_returns l :
  returns (encodeSplitArray l) <-> Forall SplitOk l.
Proof.
  unfold encodeSplitArray.
  change (fun '(r, b) => let* rw := encodeAddress r in
                         let* bw := encodeUint16 b in Ok (rw ++ bw))
    with splitItem.
  assert (H : returns (mapR splitItem l) <-> Forall SplitOk l).
  { rewrite mapR_returns. apply Forall_iff. intros [r b]. apply splitItem_returns. }
  rewrite <- H. unfold returns. destruct (mapR splitItem l); cbn [bindR].
  - split; intros _; eexists; reflexivity.
  - split; intros [v Hv]; discriminate.
Qed.

Lemma Forall_SplitOk_split l :
  Forall SplitOk (map (fun s => (recipient s, bips s)) l)
  <-> Forall Spec.WellFormedAddress (map recipient l) /\ Forall uint16 (map bips l).
Proof.
  induction l as [|s l IH]; cbn [map].
  - split; [split; constructor | constructor].
  - rewrite !Forall_cons, IH. unfold SplitOk, Spec.WellFormedAddress, uint16.
    cbn [fst snd]. tauto.
Qed.

Lemma encode_own_kind_returns (p : HookDataParams) :
  returns (encode (type_of p) p)
  <-> Forall Spec.WellFormedAddress (Spec.addresses p) /\ Forall uint16 (Spec.shares p).
Proof.
  unfold encode.
  destruct p as [a | a | [l|]]; cbn [type_of String.eqb Ascii.eqb Bool.eqb
    get_nftContract get_rewardToken get_splits encodeAddressProperty
    Spec.addresses Spec.shares].
  - unfold encodeAddressTuple.
    assert (H : returns (encodeAddress a) <-> returns (let* w := encodeAddress a in Ok (hexlify w))).
    { unfold returns. destruct (encodeAddress a); cbn [bindR];
        split; intros [v Hv]; try discriminate; eexists; reflexivity. }
    rewrite <- H, encodeAddress_returns. unfold Spec.WellFormedAddress.
    split; [intros Ha; split; repeat constructor; exact Ha|].
    intros [Ha _]. inversion Ha; assumption.
  - unfold encodeAddressTuple.
    assert (H : returns (encodeAddress a) <-> returns (let* w := encodeAddress a in Ok (hexlify w))).
    { unfold returns. destruct (encodeAddress a); cbn [bindR];
        split; intros [v Hv]; try discriminate; eexists; reflexivity. }
    rewrite <- H, encodeAddress_returns. unfold Spec.WellFormedAddress.
    split; [intros Ha; split; repeat constructor; exact Ha|].
    intros [Ha _]. inversion Ha; assumption.
  - destruct l as [|s l].
    + cbn. split; [intros _; split; constructor | intros _; eexists; reflexivity].
    + cbn [length Nat.eqb]. rewrite encodeSplitArray_returns. apply Forall_SplitOk_split.
  - split; [intros _; split; constructor | intros _; eexists; reflexivity].
Qed.

(** X1: the client's [encodeHookData] returns a payload exactly when
    every address of the value is well-formed and every share is a 16-bit
    unsigned integer; otherwise it throws. The kind is the value's own, so
    no value is refused for its kind. *)
Theorem encodeHookData_returns_iff (p : HookDataParams) :
  returns (X402Discovery.encodeHookData p)
  <-> Forall Spec.WellFormedAddress (Spec.addresses p) /\ Forall uint16 (Spec.shares p).
Proof. unfold X402Discovery.encodeHookData. apply encode_own_kind_returns. Qed.

End CodecMore.

Section CodecLayout.
Import HookDataCodec Ethers.

Local Arguments checksumCase : simpl never.

Lemma hexlify_length bs : String.length (hexlify bs) = (2 + 2 * length bs)%nat.
Proof.
  unfold hexlify. rewrite string_length_chars, chars_str, length_app.
  cbn [chars list_ascii_of_string length]. f_equal.
  induction bs as [|b bs IH]; [reflexivity|].
  cbn [flat_map]. rewrite length_app, IH, byteHex_eq. cbn [length]. lia.
Qed.

(** X2: the payload of a value is hexadecimal text of a fixed size: 32
    bytes for a single address, none without splits, and 64 bytes plus 64
    per split otherwise. *)
Theorem encodeHookData_layout (p : HookDataParams) (hookData : string) :
  X402Discovery.encodeHookData p = Ok hookData ->
  exists bytes,
    getBytes hookData = Ok bytes
    /\ length bytes = payloadBytes p
    /\ String.length hookData = (2 + 2 * payloadBytes p)%nat
    /\ startsWith (chars hookData) (chars "0x") = true.
Proof.
  intros He.
  assert (Hok : returns (X402Discovery.encodeHookData p)) by (eexists; exact He).
  unfold X402Discovery.encodeHookData in Hok.
  apply encode_own_kind_returns in Hok as [Ha Hb].
  unfold X402Discovery.encodeHookData, encode in He.
  assert (Hsingle : forall a, Spec.WellFormedAddress a ->
            encodeAddressTuple a = Ok hookData ->
            exists bytes, getBytes hookData = Ok bytes /\ length bytes = 32%nat
              /\ String.length hookData = 66%nat
              /\ startsWith (chars hookData) (chars "0x") = true).
  { intros a Hwf Henc. apply isAddress_getAddress in Hwf.
    destruct (address_round_trip _ _ Hwf) as (v & _ & Hv & _).
    unfold encodeAddressTuple in Henc. rewrite Hv in Henc. cbn [bindR] in Henc.
    injection Henc as <-. exists (writeValue v).
    rewrite getBytes_hexlify by apply writeValue_bytes.
    rewrite hexlify_length, writeValue_length. unfold hexlify. rewrite chars_str.
    repeat split. }
  destruct p as [a | a | [l|]]; cbn [type_of String.eqb Ascii.eqb Bool.eqb
    get_nftContract get_rewardToken get_splits encodeAddressProperty
    Spec.addresses Spec.shares payloadBytes] in *.
  - inversion Ha; subst. apply (Hsingle a); assumption.
  - inversion Ha; subst. apply (Hsingle a); assumption.
  - destruct l as [|s l].
    + cbn in He. injection He as <-. exists []. repeat split.
    + cbn [length Nat.eqb] in He.
      pose proof (proj2 (Forall_SplitOk_split (s :: l)) (conj Ha Hb)) as Hok.
      destruct (splitItems_round_trip _ Hok) as (items & Hitems & Hlen & Hbytes & _).
      unfold encodeSplitArray in He.
      change (fun '(r, b) => let* rw := encodeAddress r in
                             let* bw := encodeUint16 b in Ok (rw ++ bw))
        with splitItem in He.
      rewrite Hitems in He. cbn [bindR] in He.
      match type of He with
      | Ok ?payload = Ok _ => assert (Heq : hookData = payload) by congruence
      end.
      clear He Hsingle. subst hookData.
      match goal with
      | |- context [getBytes (hexlify ?bs)] =>
          assert (Hall : Forall (fun b => 0 <= b < 256) bs)
            by (rewrite !Forall_app; auto using writeValue_bytes);
          exists bs; rewrite (getBytes_hexlify _ Hall)
      end.
      rewrite hexlify_length, !length_app, !writeValue_length, Hlen, !length_map.
      unfold hexlify. rewrite chars_str. cbn [length].
      split; [reflexivity|]. split; [lia|]. split; [lia|reflexivity].
  - injection He as <-. exists []. repeat split.
Qed.

Lemma sample_mint_payload_layout :
  exists bytes,
    getBytes
      "0x000000000000000000000000a8633f571c51ad0ea7b3c51ec930ee51ff8f0551"
    = Ok bytes
    /\ length bytes = payloadBytes (NFTMintHookData Sample.randomNFT)
    /\ String.length
         "0x000000000000000000000000a8633f571c51ad0ea7b3c51ec930ee51ff8f0551"
       = (2 + 2 * payloadBytes (NFTMintHookData Sample.randomNFT))%nat
    /\ startsWith
         (chars "0x000000000000000000000000a8633f571c51ad0ea7b3c51ec930ee51ff8f0551")
         (chars "0x") = true.
Proof.
  apply (encodeHookData_layout (NFTMintHookData Sample.randomNFT)).
  vm_compute. reflexivity.
Defined.

(** X3: under a known kind that is not the one of the value, [encode]
    throws the library's invalid-argument error for the two
    single-address kinds, and returns the empty payload for
    transfer-split. *)
Theorem encode_kind_mismatch (hookType : string) (p : HookDataParams) :
  HookDataSchemas.knownHookType hookType = true -> hookType <> type_of p ->
  (hookType = "transfer-split" -> encode hookType p = Ok "0x")
  /\ (hookType <> "transfer-split" ->
      exists t, encode hookType p = Throw t
                /\ code_of t = Some "INVALID_ARGUMENT").
Proof.
  unfold HookDataSchemas.knownHookType, encode. intros Hk Hne.
  destruct (String.eqb_spec hookType "nft-mint") as [->|H1].
  - split; [discriminate|]. intros _.
    destruct p; cbn; try (eexists; split; reflexivity); exfalso; apply Hne; reflexivity.
  - destruct (String.eqb_spec hookType "reward-points") as [->|H2].
    + split; [discriminate|]. intros _.
      destruct p; cbn; try (eexists; split; reflexivity); exfalso; apply Hne; reflexivity.
    + destruct (String.eqb_spec hookType "transfer-split") as [->|H3]; [|discriminate].
      split; [intros _|congruence].
      destruct p; cbn; try reflexivity; exfalso; apply Hne; reflexivity.
Qed.

Lemma sample_mint_under_other_kinds :
  (encode "transfer-split" Sample.lowerCaseMint = Ok "0x")
  /\ (exists t, encode "reward-points" Sample.lowerCaseMint = Throw t
                /\ code_of t = Some "INVALID_ARGUMENT").
Proof.
  split.
  - apply (encode_kind_mismatch "transfer-split" Sample.lowerCaseMint);
      [reflexivity | discriminate | reflexivity].
  - apply (encode_kind_mismatch "reward-points" Sample.lowerCaseMint);
      [reflexivity | discriminate | discriminate].
Defined.

(** X4: [encode], [decode] and [getSchema] know the same three kinds:
    for any other string each of them throws the error naming it, and for
    a known kind [getSchema] returns the descriptor of that kind. *)
Theorem hook_kinds_agree (hookType : string) :
  (HookDataSchemas.knownHookType hookType = false ->
   (forall p, encode hookType p = Throw (JsError ("Unknown hook type: " +:+ hookType)))
   /\ (forall hookData,
         decode hookType hookData = Throw (JsError ("Unknown hook type: " +:+ hookType)))
   /\ HookDataSchemas.getSchema hookType
      = Throw (JsError ("Unknown hook type: " +:+ hookType)))
  /\ (HookDataSchemas.knownHookType hookType = true ->
      exists schema,
        HookDataSchemas.getSchema hookType = Ok schema
        /\ HookDataSchemas.hookType schema = hookType
        /\ (HookDataSchemas.abiType schema = "tuple(address)"
            <-> hookType <> "transfer-split")).
Proof.
  unfold HookDataSchemas.knownHookType, encode, decode, HookDataSchemas.getSchema.
  destruct (String.eqb_spec hookType "nft-mint") as [->|H1].
  { split; [discriminate|]. intros _. eexists. split; [reflexivity|].
    split; [reflexivity|]. cbn. split; [discriminate|reflexivity]. }
  destruct (String.eqb_spec hookType "reward-points") as [->|H2].
  { split; [discriminate|]. intros _. eexists. split; [reflexivity|].
    split; [reflexivity|]. cbn. split; [discriminate|reflexivity]. }
  destruct (String.eqb_spec hookType "transfer-split") as [->|H3].
  { split; [discriminate|]. intros _. eexists. split; [reflexivity|].
    split; [reflexivity|]. cbn. split; [discriminate|congruence]. }
  split; [|discriminate]. intros _. repeat split.
Qed.

Lemma sample_unknown_kind :
  (forall p, encode "refund" p = Throw (JsError ("Unknown hook type: " +:+ "refund")))
  /\ (forall hookData,
        decode "refund" hookData = Throw (JsError ("Unknown hook type: " +:+ "refund")))
  /\ HookDataSchemas.getSchema "refund"
     = Throw (JsError ("Unknown hook type: " +:+ "refund")).
Proof. apply (proj1 (hook_kinds_agree "refund")). reflexivity. Defined.

End CodecLayout.

Section DecodeMore.
Import HookDataCodec Ethers.

Local Arguments checksumCase : simpl never.

(** What [getAddress] returns, it accepts and returns unchanged. *)
Lemma getAddress_fixed a c : getAddress a = Ok c -> Checksummed c.
Proof.
  intros Ha. destruct (getAddress_Ok a c Ha) as (l & Hlen & Hl & ->).
  destruct (variant_values l (checksumCase l) (checksumCase_variant l) Hl)
    as (_ & Hlow & Hhex).
  unfold Checksummed, getAddress. rewrite chars_str.
  assert (Hm : matchesAddress (chars "0x" ++ checksumCase l) = true).
  { cbn [chars list_ascii_of_string app matchesAddress]. unfold isHex40 at 1.
    rewrite checksumCase_length, Hlen, Hhex. reflexivity. }
  rewrite Hm.
  cbn [chars list_ascii_of_string app startsWith Ascii.eqb Bool.eqb andb].
  unfold getChecksumAddress. cbn [map skipn]. rewrite drop_0, Hlow.
  cbn [chars list_ascii_of_string app].
  rewrite bool_decide_eq_true_2 by reflexivity.
  cbn [negb]. rewrite andb_false_r. reflexivity.
Qed.

Lemma decodeAddress_fixed data off a : decodeAddress data off = Ok a -> Checksummed a.
Proof.
  unfold decodeAddress. destruct (readValue data off); [|discriminate]. cbn [bindR].
  destruct (toBeHex _ 20); [|discriminate]. cbn [bindR]. apply getAddress_fixed.
Qed.

Lemma decodeUint16_range data off b : decodeUint16 data off = Ok b -> uint16 b.
Proof.
  unfold decodeUint16. destruct (readValue data off) as [v|]; [|discriminate].
  cbn [bindR]. intros [= <-]. unfold uint16.
  change 65535 with (Z.ones 16). rewrite Z.land_ones by lia.
  pose proof (Z.mod_pos_bound v (2 ^ 16) ltac:(lia)). change (Z.ones 16) with (2 ^ 16 - 1).
  lia.
Qed.

Lemma defer_Ok {A} (r : Result A) (item : Result A) :
  defer r = Ok item ->
  item = r /\ forall t, r = Throw t -> code_of t <> Some "BUFFER_OVERRUN".
Proof.
  unfold defer. destruct r as [v|t].
  - intros [= <-]. split; [reflexivity|discriminate].
  - case_bool_decide as Hc; [discriminate|]. intros [= <-].
    split; [reflexivity|]. intros t' [= <-]. exact Hc.
Qed.

Lemma readItem_Ok {A} accessor (item : Result A) v :
  readItem accessor item = Ok v -> item = Ok v.
Proof. destruct item; [intros [= <-]; reflexivity|discriminate]. Qed.

Lemma decodeAddressTuple_Ok hookData a :
  decodeAddressTuple hookData = Ok a ->
  exists bs, getBytes hookData = Ok bs /\ decodeAddress bs 0 = Ok a.
Proof.
  unfold decodeAddressTuple. destruct (getBytes hookData) as [bs|]; [|discriminate].
  cbn [bindR]. destruct (defer (decodeAddress bs 0)) as [item|] eqn:Hi; [|discriminate].
  cbn [bindR]. intros Hr. apply readItem_Ok in Hr. subst item.
  destruct (defer_Ok _ _ Hi) as [Heq _]. exists bs. split; [reflexivity|].
  symmetry. exact Heq.
Qed.

Lemma decodeSplitItems_values data off count l :
  decodeSplitItems data off count = Ok l ->
  length l = count
  /\ Forall (fun p => (forall a, fst p = Ok a -> Checksummed a) /\ uint16 (snd p)) l.
Proof.
  revert off l. induction count as [|count IH]; intros off l; cbn [decodeSplitItems].
  - intros [= <-]. split; [reflexivity|constructor].
  - destruct (defer (decodeAddress data off)) as [r|] eqn:Hr; [|discriminate].
    cbn [bindR].
    destruct (decodeUint16 data (off + WordSize)) as [b|] eqn:Hb; [|discriminate].
    cbn [bindR].
    destruct (decodeSplitItems data (off + 2 * WordSize) count) as [rest|] eqn:Hrest;
      [|discriminate].
    cbn [bindR]. intros [= <-]. destruct (IH _ _ Hrest) as [Hlen Hall].
    split; [cbn; rewrite Hlen; reflexivity|].
    constructor; [|exact Hall]. cbn [fst snd].
    split; [|exact (decodeUint16_range _ _ _ Hb)].
    intros a ->. destruct (defer_Ok _ _ Hr) as [Heq _].
    exact (decodeAddress_fixed _ _ _ (eq_sym Heq)).
Qed.

Lemma read_items_values (items : list (Result string * Z)) l :
  mapR (fun item : Result string * Z =>
          let* r := readItem ("property " +:+ quoted "recipient") (fst item) in
          Ok (r, snd item)) items = Ok l ->
  Forall (fun p => (forall a, fst p = Ok a -> Checksummed a) /\ uint16 (snd p)) items ->
  length l = length items
  /\ Forall (fun p => Checksummed (fst p) /\ uint16 (snd p)) l.
Proof.
  revert l. induction items as [|[r b] items IH]; intros l; cbn [mapR].
  - intros [= <-] _. split; [reflexivity|constructor].
  - cbn [fst snd]. destruct (readItem _ r) as [a|] eqn:Ha; [|discriminate].
    cbn [bindR]. destruct (mapR _ items) as [rest|] eqn:Hrest; [|discriminate].
    cbn [bindR]. intros [= <-] Hall. inversion Hall as [|? ? [Hr Hb] Hall']; subst.
    destruct (IH _ eq_refl Hall') as [Hlen Hrest'].
    split; [cbn [length]; rewrite Hlen; reflexivity|].
    constructor; [|exact Hrest']. cbn [fst snd] in *.
    split; [|exact Hb]. apply Hr. exact (readItem_Ok _ _ _ Ha).
Qed.

Lemma decodeSplitArray_values hookData l :
  decodeSplitArray hookData = Ok l ->
  Z.of_nat (length l) <= 9007199254740991
  /\ Forall (fun p => Checksummed (fst p) /\ uint16 (snd p)) l.
Proof.
  unfold decodeSplitArray. destruct (getBytes hookData) as [bs|]; [|discriminate].
  cbn [bindR]. destruct (readIndex bs 0) as [offset|]; [|discriminate]. cbn [bindR].
  destruct (defer (decodeArray (drop offset bs))) as [array|] eqn:Harray;
    [|discriminate].
  cbn [bindR]. destruct (readItem "index 0" array) as [items|] eqn:Hitems;
    [|discriminate].
  cbn [bindR]. intros Hl. apply readItem_Ok in Hitems. subst array.
  destruct (defer_Ok _ _ Harray) as [Heq _]. symmetry in Heq.
  unfold decodeArray in Heq.
  destruct (readIndex (drop offset bs) 0) as [count|] eqn:Hc; [|discriminate].
  cbn [bindR] in Heq. destruct (_ <=? _)%nat; [|discriminate].
  destruct (decodeSplitItems_values _ _ _ _ Heq) as [Hlen Hall].
  destruct (read_items_values _ _ Hl Hall) as [Hlen' Hall']. split; [|exact Hall'].
  rewrite Hlen', Hlen. unfold readIndex in Hc.
  destruct (readValue (drop offset bs) 0) as [v|]; [|discriminate]. cbn [bindR] in Hc.
  destruct (Z.leb_spec v 9007199254740991); [|discriminate].
  injection Hc as <-. lia.
Qed.

(** X5: every value that [decode] returns is of the kind asked for, its
    addresses are in checksummed form (so [validate]'s address test
    accepts them) and its shares are 16-bit unsigned integers. *)
Theorem decode_values_well_formed (hookType hookData : string) (p : HookDataParams) :
  decode hookType hookData = Ok p ->
  type_of p = hookType
  /\ Forall Checksummed (Spec.addresses p)
  /\ Forall Spec.WellFormedAddress (Spec.addresses p)
  /\ Forall uint16 (Spec.shares p).
Proof.
  assert (Hwf : forall l, Forall Checksummed l -> Forall Spec.WellFormedAddress l).
  { intros l Hl. eapply Forall_impl; [exact Hl|]. intros a Ha.
    unfold Spec.WellFormedAddress, isAddress.
    rewrite Ha. reflexivity. }
  assert (Hmain : decode hookType hookData = Ok p ->
            type_of p = hookType /\ Forall Checksummed (Spec.addresses p)
            /\ Forall uint16 (Spec.shares p)).
  { unfold decode.
    destruct (String.eqb_spec hookType "nft-mint") as [->|H1].
    { destruct (_ || _); [discriminate|].
      destruct (decodeAddressTuple hookData) as [a|] eqn:Ha; [|discriminate].
      cbn [bindR]. intros [= <-]. split; [reflexivity|].
      destruct (decodeAddressTuple_Ok _ _ Ha) as (bs & _ & Hbs).
      split; repeat constructor. exact (decodeAddress_fixed _ _ _ Hbs). }
    destruct (String.eqb_spec hookType "reward-points") as [->|H2].
    { destruct (_ || _); [discriminate|].
      destruct (decodeAddressTuple hookData) as [a|] eqn:Ha; [|discriminate].
      cbn [bindR]. intros [= <-]. split; [reflexivity|].
      destruct (decodeAddressTuple_Ok _ _ Ha) as (bs & _ & Hbs).
      split; repeat constructor. exact (decodeAddress_fixed _ _ _ Hbs). }
    destruct (String.eqb_spec hookType "transfer-split") as [->|H3]; [|discriminate].
    destruct (_ || _).
    { intros [= <-]. split; [reflexivity|]. split; constructor. }
    destruct (decodeSplitArray hookData) as [l|] eqn:Hl; [|discriminate].
    cbn [bindR]. intros [= <-]. split; [reflexivity|].
    destruct (decodeSplitArray_values _ _ Hl) as [_ Hall].
    cbn [Spec.addresses Spec.shares]. clear Hl.
    induction Hall as [|[r b] l [Hr Hb] _ IH]; cbn [map]; [split; constructor|].
    destruct IH as [IH1 IH2]. split; constructor; assumption. }
  intros H. destruct (Hmain H) as (H1 & H2 & H3). auto.
Qed.

Lemma sample_decoded_values :
  type_of (NFTMintHookData Sample.randomNFT) = "nft-mint"
  /\ Forall Checksummed (Spec.addresses (NFTMintHookData Sample.randomNFT))
  /\ Forall Spec.WellFormedAddress (Spec.addresses (NFTMintHookData Sample.randomNFT))
  /\ Forall uint16 (Spec.shares (NFTMintHookData Sample.randomNFT)).
Proof.
  apply (decode_values_well_formed "nft-mint"
           "0x000000000000000000000000a8633f571c51ad0ea7b3c51ec930ee51ff8f0551").
  vm_compute. reflexivity.
Defined.

End DecodeMore.

Section DecodeEdges.
Import HookDataCodec Ethers.

Local Arguments checksumCase : simpl never.

(** The round trip of the split array for every length that
    [Reader.readIndex] accepts. *)
Lemma splitArray_round_trip_safe l :
  Forall SplitOk l -> Z.of_nat (length l) <= 9007199254740991 ->
  exists hookData,
    encodeSplitArray l = Ok hookData
    /\ String.eqb hookData "0x" = false
    /\ String.eqb hookData "" = false
    /\ decodeSplitArray hookData = Ok (map canonicalSplit l).
Proof.
  intros Hl Hn.
  destruct (splitItems_round_trip l Hl) as (items & Hitems & Hilen & Hbytes & Hdec).
  set (n := Z.of_nat (length l)) in *.
  set (bs := writeValue 32 ++ writeValue n ++ concat items).
  assert (Hne : bs <> []).
  { intros E. apply (f_equal (@length Z)) in E. unfold bs in E.
    rewrite length_app, writeValue_length in E. discriminate. }
  destruct (hexlify_not_empty _ Hne) as [H1 H2].
  exists (hexlify bs). split; [|split; [exact H1|split; [exact H2|]]].
  - unfold encodeSplitArray.
    change (fun '(r, b) => let* rw := encodeAddress r in
                           let* bw := encodeUint16 b in Ok (rw ++ bw))
      with splitItem.
    rewrite Hitems. reflexivity.
  - unfold decodeSplitArray. rewrite getBytes_hexlify
      by (unfold bs; rewrite !Forall_app; auto using writeValue_bytes).
    cbn [bindR].
    pose proof (readIndex_writeValue [] 32 (writeValue n ++ concat items)) as R1.
    cbn [app length] in R1. fold bs in R1. rewrite R1 by lia. cbn [bindR].
    change (Z.to_nat 32) with 32%nat.
    assert (Hsub : skipn 32 bs = writeValue n ++ concat items).
    { unfold bs. apply drop_app_length'. symmetry. apply writeValue_length. }
    rewrite Hsub.
    pose proof (readIndex_writeValue [] n (concat items)) as R2.
    cbn [app length] in R2. unfold decodeArray.
    rewrite R2 by (unfold n; lia). cbn [bindR].
    replace (Z.to_nat n) with (length l) by (unfold n; lia).
    rewrite length_app, writeValue_length, Hilen. unfold WordSize.
    destruct (Nat.leb_spec (length l * 32) (32 + 64 * length l)); [|lia].
    specialize (Hdec (writeValue n) []). rewrite app_nil_r, writeValue_length in Hdec.
    unfold WordSize in Hdec. rewrite Hdec. cbn [defer bindR readItem].
    apply read_kept_items.
Qed.

Lemma canonicalSplit_fixed l :
  Forall (fun p => Checksummed (fst p) /\ uint16 (snd p)) l ->
  map canonicalSplit l = l /\ Forall SplitOk l.
Proof.
  induction 1 as [|[r b] l [Hr Hb] _ [IH1 IH2]]; [split; constructor|].
  cbn [fst snd] in *. cbn [map]. unfold canonicalSplit at 1. cbn [fst snd].
  unfold Spec.checksummed. rewrite Hr, IH1. split; [reflexivity|].
  constructor; [|exact IH2]. split; [|exact Hb]. cbn [fst].
  unfold isAddress. rewrite Hr. reflexivity.
Qed.

(** X6: a value that [decode] returns is a fixed point of the round
    trip, unless it is a transfer-split with an explicitly empty array,
    which comes back with the splits absent. *)
Theorem decoded_value_round_trips (hookType hookData : string) (p : HookDataParams) :
  decode hookType hookData = Ok p ->
  (p <> TransferSplitHookData (Some []) -> Spec.roundTrip p = Ok p)
  /\ (p = TransferSplitHookData (Some []) ->
      Spec.roundTrip p = Ok (TransferSplitHookData None)).
Proof.
  intros Hd. split; [|intros ->; reflexivity]. intros Hne.
  unfold decode in Hd. unfold Spec.roundTrip.
  assert (Hsingle : forall bs a, decodeAddress bs 0 = Ok a ->
            (let* hd := encodeAddressTuple a in
             if String.eqb hd "0x" || String.eqb hd "" then Throw (JsError "")
             else decodeAddressTuple hd) = Ok a).
  { intros bs a Ha. pose proof (decodeAddress_fixed _ _ _ Ha) as Hc.
    assert (Hwf : isAddress a = true) by (unfold isAddress; rewrite Hc; reflexivity).
    destruct (addressTuple_round_trip a Hwf) as (hd & He & H1 & H2 & Hdec).
    rewrite He. cbn [bindR]. rewrite H1, H2. cbn [orb]. rewrite Hdec.
    unfold Spec.checksummed. rewrite Hc. reflexivity. }
  destruct (String.eqb_spec hookType "nft-mint") as [->|H1].
  { destruct (_ || _); [discriminate|].
    destruct (decodeAddressTuple hookData) as [a|] eqn:Ht; [|discriminate].
    cbn [bindR] in Hd. injection Hd as <-.
    destruct (decodeAddressTuple_Ok _ _ Ht) as (bs & _ & Ha).
    specialize (Hsingle bs a Ha).
    unfold encode, decode.
    cbn [type_of String.eqb Ascii.eqb Bool.eqb get_nftContract encodeAddressProperty].
    destruct (encodeAddressTuple a) as [hd|]; [|discriminate]. cbn [bindR] in *.
    destruct (_ || _); [discriminate|]. rewrite Hsingle. reflexivity. }
  destruct (String.eqb_spec hookType "reward-points") as [->|H2].
  { destruct (_ || _); [discriminate|].
    destruct (decodeAddressTuple hookData) as [a|] eqn:Ht; [|discriminate].
    cbn [bindR] in Hd. injection Hd as <-.
    destruct (decodeAddressTuple_Ok _ _ Ht) as (bs & _ & Ha).
    specialize (Hsingle bs a Ha).
    unfold encode, decode.
    cbn [type_of String.eqb Ascii.eqb Bool.eqb get_rewardToken encodeAddressProperty].
    destruct (encodeAddressTuple a) as [hd|]; [|discriminate]. cbn [bindR] in *.
    destruct (_ || _); [discriminate|]. rewrite Hsingle. reflexivity. }
  destruct (String.eqb_spec hookType "transfer-split") as [->|H3]; [|discriminate].
  destruct (_ || _); [injection Hd as <-; reflexivity|].
  destruct (decodeSplitArray hookData) as [l|] eqn:Hl; [|discriminate].
  cbn [bindR] in Hd. injection Hd as <-.
  destruct (decodeSplitArray_values _ _ Hl) as [Hlen Hall].
  destruct (canonicalSplit_fixed _ Hall) as [Hfix Hok].
  assert (Hnil : l <> []) by (intros ->; apply Hne; reflexivity).
  assert (Hback : map (fun s => (recipient s, bips s))
                      (map (fun s => {| recipient := fst s; bips := snd s |}) l) = l).
  { rewrite map_map. clear. induction l as [|[r b] l IH]; [reflexivity|].
    cbn [map recipient bips fst snd]. f_equal. exact IH. }
  destruct (splitArray_round_trip_safe l Hok Hlen) as (hd & He & E1 & E2 & Hdec).
  unfold encode, decode. cbn [type_of String.eqb Ascii.eqb Bool.eqb get_splits].
  assert (Hz : (length (map (fun s => {| recipient := fst s; bips := snd s |}) l)
                =? 0)%nat = false).
  { destruct l; [congruence|reflexivity]. }
  rewrite Hz, Hback, He. cbn [bindR]. rewrite E1, E2. cbn [orb].
  rewrite Hdec, Hfix. reflexivity.
Qed.

Lemma sample_decoded_round_trip :
  (NFTMintHookData Sample.randomNFT <> TransferSplitHookData (Some []) ->
   Spec.roundTrip (NFTMintHookData Sample.randomNFT)
   = Ok (NFTMintHookData Sample.randomNFT))
  /\ (NFTMintHookData Sample.randomNFT = TransferSplitHookData (Some []) ->
      Spec.roundTrip (NFTMintHookData Sample.randomNFT)
      = Ok (TransferSplitHookData None)).
Proof.
  apply (decoded_value_round_trips "nft-mint"
           "0x000000000000000000000000a8633f571c51ad0ea7b3c51ec930ee51ff8f0551").
  vm_compute. reflexivity.
Defined.

(** The payload is the text of [bytes], and it is not the empty payload. *)
Definition payloadOf (bytes : list Z) (hookData : string) : Prop :=
  hookData = hexlify bytes /\ Forall (fun b => 0 <= b < 256) bytes /\ bytes <> [].

(** X7: for the two single-address kinds [decode] reads the first 32
    bytes only: bytes after them are ignored and a payload shorter than 32
    bytes is refused as a buffer overrun. For a word that does not fit an
    address the library keeps its numeric fault in the decoded tuple, and
    [decode] throws, when it reads the component, the plain error that
    names the access; that error has no code. *)
Theorem decode_single_address_edges (hookType : string) (bytes : list Z)
        (hookData : string) :
  hookType = "nft-mint" \/ hookType = "reward-points" ->
  payloadOf bytes hookData ->
  ((length bytes < 32)%nat ->
   exists t, decode hookType hookData = Throw t
             /\ code_of t = Some "BUFFER_OVERRUN")
  /\ (forall v extra,
        bytes = writeValue v ++ extra -> 2 ^ 160 <= v < 2 ^ 256 ->
        decode hookType hookData
        = Throw (JsError
                   "deferred error during ABI decoding triggered accessing index 0")
        /\ forall t, decode hookType hookData = Throw t -> code_of t = None)
  /\ (forall a word extra,
        encodeAddress a = Ok word -> bytes = word ++ extra ->
        exists p, decode hookType hookData = Ok p
                  /\ Spec.addresses p = [Spec.checksummed a]
                  /\ type_of p = hookType).
Proof.
  intros Hk (-> & Hbytes & Hne).
  destruct (hexlify_not_empty _ Hne) as [E1 E2].
  assert (Hdec : forall r,
            decodeAddress bytes 0 = r ->
            decode hookType (hexlify bytes)
            = bindR (let* item := defer r in readItem "index 0" item)
                    (fun a => Ok (if String.eqb hookType "nft-mint"
                                  then NFTMintHookData a
                                  else RewardPointsHookData a))).
  { intros r <-. unfold decode, decodeAddressTuple.
    destruct Hk as [-> | ->]; cbn [String.eqb Ascii.eqb Bool.eqb];
      rewrite E1, E2, (getBytes_hexlify _ Hbytes); cbn [orb bindR];
      destruct (let* item := defer (decodeAddress bytes 0) in readItem "index 0" item);
      reflexivity. }
  split; [|split].
  - intros Hlen. rewrite (Hdec _ eq_refl). unfold decodeAddress, readValue, WordSize.
    destruct (Nat.leb_spec (0 + 32) (length bytes)); [lia|].
    eexists. split; reflexivity.
  - intros v extra -> Hv. rewrite (Hdec _ eq_refl). unfold decodeAddress.
    pose proof (readValue_writeValue [] v extra ltac:(lia)) as R.
    cbn [app length] in R. rewrite R. cbn [bindR]. unfold toBeHex.
    change (16 ^ Z.of_nat (2 * 20)) with (2 ^ 160).
    destruct (Z.ltb_spec v (2 ^ 160)); [lia|].
    split; [reflexivity|]. intros t [= <-]. reflexivity.
  - intros a word extra Ha ->.
    assert (Hwf : isAddress a = true).
    { apply encodeAddress_returns. eexists; exact Ha. }
    apply isAddress_getAddress in Hwf.
    destruct (address_round_trip _ _ Hwf) as (v & Hv & Hv' & Hd).
    rewrite Ha in Hv'. injection Hv' as ->.
    specialize (Hd [] extra). cbn [app length] in Hd.
    rewrite (Hdec _ eq_refl), Hd. cbn [defer readItem bindR].
    destruct Hk as [-> | ->]; eexists; repeat split.
Qed.

Lemma sample_payload_edges :
  (exists t, decode "nft-mint" "0x010203" = Throw t
             /\ code_of t = Some "BUFFER_OVERRUN")
  /\ decode "nft-mint" (hexlify (writeValue (2 ^ 160)))
     = Throw (JsError
                "deferred error during ABI decoding triggered accessing index 0").
Proof.
  assert (Hp : payloadOf [1; 2; 3] "0x010203").
  { split; [reflexivity|]. split; [|discriminate].
    repeat (constructor; [lia|]). constructor. }
  assert (Hq : payloadOf (writeValue (2 ^ 160)) (hexlify (writeValue (2 ^ 160)))).
  { split; [reflexivity|]. split; [apply writeValue_bytes|discriminate]. }
  split.
  - apply (proj1 (decode_single_address_edges "nft-mint" [1; 2; 3] "0x010203"
                    (or_introl eq_refl) Hp)).
    cbn. lia.
  - apply (proj1 (proj2 (decode_single_address_edges "nft-mint"
                           (writeValue (2 ^ 160)) (hexlify (writeValue (2 ^ 160)))
                           (or_introl eq_refl) Hq))
             (2 ^ 160) []).
    + symmetry. apply app_nil_r.
    + lia.
Defined.

End DecodeEdges.

Section RoundTripMore.
Import HookDataCodec Ethers.

Local Arguments checksumCase : simpl never.

Lemma checksummed_fixed a : Spec.checksummed (Spec.checksummed a) = Spec.checksummed a.
Proof.
  unfold Spec.checksummed. destruct (getAddress a) as [c|] eqn:Ha.
  - rewrite (getAddress_fixed _ _ Ha). reflexivity.
  - rewrite Ha. reflexivity.
Qed.

Lemma isAddress_checksummed a : isAddress (Spec.checksummed a) = isAddress a.
Proof.
  unfold Spec.checksummed, isAddress. destruct (getAddress a) as [c|] eqn:Ha.
  - rewrite (getAddress_fixed _ _ Ha). reflexivity.
  - rewrite Ha. reflexivity.
Qed.

Lemma totalBips_canonical l acc :
  fold_left (fun sum s => Js.add sum (bips s))
            (map (fun s => {| recipient := Spec.checksummed (recipient s);
                              bips := bips s |}) l) acc
  = fold_left (fun sum s => Js.add sum (bips s)) l acc.
Proof.
  revert acc. induction l as [|s l IH]; intros acc; cbn [map fold_left bips];
    [reflexivity|apply IH].
Qed.

Lemma forallb_canonical l :
  forallb (fun s => isAddress (recipient s))
          (map (fun s => {| recipient := Spec.checksummed (recipient s);
                            bips := bips s |}) l)
  = forallb (fun s => isAddress (recipient s)) l.
Proof.
  induction l as [|s l IH]; cbn; [reflexivity|].
  rewrite IH, isAddress_checksummed. reflexivity.
Qed.

(** [validate] gives the same verdict on a value and on its canonical
    form. *)
Lemma validate_canonical p : validate (Spec.canonical p) = validate p.
Proof.
  destruct p as [a | a | [l|]]; cbn [Spec.canonical validate];
    try apply isAddress_checksummed; try reflexivity.
  destruct l as [|s l]; [reflexivity|].
  set (l' := s :: l). cbn [validate].
  replace (length (map _ l') =? 0)%nat with false by reflexivity.
  replace (length l' =? 0)%nat with false by reflexivity.
  rewrite forallb_canonical, totalBips_canonical. reflexivity.
Qed.

(** X8: the round trip of a value of the schema returns a value on which
    [validate] gives the same verdict as on the original. *)
Theorem round_trip_keeps_verdict (p : HookDataParams) :
  Spec.SchemaValue p ->
  exists q, Spec.roundTrip p = Ok q /\ validate q = validate p.
Proof.
  intros Hp. exists (Spec.canonical p). split; [apply round_trip_canonical, Hp|].
  apply validate_canonical.
Qed.

Lemma sample_verdict_kept :
  exists q, Spec.roundTrip Sample.unevenSplit = Ok q
            /\ validate q = validate Sample.unevenSplit.
Proof.
  apply (round_trip_keeps_verdict Sample.unevenSplit).
  split; [|split].
  - constructor; [vm_compute; reflexivity|].
    constructor; [vm_compute; reflexivity|]. constructor.
  - constructor; [vm_compute; split; congruence|].
    constructor; [vm_compute; split; congruence|]. constructor.
  - vm_compute. reflexivity.
Defined.

Lemma encodeAddress_checksummed a :
  isAddress a = true -> encodeAddress (Spec.checksummed a) = encodeAddress a.
Proof.
  intros Ha. pose proof (isAddress_getAddress a Ha) as Hg.
  unfold encodeAddress. rewrite Hg, (getAddress_fixed _ _ Hg). reflexivity.
Qed.

Lemma mapR_splitItem_canonical l :
  Forall SplitOk l -> mapR splitItem (map canonicalSplit l) = mapR splitItem l.
Proof.
  induction 1 as [|[r b] l [Hr _] _ IH]; [reflexivity|].
  cbn [map mapR canonicalSplit fst snd splitItem] in *. rewrite IH.
  rewrite encodeAddress_checksummed by exact Hr. reflexivity.
Qed.

Lemma encode_canonical p :
  Spec.SchemaValue p -> encode (type_of p) (Spec.canonical p) = encode (type_of p) p.
Proof.
  intros (Ha & Hb & _). unfold encode.
  destruct p as [a | a | [l|]]; cbn [type_of Spec.canonical String.eqb Ascii.eqb Bool.eqb
    get_nftContract get_rewardToken get_splits encodeAddressProperty
    Spec.addresses Spec.shares] in *.
  - inversion Ha; subst. unfold encodeAddressTuple.
    rewrite encodeAddress_checksummed by assumption. reflexivity.
  - inversion Ha; subst. unfold encodeAddressTuple.
    rewrite encodeAddress_checksummed by assumption. reflexivity.
  - destruct l as [|s l]; [reflexivity|].
    set (l' := s :: l) in *. cbn [get_splits].
    replace (length (map _ l') =? 0)%nat with false by reflexivity.
    replace (length l' =? 0)%nat with false by reflexivity.
    pose proof (splits_SplitOk _ Ha Hb) as Hok.
    unfold encodeSplitArray.
    change (fun '(r, b) => let* rw := encodeAddress r in
                           let* bw := encodeUint16 b in Ok (rw ++ bw))
      with splitItem.
    rewrite !length_map, map_map. cbn [recipient bips].
    replace (map (fun x => (Spec.checksummed (recipient x), bips x)) l')
      with (map canonicalSplit (map (fun s0 => (recipient s0, bips s0)) l'))
      by (rewrite map_map; reflexivity).
    rewrite mapR_splitItem_canonical by exact Hok. reflexivity.
  - reflexivity.
Qed.

(** X9: the payload is stable: what [decode] returns for the payload of
    a value of the schema encodes to that same payload. *)
Theorem encode_decode_encode (p : HookDataParams) (hookData : string) :
  Spec.SchemaValue p ->
  X402Discovery.encodeHookData p = Ok hookData ->
  exists q, decode (type_of p) hookData = Ok q
            /\ encode (type_of p) q = Ok hookData.
Proof.
  intros Hp He. exists (Spec.canonical p).
  pose proof (round_trip_canonical p Hp) as Hrt. unfold Spec.roundTrip in Hrt.
  unfold X402Discovery.encodeHookData in He. rewrite He in Hrt. cbn [bindR] in Hrt.
  split; [exact Hrt|]. rewrite encode_canonical by exact Hp. exact He.
Qed.

Lemma sample_reencoding :
  exists q,
    decode (type_of Sample.lowerCaseMint)
      "0x000000000000000000000000c21223249ca28397b4b6541dffaecc539bff0c59" = Ok q
    /\ encode (type_of Sample.lowerCaseMint) q
       = Ok "0x000000000000000000000000c21223249ca28397b4b6541dffaecc539bff0c59".
Proof.
  apply (encode_decode_encode Sample.lowerCaseMint).
  - split; [|split].
    + constructor; [vm_compute; reflexivity | constructor].
    + constructor.
    + vm_compute. reflexivity.
  - vm_compute. reflexivity.
Defined.

End RoundTripMore.

(** * Further properties of the client *)

Section Submission.
Import Ledger X402Client.
Context {W : Type} (E : Env W).

Lemma takeNonQuote_spec l :
  (dquote ∉ takeNonQuote l)
  /\ l = takeNonQuote l ++ skipn (length (takeNonQuote l)) l
  /\ (forall group rest, l = group ++ dquote :: rest -> dquote ∉ group ->
                         takeNonQuote l = group).
Proof.
  induction l as [|c l (IH1 & IH2 & IH3)]; cbn [takeNonQuote].
  - split; [apply not_elem_of_nil|]. split; [reflexivity|].
    intros [|? ?] ? ?; discriminate.
  - destruct (Ascii.eqb_spec c dquote) as [->|Hc].
    + split; [apply not_elem_of_nil|]. split; [reflexivity|].
      intros [|d group] rest Hl Hg; [reflexivity|].
      injection Hl as <- _. exfalso. apply Hg. left.
    + split; [|split].
      * rewrite not_elem_of_cons. split; [congruence|exact IH1].
      * cbn [length skipn app]. f_equal. exact IH2.
      * intros [|d group] rest Hl Hg; injection Hl as -> Hl; [congruence|].
        f_equal. apply (IH3 _ rest Hl). rewrite not_elem_of_cons in Hg. tauto.
Qed.

Lemma startsWith_app (l p : list ascii) :
  startsWith l p = true <-> exists rest, l = p ++ rest.
Proof.
  revert l. induction p as [|c p IH]; intros l; cbn [startsWith].
  - split; [intros _; exists l; reflexivity | reflexivity].
  - destruct l as [|d l].
    + split; [discriminate | intros [rest H]; discriminate].
    + rewrite andb_true_iff, IH. split.
      * intros [Hc [rest ->]]. apply Ascii.eqb_eq in Hc as ->. exists rest. reflexivity.
      * intros [rest H]. injection H as -> ->. split; [apply Ascii.eqb_refl|].
        exists rest. reflexivity.
Qed.

(** The match attempted at the head of the text. *)
Lemma reason_here l group :
  (let pre := chars "reason=" ++ [dquote] in
   if startsWith l pre then
     let body := skipn (length pre) l in
     let group := takeNonQuote body in
     match group, skipn (length group) body with
     | _ :: _, q :: _ => if Ascii.eqb q dquote then Some group else None
     | _, _ => None
     end
   else None) = Some group
  <-> reasonAt [] group l.
Proof.
  cbv zeta. set (pre := chars "reason=" ++ [dquote]).
  destruct (startsWith l pre) eqn:Hs.
  - apply startsWith_app in Hs as [body ->].
    rewrite drop_app_length.
    destruct (takeNonQuote_spec body) as (H1 & H2 & H3).
    split.
    + destruct (takeNonQuote body) as [|c g] eqn:Hg; [discriminate|].
      destruct (skipn _ body) as [|q post] eqn:Hp; [discriminate|].
      destruct (Ascii.eqb_spec q dquote) as [->|]; [|discriminate].
      intros [= <-]. exists post. split; [|split; [discriminate|exact H1]].
      cbn [app]. rewrite H2 at 1. unfold pre. rewrite <- !app_assoc. reflexivity.
    + intros (post & Hl & Hne & Hq). cbn [app] in Hl.
      assert (Hb : body = group ++ dquote :: post).
      { unfold pre in Hl. rewrite <- app_assoc in Hl.
        apply app_inv_head in Hl. cbn [app] in Hl. injection Hl as ->. reflexivity. }
      rewrite (H3 _ _ Hb Hq). clear H1 H2 H3 Hl. subst body.
      destruct group as [|c g]; [congruence|].
      rewrite drop_app_length, Ascii.eqb_refl. reflexivity.
  - split; [discriminate|]. intros (post & Hl & _). exfalso.
    assert (startsWith l pre = true); [|congruence].
    apply startsWith_app. exists (group ++ [dquote] ++ post).
    rewrite Hl. unfold pre. cbn [app]. rewrite <- !app_assoc. reflexivity.
Qed.

Lemma matchRevertReason_eq l :
  matchRevertReason l
  = match (let pre := chars "reason=" ++ [dquote] in
           if startsWith l pre then
             let body := skipn (length pre) l in
             let group := takeNonQuote body in
             match group, skipn (length group) body with
             | _ :: _, q :: _ => if Ascii.eqb q dquote then Some group else None
             | _, _ => None
             end
           else None) with
    | Some g => Some g
    | None => match l with [] => None | _ :: rest => matchRevertReason rest end
    end.
Proof. destruct l; reflexivity. Qed.

Lemma reasonAt_cons c pre group l :
  reasonAt pre group l -> reasonAt (c :: pre) group (c :: l).
Proof. intros (post & -> & H). exists post. split; [reflexivity|exact H]. Qed.

(** X10: the revert reason that [submitTransaction] reports is the group
    of the leftmost place where the message holds the pattern, and a
    reason is reported whenever the message holds the pattern somewhere. *)
Theorem matchRevertReason_leftmost (l : list ascii) :
  (forall group, matchRevertReason l = Some group ->
     exists pre, reasonAt pre group l
       /\ forall pre' group', reasonAt pre' group' l -> (length pre <= length pre')%nat)
  /\ ((exists pre group, reasonAt pre group l) -> is_Some (matchRevertReason l)).
Proof.
  induction l as [|c l [IH1 IH2]].
  - split.
    + intros group H. rewrite matchRevertReason_eq in H.
      cbn in H. discriminate.
    + intros (pre & group & post & Hl & _). exfalso.
      apply (f_equal (@length ascii)) in Hl.
      rewrite !length_app in Hl. cbn in Hl. lia.
  - rewrite matchRevertReason_eq.
    match goal with |- context [match ?h with Some g => Some g | None => _ end] =>
      destruct h as [g|] eqn:Hh end.
    + apply reason_here in Hh. split.
      * intros group [= <-]. exists []. split; [exact Hh|]. intros; cbn; lia.
      * intros _. eexists; reflexivity.
    + assert (Hnot : forall group, ~ reasonAt [] group (c :: l)).
      { intros group Hr. apply reason_here in Hr. rewrite Hh in Hr. discriminate. }
      assert (Hshift : forall pre group, reasonAt pre group (c :: l) ->
                exists pre', pre = c :: pre' /\ reasonAt pre' group l).
      { intros [|d pre] group Hr; [destruct (Hnot _ Hr)|].
        destruct Hr as (post & Hl & H). cbn [app] in Hl. injection Hl as <- ->.
        exists pre. split; [reflexivity|]. exists post. split; [reflexivity|exact H]. }
      split.
      * intros group Hm. destruct (IH1 _ Hm) as (pre & Hr & Hmin).
        exists (c :: pre). split; [apply reasonAt_cons; exact Hr|].
        intros pre' group' Hr'. destruct (Hshift _ _ Hr') as (pre'' & -> & Hr'').
        cbn [length]. specialize (Hmin _ _ Hr''). lia.
      * intros (pre & group & Hr). destruct (Hshift _ _ Hr) as (pre' & _ & Hr').
        apply IH2. exists pre', group. exact Hr'.
Qed.

(** What the [catch] of [submitTransaction] throws for [e]. *)
Lemma submit_catch (e : Thrown) (s : Ledger.State W) :
  (if instanceofError e
   then throw (TransactionError ("Transaction failed: " +:+ message_of e) None
                 (option_map str (matchRevertReason (chars (message_of e)))))
   else throw e) s
  = (Throw (if instanceofError e
            then TransactionError ("Transaction failed: " +:+ message_of e) None
                   (option_map str (matchRevertReason (chars (message_of e))))
            else e) : Result TransactionResult, s).
Proof. destruct (instanceofError e); reflexivity. Qed.

(** X11: a call of [submitTransaction] that returns has asked for the
    send of the transaction and then waited for its receipt, in this
    order and nothing else. The send answered with the transaction, the
    wait on that transaction, in the world the send left, answered with
    the receipt, and the result carries the hash and the block number of
    that receipt and one event for each of its logs, in the order of the
    logs: the name and the named arguments of a log that the interface
    parses, the event Unknown for any other log. *)
Theorem submitTransaction_returns (prepared : PreparedTransaction)
        (signature signerPrivateKey : string) (s s' : Ledger.State W)
        (result : TransactionResult) :
  submitTransaction E prepared signature signerPrivateKey s = (Ok result, s') ->
  let send := router_settleAndExecute E (world s) (routerAddress prepared)
                signerPrivateKey (MoreSpec.settleArgs prepared signature) in
  Spec.SignatureShape signature
  /\ exists tx receipt,
      fst send = Ok tx
      /\ fst (tx_wait E (snd send) tx) = Ok receipt
      /\ world s' = snd (tx_wait E (snd send) tx)
      /\ trace s'
         = trace s ++ [SendSettleAndExecute (routerAddress prepared) signerPrivateKey
                         (MoreSpec.settleArgs prepared signature);
                       WaitForReceipt tx]
      /\ success result = true
      /\ txHash result = hash receipt
      /\ blockNumber result = Ledger.blockNumber receipt
      /\ Forall2 (fun log event =>
                    match interface_parseLog E log with
                    | Ok (Some parsed) =>
                        event_name event = log_name parsed
                        /\ event_args event
                           = eventArgs (log_inputs parsed) (log_args parsed)
                    | _ => event = MoreSpec.unknownEvent
                    end)
                 (logs receipt) (events result).
Proof.
  unfold submitTransaction. intros H. cbv zeta.
  destruct (validateSignature signature) eqn:Hv; [|discriminate].
  split; [apply validateSignature_shape; exact Hv|].
  cbn [negb] in H. unfold tryCatch, bind, request, ret in H.
  fold (MoreSpec.settleArgs prepared signature) in H.
  destruct (router_settleAndExecute E (world s) _ _ _) as [[tx|e] w1] eqn:H1;
    cbn [world trace] in H; [|rewrite submit_catch in H; discriminate].
  cbn [fst snd].
  destruct (tx_wait E w1 tx) as [[receipt|e] w2] eqn:H2;
    cbn [world trace] in H; [|rewrite submit_catch in H; discriminate].
  injection H as <- <-. exists tx, receipt. rewrite H2.
  cbn [fst snd world trace success txHash blockNumber events].
  rewrite <- app_assoc. repeat split.
  induction (logs receipt) as [|log rest IH]; cbn [map]; constructor; [|exact IH].
  unfold parseEvent. destruct (interface_parseLog E log) as [[parsed|]|]; try reflexivity.
  split; reflexivity.
Qed.

(** X12: what [submitTransaction] throws. A signature of the wrong
    shape is refused before anything is sent. After that, a failure of
    the send or of the wait is thrown as a [TransactionError] whose
    message is the cause's under a fixed prefix and which carries no
    transaction hash, also when the transaction had been sent; a thrown
    value that is not an [Error] is thrown on as it is. *)
Theorem submitTransaction_throws (prepared : PreparedTransaction)
        (signature signerPrivateKey : string) (s s' : Ledger.State W) (t : Thrown) :
  submitTransaction E prepared signature signerPrivateKey s = (Throw t, s') ->
  let send := router_settleAndExecute E (world s) (routerAddress prepared)
                signerPrivateKey (MoreSpec.settleArgs prepared signature) in
  let sent := SendSettleAndExecute (routerAddress prepared) signerPrivateKey
                (MoreSpec.settleArgs prepared signature) in
  (validateSignature signature = false
   /\ t = SignatureError "Invalid signature format"
            (Some "Signature must be a 65-byte hex string starting with 0x")
   /\ s' = s)
  \/ (validateSignature signature = true
      /\ exists e,
          (instanceofError e = true ->
           t = TransactionError ("Transaction failed: " +:+ message_of e) None
                 (option_map str (matchRevertReason (chars (message_of e)))))
          /\ (instanceofError e = false -> t = e)
          /\ ((fst send = Throw e /\ trace s' = trace s ++ [sent])
              \/ exists tx,
                  fst send = Ok tx
                  /\ fst (tx_wait E (snd send) tx) = Throw e
                  /\ trace s' = trace s ++ [sent; WaitForReceipt tx])).
Proof.
  intros H send sent. unfold submitTransaction in H.
  destruct (validateSignature signature) eqn:Hv; cbn [negb] in H.
  2:{ left. injection H as <- <-. repeat split. }
  right. split; [reflexivity|].
  unfold tryCatch, bind, request, ret in H.
  fold (MoreSpec.settleArgs prepared signature) in H. fold send in H. fold sent in H.
  assert (Hcase : forall e, (instanceofError e = true ->
             (if instanceofError e
              then TransactionError ("Transaction failed: " +:+ message_of e) None
                     (option_map str (matchRevertReason (chars (message_of e))))
              else e)
             = TransactionError ("Transaction failed: " +:+ message_of e) None
                 (option_map str (matchRevertReason (chars (message_of e)))))
           /\ (instanceofError e = false ->
               (if instanceofError e
                then TransactionError ("Transaction failed: " +:+ message_of e) None
                       (option_map str (matchRevertReason (chars (message_of e))))
                else e) = e)).
  { intros e. destruct (instanceofError e); split; intros; congruence. }
  destruct send as [[tx|e] w1] eqn:H1; cbn [world trace fst snd] in *.
  - destruct (tx_wait E w1 tx) as [[receipt|e] w2] eqn:H2;
      cbn [world trace] in H; [discriminate|].
    rewrite submit_catch in H. injection H as <- <-. exists e.
    split; [apply Hcase|]. split; [apply Hcase|]. right. exists tx.
    cbn [trace]. rewrite <- app_assoc, H2. repeat split.
  - rewrite submit_catch in H. injection H as <- <-. exists e.
    split; [apply Hcase|]. split; [apply Hcase|]. left. split; reflexivity.
Qed.

End Submission.

Section Preparation.
Import Ledger X402Client MoreSpec.
Context {W : Type} (E : Env W).

Lemma calculateCommitment_run routerAddress commitment (l : Ledger.State W) :
  ContractReader.calculateCommitment E routerAddress commitment l
  = (match fst (router_calculateCommitment E (world l) routerAddress commitment) with
     | Ok nonce => Ok nonce
     | Throw e => Throw (wrapFailure "Failed to calculate commitment: " e)
     end,
     {| world := snd (router_calculateCommitment E (world l) routerAddress commitment);
        trace := trace l ++ [ReadCommitment routerAddress commitment] |}).
Proof.
  unfold ContractReader.calculateCommitment, tryCatch, bind, request, wrapFailure.
  destruct (router_calculateCommitment E (world l) routerAddress commitment)
    as [[r|e] w']; cbn [fst snd]; [reflexivity|].
  destruct (instanceofError e); reflexivity.
Qed.

Lemma getTokenInfo_run tokenAddress (l : Ledger.State W) :
  let name := token_name E (world l) tokenAddress in
  let version := token_version E (snd name) tokenAddress in
  ContractReader.getTokenInfo E tokenAddress l
  = (match fst name, fst version with
     | Ok n, Ok v => Ok (n, v)
     | Throw e, _ | Ok _, Throw e => Throw (wrapFailure "Failed to read token info: " e)
     end,
     {| world := snd version;
        trace := trace l ++ [ReadTokenName tokenAddress; ReadTokenVersion tokenAddress] |}).
Proof.
  cbv zeta. unfold ContractReader.getTokenInfo, tryCatch, request, wrapFailure.
  destruct (token_name E (world l) tokenAddress) as [rn w1]. cbn [world trace fst snd].
  destruct (token_version E w1 tokenAddress) as [rv w2]. cbn [fst snd].
  rewrite <- app_assoc. cbn [app].
  destruct rn as [n|e]; [destruct rv as [v|e]|]; try reflexivity;
    unfold throw; destruct (instanceofError e); reflexivity.
Qed.

(** X13: a call of [prepareTransaction] that returns has issued three
    reads, in this order: the commitment, from the router of the service
    and over exactly the fields it returns, then the name and the version
    of the token. The nonce is the commitment the ledger answered, the
    salt the text of the random bytes, and the payload the encoding of
    the parameters under the hook type of the service. *)
Theorem prepareTransaction_reads (txParams : TransactionParams)
        (s s' : Ledger.State W) (prepared : PreparedTransaction) :
  prepareTransaction E txParams s = (Ok prepared, s') ->
  trace s'
  = trace s ++ [ReadCommitment (routerAddress prepared) (commitmentOf prepared);
                ReadTokenName (p_token (params prepared));
                ReadTokenVersion (p_token (params prepared))]
  /\ fst (router_calculateCommitment E (afterAmbient E (world s))
            (routerAddress prepared) (commitmentOf prepared))
     = Ok (nonce prepared)
  /\ routerAddress prepared = settlementRouter (service txParams)
  /\ p_hook (params prepared) = hookAddress (service txParams)
  /\ p_token (params prepared) = usdcAddress (service txParams)
  /\ p_from (params prepared) = payerAddress txParams
  /\ p_payTo (params prepared) = payTo txParams
  /\ salt prepared = Ethers.hexlify (fst (randomBytes E (world s) 32))
  /\ HookDataCodec.encode (hookType (service txParams)) (hookDataParams txParams)
     = Ok (hookData prepared)
  /\ Ethers.parseUnits (paymentAmount txParams) 6 = Ok (p_value (params prepared)).
Proof.
  unfold prepareTransaction, bind, liftR, ambient, ret, afterAmbient.
  destruct (HookDataCodec.encode _ _) as [hd|]; [|discriminate].
  destruct (randomBytes E (world s) 32) as [random w1]. cbn [world trace fst snd].
  destruct (date_now E w1) as [now w2]. cbn [world trace fst snd].
  destruct (Ethers.parseUnits (paymentAmount txParams) 6) as [value|]; [|discriminate].
  destruct (Ethers.parseUnits _ 6) as [fee|]; [|discriminate].
  rewrite calculateCommitment_run. cbn [world trace].
  match goal with |- context [router_calculateCommitment E w2 ?r ?c] =>
    destruct (router_calculateCommitment E w2 r c) as [[answered|] w3] eqn:Hc end;
    cbn [fst snd]; [|discriminate].
  rewrite getTokenInfo_run. cbv zeta. cbn [world trace].
  destruct (token_name E w3 _) as [[n|] w4]; cbn [fst snd];
    [|discriminate].
  destruct (token_version E w4 _) as [[v|] w5]; cbn [fst snd]; [|discriminate].
  intros [= <- <-]. cbn [trace routerAddress params nonce salt hookData p_token p_hook
                          p_from p_payTo p_value]. unfold commitmentOf.
  cbn [routerAddress params nonce salt hookData p_token p_hook p_from p_payTo p_value
       p_validAfter p_validBefore p_facilitatorFee].
  rewrite Hc, <- app_assoc. repeat split; reflexivity.
Qed.

(** X14: the typed data that is handed out for signing authorises a
    transfer from the payer to the settlement router (not to [payTo]) of
    the value that is sent to the router, under the nonce that commits to
    the remaining fields; its domain names the token of the service with
    the name and version that the ledger answered. *)
Theorem typed_data_matches_prepared (txParams : TransactionParams)
        (s s' : Ledger.State W) (prepared : PreparedTransaction) :
  prepareTransaction E txParams s = (Ok prepared, s') ->
  let typed := X402Discovery.getTypedDataForSigning prepared in
  primaryType typed = "TransferWithAuthorization"
  /\ map fst (types_TransferWithAuthorization typed)
     = ["from"; "to"; "value"; "validAfter"; "validBefore"; "nonce"]
  /\ m_from (message typed) = p_from (params prepared)
  /\ m_to (message typed) = routerAddress prepared
  /\ m_value (message typed) = pretty (p_value (params prepared))
  /\ m_nonce (message typed) = nonce prepared
  /\ d_verifyingContract (domain typed) = p_token (params prepared)
  /\ d_chainId (domain typed) = chainId (service txParams)
  /\ exists w w',
      fst (token_name E w (p_token (params prepared))) = Ok (d_name (domain typed))
      /\ fst (token_version E w' (p_token (params prepared)))
         = Ok (d_version (domain typed)).
Proof.
  unfold prepareTransaction, bind, liftR, ambient, ret, X402Discovery.getTypedDataForSigning.
  destruct (HookDataCodec.encode _ _) as [hd|]; [|discriminate].
  destruct (randomBytes E (world s) 32) as [random w1]. cbn [world trace fst snd].
  destruct (date_now E w1) as [now w2]. cbn [world trace fst snd].
  destruct (Ethers.parseUnits (paymentAmount txParams) 6) as [value|]; [|discriminate].
  destruct (Ethers.parseUnits _ 6) as [fee|]; [|discriminate].
  rewrite calculateCommitment_run. cbn [world trace].
  match goal with |- context [router_calculateCommitment E w2 ?r ?c] =>
    destruct (router_calculateCommitment E w2 r c) as [[answered|] w3] end;
    cbn [fst snd]; [|discriminate].
  rewrite getTokenInfo_run. cbv zeta. cbn [world trace].
  destruct (token_name E w3 _) as [[n|] w4] eqn:Hn; cbn [fst snd];
    [|discriminate].
  destruct (token_version E w4 _) as [[v|] w5] eqn:Hv; cbn [fst snd]; [|discriminate].
  intros [= <- <-]. cbn. repeat split.
  exists w3, w4. rewrite Hn, Hv. split; reflexivity.
Qed.


(** X16: when the parameters are of the hook type of the service, the
    payload of the prepared transaction decodes under that type to the
    parameters in canonical form. *)
Theorem prepared_payload_decodes (txParams : TransactionParams)
        (s s' : Ledger.State W) (prepared : PreparedTransaction) :
  prepareTransaction E txParams s = (Ok prepared, s') ->
  HookDataCodec.type_of (hookDataParams txParams) = hookType (service txParams) ->
  Spec.SchemaValue (hookDataParams txParams) ->
  HookDataCodec.decode (hookType (service txParams)) (hookData prepared)
  = Ok (Spec.canonical (hookDataParams txParams)).
Proof.
  intros H Hk Hv. pose proof (round_trip_canonical _ Hv) as Hr.
  unfold Spec.roundTrip in Hr. rewrite Hk in Hr.
  revert H. unfold prepareTransaction, bind, liftR, ambient, ret.
  destruct (HookDataCodec.encode _ _) as [hd|]; [|discriminate].
  destruct (randomBytes E (world s) 32) as [random w1]. cbn [world trace fst snd].
  destruct (date_now E w1) as [now w2]. cbn [world trace fst snd].
  destruct (Ethers.parseUnits (paymentAmount txParams) 6) as [value|]; [|discriminate].
  destruct (Ethers.parseUnits _ 6) as [fee|]; [|discriminate].
  destruct (ContractReader.calculateCommitment _ _ _ _) as [[nonce|] l1]; [|discriminate].
  destruct (ContractReader.getTokenInfo _ _ _) as [[info|] l2]; [|discriminate].
  intros [= <- _]. exact Hr.
Qed.

End Preparation.

(** * The amounts of [prepareTransaction] *)

Section AmountClaim.
Import Ledger X402Client MoreSpec Ethers Spec.
Context {W : Type} (E : Env W).

(** C9, as amended. [prepareTransaction] parses the payment amount and
    the fee (the text 0 when none is given) at six fractional digits: the
    values it returns are these parses, a parse that fails is thrown as it
    is before any operation of the ledger is attempted, and in a world
    that answers the reads it returns whenever the payload encodes and
    both texts parse. The parse: the text 0.1 gives 100000, the text 0
    gives 0, the text 0.0000001 fails; a text that is not a decimal text
    fails as an invalid argument; a decimal text with at most six
    fractional digits, followed by any number of zeros, gives its
    fixed-point value, or fails as a numeric fault beyond the width of
    512 bits; and a decimal text with a digit other than 0 after the
    sixth fractional place fails as a numeric fault. *)
Theorem C9_amount_parsing (txParams : TransactionParams) (s : Ledger.State W) :
  let amount := paymentAmount txParams in
  let fee := orString (facilitatorFee txParams) "0" in
  let encoded := HookDataCodec.encode (hookType (service txParams))
                   (hookDataParams txParams) in
  (forall prepared s',
      prepareTransaction E txParams s = (Ok prepared, s') ->
      parseUnits amount 6 = Ok (p_value (params prepared))
      /\ parseUnits fee 6 = Ok (p_facilitatorFee (params prepared))
      /\ m_value (message (typedData prepared)) = pretty (p_value (params prepared)))
  /\ (forall t,
        returns encoded ->
        parseUnits amount 6 = Throw t
        \/ (returns (parseUnits amount 6) /\ parseUnits fee 6 = Throw t) ->
        exists s', prepareTransaction E txParams s = (Throw t, s')
                   /\ trace s' = trace s)
  /\ (forall value feeValue,
        Answering E -> returns encoded ->
        parseUnits amount 6 = Ok value -> parseUnits fee 6 = Ok feeValue ->
        exists prepared s',
          prepareTransaction E txParams s = (Ok prepared, s')
          /\ p_value (params prepared) = value
          /\ p_facilitatorFee (params prepared) = feeValue)
  /\ parseUnits "0.1" 6 = Ok 100000
  /\ parseUnits "0" 6 = Ok 0
  /\ (exists t, parseUnits "0.0000001" 6 = Throw t
                /\ code_of t = Some "NUMERIC_FAULT")
  /\ (forall text,
        ~ DecimalText (chars text) ->
        exists t, parseUnits text 6 = Throw t
                  /\ code_of t = Some "INVALID_ARGUMENT")
  /\ (forall sign whole point frac zeros,
        sign = [] \/ sign = chars "-" ->
        point = chars "." \/ (point = [] /\ frac = [] /\ zeros = O) ->
        forallb isDigit whole = true -> forallb isDigit frac = true ->
        (length frac <= 6)%nat ->
        (0 < length whole + length frac + zeros)%nat ->
        (fixedPoint6 whole frac < 2 ^ 511 ->
         parseUnits (str (sign ++ whole ++ point ++ frac ++ repeat "0"%char zeros)) 6
         = Ok (if bool_decide (sign = chars "-")
               then - fixedPoint6 whole frac else fixedPoint6 whole frac))
        /\ (2 ^ 511 < fixedPoint6 whole frac ->
            exists t,
              parseUnits (str (sign ++ whole ++ point ++ frac ++ repeat "0"%char zeros)) 6
              = Throw t
              /\ code_of t = Some "NUMERIC_FAULT"))
  /\ (forall sign whole frac,
        sign = [] \/ sign = chars "-" ->
        forallb isDigit whole = true -> forallb isDigit frac = true ->
        (exists c, c ∈ skipn 6 frac /\ c <> "0"%char) ->
        exists t, parseUnits (str (sign ++ whole ++ chars "." ++ frac)) 6 = Throw t
                  /\ code_of t = Some "NUMERIC_FAULT").
Proof.
  cbv zeta. split; [|split; [|split]].
  - intros prepared s'.
    unfold prepareTransaction, bind, liftR, ambient, ret.
    destruct (HookDataCodec.encode _ _) as [hd|]; [|discriminate].
    destruct (randomBytes E (world s) 32) as [random w1]. cbn [world trace fst snd].
    destruct (date_now E w1) as [now w2]. cbn [world trace fst snd].
    destruct (parseUnits (paymentAmount txParams) 6) as [value|]; [|discriminate].
    destruct (parseUnits _ 6) as [fee|]; [|discriminate].
    destruct (ContractReader.calculateCommitment _ _ _ _) as [[nonce|] l1];
      [|discriminate].
    destruct (ContractReader.getTokenInfo _ _ _) as [[info|] l2]; [|discriminate].
    intros [= <- <-]. repeat split.
  - intros t [hd Hhd] Hparse.
    unfold prepareTransaction, bind, liftR, ambient, ret. rewrite Hhd.
    destruct (randomBytes E (world s) 32) as [random w1]. cbn [world trace fst snd].
    destruct (date_now E w1) as [now w2]. cbn [world trace fst snd].
    destruct Hparse as [-> | [[value ->] ->]]; eexists; split; reflexivity.
  - intros value feeValue (Hcommit & Hname & Hversion) [hd Hhd] Hvalue Hfee.
    unfold prepareTransaction, bind, liftR, ambient, ret. rewrite Hhd.
    destruct (randomBytes E (world s) 32) as [random w1]. cbn [world trace fst snd].
    destruct (date_now E w1) as [now w2]. cbn [world trace fst snd].
    rewrite Hvalue, Hfee. rewrite calculateCommitment_run. cbn [world trace].
    match goal with |- context [router_calculateCommitment E w2 ?r ?c] =>
      destruct (Hcommit w2 r c) as [answered Hc];
      destruct (router_calculateCommitment E w2 r c) as [ra w3] end.
    cbn [fst snd] in *. subst ra.
    rewrite getTokenInfo_run. cbv zeta. cbn [world trace].
    match goal with |- context [token_name E w3 ?a] =>
      destruct (Hname w3 a) as [n Hn];
      destruct (token_name E w3 a) as [rn w4] end.
    cbn [fst snd] in *. subst rn.
    match goal with |- context [token_version E w4 ?a] =>
      destruct (Hversion w4 a) as [v Hv];
      destruct (token_version E w4 a) as [rv w5] end.
    cbn [fst snd] in *. subst rv.
    eexists _, _. split; [reflexivity|]. split; reflexivity.
  - split; [vm_compute; reflexivity|]. split; [vm_compute; reflexivity|].
    split; [eexists; split; vm_compute; reflexivity|].
    split; [|split].
    + intros text Ht. rewrite (parseUnits_not_text text Ht).
      eexists. split; reflexivity.
    + intros sign whole point frac zeros Hsign Hpoint Hw Hf Hlen Hpos.
      destruct (parseUnits_text sign whole point frac zeros Hsign Hpoint Hw Hf Hlen Hpos)
        as [Hin Hout].
      split; [exact Hin|]. intros Hmax. rewrite (Hout Hmax).
      eexists. split; reflexivity.
    + intros sign whole frac Hsign Hw Hf Hex.
      rewrite (parseUnits_excess sign whole frac Hsign Hw Hf Hex).
      eexists. split; reflexivity.
Qed.

(** C9, as stated, fails: a text with seven fractional digits parses when
    the seventh is 0. *)
Lemma C9_seven_fractional_digits_parse :
  fractionalDigits (chars "0.1000000") = 7%nat
  /\ parseUnits "0.1000000" 6 = Ok 100000.
Proof. split; vm_compute; reflexivity. Qed.

End AmountClaim.

(** C9 in the sample world: the amount 0.1 and no fee are prepared as
    100000 and 0, and the text 12.5 followed by seven zeros parses to
    12500000. *)
Lemma C9_witness_sample_amounts :
  (exists prepared s',
      X402Client.prepareTransaction Sample.env (Sample.txParams None None) Sample.ledger0
      = (Ok prepared, s')
      /\ X402Client.p_value (X402Client.params prepared) = 100000
      /\ X402Client.p_facilitatorFee (X402Client.params prepared) = 0)
  /\ Ethers.parseUnits "12.50000000" 6 = Ok 12500000.
Proof.
  pose proof (C9_amount_parsing Sample.env (Sample.txParams None None) Sample.ledger0)
    as (_ & _ & Hreturns & _ & _ & _ & _ & Hvalue & _).
  split.
  - apply Hreturns.
    + split; [|split]; intros; eexists; reflexivity.
    + eexists. vm_compute. reflexivity.
    + vm_compute. reflexivity.
    + vm_compute. reflexivity.
  - apply (proj1 (Hvalue [] (chars "12") (chars ".") (chars "5") 7%nat
                    (or_introl eq_refl) (or_introl eq_refl) eq_refl eq_refl
                    ltac:(vm_compute; lia) ltac:(vm_compute; lia))).
    vm_compute. reflexivity.
Defined.


(** * Further properties of the server *)

Section RegistryMore.
Import Ledger X402Server Spec MoreSpec.
Context {W : Type} (E : Env W) (this : X402Server).
Implicit Types (serviceConfig : gmap string JsValue) (s : State W).

Lemma addService_trace serviceConfig s :
  trace (ledger (snd (addService E this serviceConfig s)))
  = trace (ledger s)
    ++ (if complete serviceConfig
        then [ReadSettlementRouter (prop serviceConfig "hookAddress")]
        else []).
Proof.
  rewrite addService_run.
  destruct (complete serviceConfig) eqn:Hc.
  - apply complete_filter in Hc. rewrite Hc. cbv zeta.
    destruct (fst (hook_settlementRouter E _ _)); reflexivity.
  - destruct (List.filter _ _) eqn:Hf.
    + apply complete_filter in Hf. congruence.
    + cbn [snd]. rewrite app_nil_r. reflexivity.
Qed.

(** X17: over a sequence of registrations the read of the settlement
    router is attempted once for each configuration that has every
    required field, for its hook address and in the order of the calls,
    whether the registration then succeeds or not; a configuration with
    a missing field causes no attempt. An attempt is the call into the
    library, which can refuse it before anything is sent (a hook address
    that is no address): the trace is an upper bound of the reads that
    reach the ledger. *)
Theorem addServices_reads (configs : list (gmap string JsValue)) s :
  trace (ledger (addServices E this configs s))
  = trace (ledger s)
    ++ map (fun serviceConfig =>
              ReadSettlementRouter (prop serviceConfig "hookAddress"))
           (List.filter complete configs).
Proof.
  revert s. induction configs as [|c configs IH]; intros s; cbn [addServices List.filter map].
  - rewrite app_nil_r. reflexivity.
  - rewrite IH, addService_trace. destruct (complete c); cbn [map].
    + rewrite <- app_assoc. reflexivity.
    + rewrite app_nil_r. reflexivity.
Qed.

Lemma map_get_is_Some {K V} `{EqDecision K} (k : K) (m : list (K * V)) :
  is_Some (map_get k m) <-> k ∈ map_keys m.
Proof.
  induction m as [|[k' v] m IH]; cbn [map_get map_keys map fst].
  - split; [intros [? ?]; discriminate | intros H; inversion H].
  - destruct (decide (k' = k)) as [->|Hne].
    + split; [intros _; left | intros _; eexists; reflexivity].
    + rewrite IH, elem_of_cons. unfold map_keys. split; [auto|].
      intros [->|H]; [congruence|exact H].
Qed.

(** X18: after a sequence of registrations on an empty registry, a
    service is found under an id exactly when a registration under that
    id returned. *)
Theorem getService_registered (configs : list (gmap string JsValue)) s (id : JsValue) :
  services s = [] ->
  (is_Some (getService id (addServices E this configs s))
   <-> id ∈ registeredIds E this configs s).
Proof.
  intros Hs. unfold getService. rewrite map_get_is_Some.
  rewrite (addServices_keys E this configs s []) by (rewrite Hs; reflexivity).
  cbn [app]. apply elem_of_firstOccurrences.
Qed.

Lemma prop_resolvedRecord ns routerAddress serviceConfig field :
  field ∈ requiredFields ->
  prop (resolvedRecord ns routerAddress serviceConfig) field = prop serviceConfig field.
Proof.
  intros Hf. unfold prop, resolvedRecord.
  rewrite !lookup_insert_ne; [reflexivity| | |];
    intros <-; unfold requiredFields in Hf;
    repeat (apply elem_of_cons in Hf as [Hf|Hf]; [discriminate|]); inversion Hf.
Qed.

Lemma complete_resolvedRecord ns routerAddress serviceConfig :
  complete (resolvedRecord ns routerAddress serviceConfig) = complete serviceConfig.
Proof.
  unfold complete, missingField, requiredFields. cbn [forallb].
  rewrite !prop_resolvedRecord by (apply list_elem_of_In; cbn; tauto).
  reflexivity.
Qed.

Lemma Forall_map_set {K V} `{EqDecision K} (P : K * V -> Prop) k v (m : list (K * V)) :
  P (k, v) -> Forall P m -> Forall P (map_set k v m).
Proof.
  intros Hv. induction 1 as [|[k' v'] m Hx Hm IH]; cbn [map_set].
  - repeat constructor. exact Hv.
  - destruct (decide (k' = k)); constructor; assumption.
Qed.

Lemma addService_wellStored serviceConfig s :
  Forall wellStored (services s) ->
  Forall wellStored (services (snd (addService E this serviceConfig s))).
Proof.
  intros Hs. rewrite addService_run.
  destruct (List.filter _ _) eqn:Hf; [|exact Hs]. cbv zeta.
  destruct (fst (hook_settlementRouter E _ _)) as [routerAddress|]; [|exact Hs].
  cbn [snd services]. apply Forall_map_set; [|exact Hs].
  unfold wellStored. cbn [fst snd]. split; [|split].
  - apply prop_resolvedRecord. unfold requiredFields. left.
  - rewrite complete_resolvedRecord. apply complete_filter. exact Hf.
  - exists routerAddress. unfold resolvedRecord.
    rewrite !lookup_insert_ne by discriminate. apply lookup_insert_eq.
Qed.

Lemma addServices_wellStored configs s :
  Forall wellStored (services s) ->
  Forall wellStored (services (addServices E this configs s)).
Proof.
  revert s. induction configs as [|c configs IH]; intros s Hs; [exact Hs|].
  cbn [addServices]. apply IH, addService_wellStored, Hs.
Qed.

Lemma map_get_NoDup {K V} `{EqDecision K} (k : K) (v : V) (m : list (K * V)) :
  NoDup (map_keys m) -> (k, v) ∈ m -> map_get k m = Some v.
Proof.
  induction m as [|[k' v'] m IH]; cbn [map_keys map fst map_get]; intros Hn Hin.
  - inversion Hin.
  - apply NoDup_cons in Hn as [Hk Hn]. apply elem_of_cons in Hin as [Heq|Hin].
    + injection Heq as <- <-. rewrite decide_True by reflexivity. reflexivity.
    + destruct (decide (k' = k)) as [->|Hne]; [|apply IH; assumption].
      exfalso. apply Hk. apply list_elem_of_In, in_map_iff. exists (k, v).
      split; [reflexivity|apply list_elem_of_In; exact Hin].
Qed.

(** X19: after a sequence of registrations on an empty registry, the
    listing and the lookup agree: every listed service has every
    required field and a settlement router, and looking up its own [id]
    finds that very record; and what is found under an id carries it. *)
Theorem listed_services_found (configs : list (gmap string JsValue)) s :
  services s = [] ->
  let final := addServices E this configs s in
  (forall record, record ∈ listServices final ->
     complete record = true
     /\ (exists routerAddress, record !! "settlementRouter" = Some (JString routerAddress))
     /\ getService (prop record "id") final = Some record)
  /\ (forall id record, getService id final = Some record ->
        prop record "id" = id /\ record ∈ listServices final).
Proof.
  intros Hs final.
  assert (Hw : Forall wellStored (services final)).
  { apply addServices_wellStored. rewrite Hs. constructor. }
  assert (Hn : NoDup (map_keys (services final))).
  { apply (addServices_invariant E this configs s). split; rewrite Hs; constructor. }
  assert (Hget : forall id record, getService id final = Some record ->
                                   (id, record) ∈ services final).
  { unfold getService. clear. induction (services final) as [|[k v] m IH];
      cbn [map_get]; intros id record H; [discriminate|].
    destruct (decide (k = id)) as [->|]; [injection H as ->; left|].
    right. apply IH, H. }
  split.
  - intros record Hin. unfold listServices, map_values in Hin.
    apply list_elem_of_In, in_map_iff in Hin as ([k r] & <- & Hin).
    apply list_elem_of_In in Hin. cbn [snd].
    rewrite Forall_forall in Hw. destruct (Hw _ Hin) as (Hid & Hc & Hr).
    cbn [fst snd] in *. split; [exact Hc|]. split; [exact Hr|].
    rewrite Hid. apply map_get_NoDup; assumption.
  - intros id record H. apply Hget in H. rewrite Forall_forall in Hw.
    destruct (Hw _ H) as (Hid & _). split; [exact Hid|].
    unfold listServices, map_values. apply list_elem_of_In, in_map_iff.
    exists (id, record). split; [reflexivity|apply list_elem_of_In; exact H].
Qed.

End RegistryMore.

Section Construction.
Import X402Server MoreSpec.

(** X20: the constructor of the server. When [name], [url] or
    [network] is absent or empty it throws a [ConfigurationError] that
    lists exactly the missing ones, in this order; a [network] that is
    not one of the two names is refused after that; otherwise the server
    is built with the settings of the network. [description] and
    [rpcUrl] are never required. *)
Theorem createX402Server_cases (config : X402ServerConfig) :
  let network := default "" (network config) in
  (missingConfigFields config <> [] ->
   createX402Server config
   = Throw (ConfigurationError
              ("Missing required configuration fields: "
               +:+ join ", " (missingConfigFields config))
              (Some (missingConfigFields config))))
  /\ (missingConfigFields config = [] ->
      NetworkConfig.isValidNetwork network = false ->
      createX402Server config
      = Throw (ConfigurationError
                 ("Invalid network: " +:+ network
                  +:+ ". Must be 'cronos' or 'cronos-testnet'") None))
  /\ (missingConfigFields config = [] ->
      NetworkConfig.isValidNetwork network = true ->
      exists n,
        NetworkConfig.network_of_string network = Some n
        /\ createX402Server config
           = Ok {| X402Server.config := config;
                   networkSettings := NetworkConfig.getConfig n (rpcUrl config) |}).
Proof.
  cbv zeta. unfold createX402Server, validateConfig, missingConfigFields, push_if.
  cbn [List.filter snd].
  destruct (falsy (name config)); destruct (falsy (url config));
    destruct (falsy (X402Server.network config));
    cbn [app length Nat.ltb Nat.leb map fst bindR];
    (split; [|split]); try congruence; try reflexivity; intros _.
  - unfold NetworkConfig.isValidNetwork, NetworkConfig.network_of_string.
    destruct (String.eqb _ "cronos"); [discriminate|].
    destruct (String.eqb _ "cronos-testnet"); [discriminate|]. reflexivity.
  - unfold NetworkConfig.isValidNetwork, NetworkConfig.network_of_string.
    destruct (String.eqb _ "cronos"); [intros _; eexists; split; reflexivity|].
    destruct (String.eqb _ "cronos-testnet"); [intros _; eexists; split; reflexivity|].
    discriminate.
Qed.

(** X21: the settings that [getConfig] returns are the values of the
    four accessors; a custom RPC URL changes the RPC URL only, and an
    absent or empty one changes nothing. *)
Theorem getConfig_accessors (network : NetworkConfig.CronosNetwork)
        (customRpcUrl : option string) :
  NetworkConfig.getConfig network customRpcUrl
  = {| NetworkConfig.chainId := NetworkAccessors.getChainId network;
       NetworkConfig.rpcUrl := NetworkAccessors.getRpcUrl network customRpcUrl;
       NetworkConfig.usdcAddress := NetworkAccessors.getUsdcAddress network;
       NetworkConfig.blockExplorer := NetworkAccessors.getBlockExplorer network |}
  /\ (falsy customRpcUrl = true ->
      NetworkConfig.getConfig network customRpcUrl
      = NetworkConfig.getDefaultConfig network)
  /\ (falsy customRpcUrl = false ->
      Some (NetworkConfig.rpcUrl (NetworkConfig.getConfig network customRpcUrl))
      = customRpcUrl).
Proof.
  unfold NetworkConfig.getConfig, NetworkAccessors.getRpcUrl, NetworkAccessors.getChainId,
    NetworkAccessors.getUsdcAddress, NetworkAccessors.getBlockExplorer,
    NetworkConfig.getDefaultConfig, falsy.
  destruct customRpcUrl as [url|]; [destruct (String.eqb url "")|]; cbn [negb];
    (split; [destruct network; reflexivity|]); split; intros; try reflexivity;
    discriminate.
Qed.

(** X22: a client that is given the [network] and [rpcUrl] of a server
    that could be built works with the network settings of that
    server. *)
Theorem client_server_settings (config : X402ServerConfig) (server : X402Server) :
  createX402Server config = Ok server ->
  X402Discovery.createX402Client
    {| X402Discovery.network := network config;
       X402Discovery.rpcUrl := rpcUrl config |}
  = Ok (networkSettings server).
Proof.
  unfold createX402Server, X402Discovery.createX402Client, validateConfig,
    X402Discovery.validateConfig, push_if.
  cbn [X402Discovery.network X402Discovery.rpcUrl].
  destruct (falsy (name config)); destruct (falsy (url config));
    destruct (falsy (network config));
    cbn [app length Nat.ltb Nat.leb bindR]; try discriminate.
  destruct (NetworkConfig.network_of_string _); cbn [bindR]; [|discriminate].
  intros [= <-]. reflexivity.
Qed.

(** X23: the constructor of the client returns exactly when [network]
    is one of the two network names; nothing else is required of its
    configuration. *)
Theorem createX402Client_returns_iff (config : X402Discovery.X402ClientConfig) :
  returns (X402Discovery.createX402Client config)
  <-> exists network,
      X402Discovery.network config = Some network
      /\ NetworkConfig.isValidNetwork network = true.
Proof.
  unfold X402Discovery.createX402Client, X402Discovery.validateConfig, falsy, returns.
  destruct (X402Discovery.network config) as [nw|]; cbn [default from_option]; unfold id.
  - unfold NetworkConfig.network_of_string, NetworkConfig.isValidNetwork.
    destruct (String.eqb_spec nw "") as [->|]; cbn [bindR String.eqb].
    + split; [intros [? ?]; discriminate|]. intros (? & [= <-] & H). discriminate.
    + destruct (String.eqb nw "cronos") eqn:H1; cbn [bindR orb].
      * split; [|intros _; eexists; reflexivity].
        intros _. exists nw. rewrite H1. split; reflexivity.
      * destruct (String.eqb nw "cronos-testnet") eqn:H2; cbn [bindR].
        -- split; [|intros _; eexists; reflexivity].
           intros _. exists nw. rewrite H1, H2. split; reflexivity.
        -- split; [intros [? ?]; discriminate|]. intros (? & [= <-] & H).
           rewrite H1, H2 in H. discriminate.
  - cbn [bindR]. split; [intros [? ?]; discriminate | intros (? & ? & _); discriminate].
Qed.

End Construction.

(** * Further properties of discovery and of the routes *)

Section Discovery.
Import X402Discovery MoreSpec.
Context {W : Type} (fetch : W -> string -> Result Response * W).

Lemma stripTrailingSlash_snoc (l : list ascii) (c : ascii) :
  stripTrailingSlash (l ++ [c]) = if Ascii.eqb c "/"%char then l else l ++ [c].
Proof.
  induction l as [|d l IH].
  - cbn. destruct (Ascii.eqb c "/"); reflexivity.
  - cbn [app stripTrailingSlash]. rewrite IH.
    destruct (l ++ [c]) eqn:Hl; [destruct l; discriminate|].
    destruct (Ascii.eqb c "/"); reflexivity.
Qed.

(** X24: the URL of the agent card. One slash at the end of the server
    URL is dropped before the path is appended, and one only: of two
    slashes the first stays. A URL that ends in another character is
    used as it is. *)
Theorem agentCardUrl_trailing_slash (serverUrl : string) :
  agentCardUrl (serverUrl +:+ "/") = serverUrl +:+ "/.well-known/agent.json"
  /\ agentCardUrl (serverUrl +:+ "//") = serverUrl +:+ "//.well-known/agent.json"
  /\ (forall c l, chars serverUrl = l ++ [c] -> c <> "/"%char ->
        agentCardUrl serverUrl = serverUrl +:+ "/.well-known/agent.json").
Proof.
  assert (Happ : forall a b, chars (a +:+ b) = chars a ++ chars b).
  { intros a b. induction a as [|x a IH]; [reflexivity|].
    change (chars (String x a +:+ b)) with (x :: chars (a +:+ b)).
    rewrite IH. reflexivity. }
  assert (Hstr : forall l k, str (l ++ k) = str l +:+ str k).
  { intros l k. rewrite <- (str_chars (str l +:+ str k)), Happ, !chars_str.
    reflexivity. }
  assert (Hassoc : forall a b c : string, (a +:+ b) +:+ c = a +:+ (b +:+ c)).
  { intros a b c. induction a as [|x a IH]; [reflexivity|].
    change (String x ((a +:+ b) +:+ c) = String x (a +:+ (b +:+ c))). rewrite IH.
    reflexivity. }
  split; [|split].
  - unfold agentCardUrl. rewrite Happ.
    change (chars "/") with ["/"%char]. rewrite stripTrailingSlash_snoc.
    cbn [Ascii.eqb Bool.eqb]. rewrite str_chars. reflexivity.
  - unfold agentCardUrl. rewrite Happ.
    change (chars "//") with (["/"%char] ++ ["/"%char]). rewrite app_assoc.
    rewrite stripTrailingSlash_snoc. cbn [Ascii.eqb Bool.eqb].
    rewrite Hstr, str_chars, Hassoc. reflexivity.
  - intros c l Hl Hc. unfold agentCardUrl. rewrite Hl, stripTrailingSlash_snoc.
    destruct (Ascii.eqb_spec c "/"); [contradiction|].
    rewrite <- Hl, str_chars. reflexivity.
Qed.

Lemma discover_run (serverUrl : string) (s : Http W) :
  exists d,
    discover fetch serverUrl s
    = (Ok d, {| web := snd (fetch (web s) (agentCardUrl serverUrl));
                fetched := fetched s ++ [agentCardUrl serverUrl] |})
    /\ X402Discovery.serverUrl d = serverUrl
    /\ services d = card_services (agentCard d)
    /\ match fetch (web s) (agentCardUrl serverUrl) with
       | (Ok response, _) =>
           if ok response then
             match json response with
             | Ok card => agentCard d = card /\ error d = None
             | Throw e =>
                 d = failed serverUrl
                       (if instanceofError e then message_of e else "Unknown error")
             end
           else d = failed serverUrl
                      ("Failed to fetch agent card: " +:+ statusText response)
       | (Throw e, _) =>
           d = failed serverUrl
                 (if instanceofError e then message_of e else "Unknown error")
       end.
Proof.
  unfold discover, tryCatch, bind, doFetch, liftR, ret, throw.
  destruct (fetch (web s) (agentCardUrl serverUrl)) as [[response|e] w']; cbn [snd].
  - destruct (ok response); cbn [negb].
    + destruct (json response) as [card|e].
      * eexists. split; [reflexivity|]. cbn. repeat split.
      * destruct e; eexists; (split; [reflexivity|]); cbn; repeat split.
    + eexists. split; [reflexivity|]. cbn. repeat split.
  - destruct e; eexists; (split; [reflexivity|]); cbn; repeat split.
Qed.

(** X25: [discover] does not throw, whatever the network does. It
    fetches the agent card once; the result names the server URL it was
    given, and its services are those of its agent card. A response that
    is not ok, a failed fetch and a body that cannot be read all give a
    result with an error text and no services. *)
Theorem discover_never_throws (serverUrl : string) (s : Http W) :
  exists d s',
    discover fetch serverUrl s = (Ok d, s')
    /\ fetched s' = fetched s ++ [agentCardUrl serverUrl]
    /\ X402Discovery.serverUrl d = serverUrl
    /\ services d = card_services (agentCard d)
    /\ (error d <> None ->
        services d = []
        /\ card_name (agentCard d) = ""
        /\ card_url (agentCard d) = serverUrl)
    /\ (error d = None ->
        exists response,
          fst (fetch (web s) (agentCardUrl serverUrl)) = Ok response
          /\ ok response = true
          /\ json response = Ok (agentCard d)).
Proof.
  destruct (discover_run serverUrl s) as (d & Hd & Hu & Hs & Hcase).
  exists d. eexists. split; [exact Hd|]. cbn [fetched].
  split; [reflexivity|]. split; [exact Hu|]. split; [exact Hs|].
  destruct (fetch (web s) (agentCardUrl serverUrl)) as [[response|e] w'].
  - destruct (ok response) eqn:Hok.
    + destruct (json response) as [card|e] eqn:Hj.
      * destruct Hcase as [Hc He]. split; [congruence|].
        intros _. exists response. rewrite Hok, Hj, Hc. repeat split.
      * subst d. cbn. split; [intros _; repeat split | discriminate].
    + subst d. cbn. split; [intros _; repeat split | discriminate].
  - subst d. cbn. split; [intros _; repeat split | discriminate].
Qed.

(** X26: [discoverAll] does not throw either: it gives one result for
    each server URL, in the order of the URLs, and fetches one agent
    card for each, so that a server that fails does not hide the
    others. *)
Theorem discoverAll_one_result_each (serverUrls : list string) (s : Http W) :
  exists ds s',
    discoverAll fetch serverUrls s = (Ok ds, s')
    /\ map X402Discovery.serverUrl ds = serverUrls
    /\ fetched s' = fetched s ++ map agentCardUrl serverUrls
    /\ Forall (fun d => services d = card_services (agentCard d)) ds.
Proof.
  revert s. induction serverUrls as [|url rest IH]; intros s.
  - exists [], s. cbn. rewrite app_nil_r. repeat split. constructor.
  - destruct (discover_run url s) as (d & Hd & Hu & Hs & _).
    cbn [discoverAll]. unfold bind. rewrite Hd.
    match goal with |- context [discoverAll fetch rest ?s1] =>
      destruct (IH s1) as (ds & s' & Hds & Hmap & Hf & Hall) end.
    rewrite Hds. exists (d :: ds), s'. split; [reflexivity|].
    cbn [map]. rewrite Hu, Hmap, Hf. cbn [fetched]. rewrite <- app_assoc.
    repeat split. constructor; assumption.
Qed.

End Discovery.

Section Routes.
Import Ledger X402Server X402Routes MoreSpec.
Context {W : Type} (E : Env W) (this : X402Server).

Lemma getServiceResponse_returns (service : JsObject) :
  returns (getServiceResponse service) <-> hasKnownHookType service = true.
Proof.
  unfold getServiceResponse, hasKnownHookType, returns.
  destruct (prop service "hookType") as [| |b|n|hookType|r]; cbn [bindR];
    try (split; [intros [? ?]; discriminate | discriminate]).
  unfold HookDataSchemas.getSchema, HookDataSchemas.knownHookType.
  destruct (String.eqb hookType "nft-mint"); cbn [bindR orb];
    [split; [reflexivity | intros _; eexists; reflexivity]|].
  destruct (String.eqb hookType "reward-points"); cbn [bindR orb];
    [split; [reflexivity | intros _; eexists; reflexivity]|].
  destruct (String.eqb hookType "transfer-split"); cbn [bindR orb];
    [split; [reflexivity | intros _; eexists; reflexivity]|].
  split; [intros [? ?]; discriminate | discriminate].
Qed.

(** X27: the route of one service answers 404 exactly when no service
    is stored under the id of the request; after a sequence of
    registrations on an empty registry, that is when no registration
    under that id returned. *)
Theorem serviceRoute_not_found (configs : list JsObject) (s : State W) (id : string) :
  services s = [] ->
  let final := addServices E this configs s in
  (JString id ∉ Spec.registeredIds E this configs s ->
   serviceRoute id final
   = Ok (NotFoundJson "Service not found" ("No service found with ID: " +:+ id)))
  /\ (JString id ∈ Spec.registeredIds E this configs s ->
      forall reply, serviceRoute id final = Ok reply -> statusOf reply = 200).
Proof.
  intros Hs final.
  assert (Hk : is_Some (getService (JString id) final)
               <-> JString id ∈ Spec.registeredIds E this configs s).
  { unfold getService, final. rewrite map_get_is_Some.
    rewrite (addServices_keys E this configs s []) by (rewrite Hs; reflexivity).
    cbn [app]. apply elem_of_firstOccurrences. }
  unfold serviceRoute. split.
  - intros Hn. destruct (getService (JString id) final) as [service|]; [|reflexivity].
    exfalso. apply Hn, Hk. eexists; reflexivity.
  - intros Hin reply. apply Hk in Hin as [service Hget]. rewrite Hget.
    destruct (getServiceResponse service); cbn [bindR]; [|discriminate].
    intros [= <-]. reflexivity.
Qed.

(** X28: registration does not check the hook type, and the routes
    do. A service with a hook type other than the three known ones is
    registered like any other; from then on the route that lists the
    services throws, and it returns one entry for each stored service
    exactly when every stored service has a known hook type. *)
Theorem servicesRoute_needs_known_hook_types (s : State W) :
  (returns (servicesRoute s)
   <-> Forall (fun service => hasKnownHookType service = true) (listServices s))
  /\ (forall entries, servicesRoute s = Ok (ServicesJson entries) ->
        map fst entries = listServices s)
  /\ (forall serviceConfig s',
        addService E this serviceConfig s = (Ok tt, s') ->
        hasKnownHookType serviceConfig = false ->
        exists t, servicesRoute s' = Throw t).
Proof.
  assert (Hret : forall st : State W, returns (servicesRoute st)
            <-> Forall (fun service => hasKnownHookType service = true) (listServices st)).
  { intros st. unfold servicesRoute.
    assert (H : returns (mapR getServiceResponse (listServices st))
                <-> Forall (fun service => hasKnownHookType service = true)
                           (listServices st)).
    { rewrite mapR_returns. apply Forall_iff. intros x. apply getServiceResponse_returns. }
    rewrite <- H. unfold returns.
    destruct (mapR getServiceResponse (listServices st)); cbn [bindR].
    - split; intros _; eexists; reflexivity.
    - split; intros [? ?]; discriminate. }
  split; [apply Hret|]. split.
  - intros entries. unfold servicesRoute.
    destruct (mapR getServiceResponse (listServices s)) as [l|] eqn:Hm; cbn [bindR];
      [|discriminate].
    intros [= <-]. revert l Hm. induction (listServices s) as [|x xs IH]; cbn [mapR].
    + intros l [= <-]. reflexivity.
    + intros l. unfold getServiceResponse at 1.
      destruct (match prop x "hookType" with
                | JString hookType => HookDataSchemas.getSchema hookType
                | other => Throw (JsError ("Unknown hook type: " +:+ Js.toString other))
                end) as [schema|]; cbn [bindR]; [|discriminate].
      destruct (mapR getServiceResponse xs) as [ys|]; cbn [bindR]; [|discriminate].
      intros [= <-]. cbn [map fst]. f_equal. apply IH. reflexivity.
  - intros serviceConfig s' Hadd Hunknown.
    destruct (servicesRoute s') as [reply|t] eqn:Hr; [|exists t; reflexivity].
    exfalso. assert (Hall : returns (servicesRoute s')) by (eexists; exact Hr).
    apply Hret in Hall. rewrite Forall_forall in Hall.
    destruct (addService_Ok E this _ _ _ Hadd) as (routerAddress & _ & Hs').
    assert (Hin : Spec.resolvedRecord (networkSettings this) routerAddress serviceConfig
                  ∈ listServices s').
    { unfold listServices, map_values. rewrite Hs'.
      generalize (Spec.resolvedRecord (networkSettings this) routerAddress serviceConfig).
      generalize (prop serviceConfig "id"). clear.
      intros k v. induction (services s) as [|[k' v'] m IH]; cbn [map_set map snd].
      - left.
      - destruct (decide (k' = k)); cbn [map snd]; [left|right; exact IH]. }
    apply Hall in Hin. unfold hasKnownHookType in Hin, Hunknown.
    rewrite prop_resolvedRecord in Hin by (apply list_elem_of_In; cbn; tauto).
    congruence.
Qed.

End Routes.

Section SignatureBytes.
Import Ethers X402Client.

Lemma hexVal_range c v : hexVal c = Some v -> 0 <= v < 16.
Proof.
  unfold hexVal. set (n := Z.of_nat (nat_of_ascii c)).
  destruct (Z.leb_spec 48 n); destruct (Z.leb_spec n 57); cbn [andb];
    try (intros [= <-]; lia);
    destruct (Z.leb_spec 97 n); destruct (Z.leb_spec n 102); cbn [andb];
    try (intros [= <-]; lia);
    destruct (Z.leb_spec 65 n); destruct (Z.leb_spec n 70); cbn [andb];
    try (intros [= <-]; lia); discriminate.
Qed.

Lemma bytesOfHex_digits (n : nat) (l : list ascii) :
  length l = (2 * n)%nat -> forallb isHexChar l = true ->
  exists bs, bytesOfHex l = Some bs
             /\ length bs = n
             /\ Forall (fun b => 0 <= b < 256) bs.
Proof.
  revert l. induction n as [|n IH]; intros l Hlen Hhex.
  - destruct l; [|discriminate]. exists []. repeat split. constructor.
  - destruct l as [|h [|lo rest]]; try (cbn in Hlen; lia).
    cbn [forallb] in Hhex. apply andb_true_iff in Hhex as [Hh Hhex].
    apply andb_true_iff in Hhex as [Hlo Hhex].
    destruct (IH rest) as (bs & Hbs & Hn & Hall); [cbn in Hlen; lia|exact Hhex|].
    unfold isHexChar in Hh, Hlo. cbn [bytesOfHex].
    destruct (hexVal h) as [hv|] eqn:E1; [|discriminate].
    destruct (hexVal lo) as [lv|] eqn:E2; [|discriminate].
    rewrite Hbs. exists (16 * hv + lv :: bs).
    apply hexVal_range in E1, E2.
    split; [reflexivity|]. split; [cbn [length]; lia|].
    constructor; [lia|exact Hall].
Qed.

(** X29: a signature that [validateSignature] accepts is what the
    error text asks for: [getBytes] reads it as 65 bytes. *)
Theorem valid_signature_is_65_bytes (signature : string) :
  validateSignature signature = true ->
  exists bytes,
    getBytes signature = Ok bytes
    /\ length bytes = 65%nat
    /\ Forall (fun b => 0 <= b < 256) bytes.
Proof.
  unfold validateSignature, slice, getBytes. rewrite string_length_chars, chars_str.
  intros H.
  destruct (chars signature) as [|c0 [|c1 rest]];
    cbn [chars list_ascii_of_string startsWith andb negb] in H; try discriminate H.
  { destruct (Ascii.eqb "0" c0); discriminate H. }
  destruct (Ascii.eqb_spec "0" c0) as [<-|]; [|discriminate H].
  destruct (Ascii.eqb_spec "x" c1) as [<-|]; [|discriminate H].
  cbn [andb negb length skipn] in H.
  destruct (Nat.eqb_spec (S (S (length rest))) 132) as [Hlen|]; [|discriminate H].
  cbn [negb] in H. unfold testHexPlus in H. destruct rest as [|r rest]; [discriminate H|].
  destruct (bytesOfHex_digits 65 (r :: rest)) as (bs & Hbs & Hn & Hall);
    [cbn [length] in *; lia|exact H|].
  rewrite Hbs. exists bs. repeat split; assumption.
Qed.

End SignatureBytes.

(** * Instances of the further properties *)

Section MoreInstances.
Import Ledger Spec MoreSpec.

Lemma sample_revert_reason :
  exists pre,
    reasonAt pre (chars "Router: paused") (chars MoreSample.revertText)
    /\ forall pre' group',
         reasonAt pre' group' (chars MoreSample.revertText) ->
         (length pre <= length pre')%nat.
Proof.
  apply (proj1 (matchRevertReason_leftmost (chars MoreSample.revertText))).
  vm_compute. reflexivity.
Defined.

Lemma sample_submission :
  let prepared := Sample.preparedWith None None in
  let send := router_settleAndExecute Sample.env (world Sample.ledger0)
                (X402Client.routerAddress prepared) Sample.signerKey
                (settleArgs prepared Sample.goodSignature) in
  Spec.SignatureShape Sample.goodSignature
  /\ exists tx receipt,
      fst send = Ok tx
      /\ fst (tx_wait Sample.env (snd send) tx) = Ok receipt
      /\ world (snd (X402Client.submitTransaction Sample.env prepared
                       Sample.goodSignature Sample.signerKey Sample.ledger0))
         = snd (tx_wait Sample.env (snd send) tx)
      /\ trace (snd (X402Client.submitTransaction Sample.env prepared
                       Sample.goodSignature Sample.signerKey Sample.ledger0))
         = trace Sample.ledger0
           ++ [SendSettleAndExecute (X402Client.routerAddress prepared)
                 Sample.signerKey (settleArgs prepared Sample.goodSignature);
               WaitForReceipt tx]
      /\ X402Client.success MoreSample.submitted = true
      /\ X402Client.txHash MoreSample.submitted = hash receipt
      /\ X402Client.blockNumber MoreSample.submitted = Ledger.blockNumber receipt
      /\ Forall2 (fun log event =>
                    match interface_parseLog Sample.env log with
                    | Ok (Some parsed) =>
                        X402Client.event_name event = log_name parsed
                        /\ X402Client.event_args event
                           = X402Client.eventArgs (log_inputs parsed) (log_args parsed)
                    | _ => event = unknownEvent
                    end)
                 (logs receipt) (X402Client.events MoreSample.submitted).
Proof.
  apply (submitTransaction_returns Sample.env (Sample.preparedWith None None)
           Sample.goodSignature Sample.signerKey Sample.ledger0).
  vm_compute. reflexivity.
Defined.

Lemma sample_refused_settlement :
  let prepared := Sample.preparedWith None None in
  let t := TransactionError ("Transaction failed: " +:+ MoreSample.revertText) None
             (Some "Router: paused") in
  let s' := snd (X402Client.submitTransaction MoreSample.failingEnv prepared
                   Sample.goodSignature "0x01" Sample.ledger0) in
  let send := router_settleAndExecute MoreSample.failingEnv (world Sample.ledger0)
                (X402Client.routerAddress prepared) "0x01"
                (settleArgs prepared Sample.goodSignature) in
  let sent := SendSettleAndExecute (X402Client.routerAddress prepared) "0x01"
                (settleArgs prepared Sample.goodSignature) in
  (X402Client.validateSignature Sample.goodSignature = false
   /\ t = SignatureError "Invalid signature format"
            (Some "Signature must be a 65-byte hex string starting with 0x")
   /\ s' = Sample.ledger0)
  \/ (X402Client.validateSignature Sample.goodSignature = true
      /\ exists e,
          (instanceofError e = true ->
           t = TransactionError ("Transaction failed: " +:+ message_of e) None
                 (option_map str (X402Client.matchRevertReason (chars (message_of e)))))
          /\ (instanceofError e = false -> t = e)
          /\ ((fst send = Throw e /\ trace s' = trace Sample.ledger0 ++ [sent])
              \/ exists tx,
                  fst send = Ok tx
                  /\ fst (tx_wait MoreSample.failingEnv (snd send) tx) = Throw e
                  /\ trace s' = trace Sample.ledger0 ++ [sent; WaitForReceipt tx])).
Proof.
  apply (submitTransaction_throws MoreSample.failingEnv (Sample.preparedWith None None)
           Sample.goodSignature "0x01" Sample.ledger0).
  vm_compute. reflexivity.
Defined.

Lemma sample_preparation_reads :
  let txParams := Sample.txParams None None in
  let prepared := Sample.preparedWith None None in
  let s' := snd (X402Client.prepareTransaction Sample.env txParams Sample.ledger0) in
  trace s'
  = trace Sample.ledger0
    ++ [ReadCommitment (X402Client.routerAddress prepared) (commitmentOf prepared);
        ReadTokenName (X402Client.p_token (X402Client.params prepared));
        ReadTokenVersion (X402Client.p_token (X402Client.params prepared))]
  /\ fst (router_calculateCommitment Sample.env
            (afterAmbient Sample.env (world Sample.ledger0))
            (X402Client.routerAddress prepared) (commitmentOf prepared))
     = Ok (X402Client.nonce prepared)
  /\ X402Client.routerAddress prepared
     = X402Client.settlementRouter (X402Client.service txParams)
  /\ X402Client.p_hook (X402Client.params prepared)
     = X402Client.hookAddress (X402Client.service txParams)
  /\ X402Client.p_token (X402Client.params prepared)
     = X402Client.usdcAddress (X402Client.service txParams)
  /\ X402Client.p_from (X402Client.params prepared) = X402Client.payerAddress txParams
  /\ X402Client.p_payTo (X402Client.params prepared) = X402Client.payTo txParams
  /\ X402Client.salt prepared
     = Ethers.hexlify (fst (randomBytes Sample.env (world Sample.ledger0) 32))
  /\ HookDataCodec.encode (X402Client.hookType (X402Client.service txParams))
       (X402Client.hookDataParams txParams)
     = Ok (X402Client.hookData prepared)
  /\ Ethers.parseUnits (X402Client.paymentAmount txParams) 6
     = Ok (X402Client.p_value (X402Client.params prepared)).
Proof.
  apply (prepareTransaction_reads Sample.env (Sample.txParams None None) Sample.ledger0).
  vm_compute. reflexivity.
Defined.

Lemma sample_typed_data :
  let txParams := Sample.txParams None None in
  let prepared := Sample.preparedWith None None in
  let typed := X402Discovery.getTypedDataForSigning prepared in
  X402Client.primaryType typed = "TransferWithAuthorization"
  /\ map fst (X402Client.types_TransferWithAuthorization typed)
     = ["from"; "to"; "value"; "validAfter"; "validBefore"; "nonce"]
  /\ X402Client.m_from (X402Client.message typed)
     = X402Client.p_from (X402Client.params prepared)
  /\ X402Client.m_to (X402Client.message typed) = X402Client.routerAddress prepared
  /\ X402Client.m_value (X402Client.message typed)
     = pretty (X402Client.p_value (X402Client.params prepared))
  /\ X402Client.m_nonce (X402Client.message typed) = X402Client.nonce prepared
  /\ X402Client.d_verifyingContract (X402Client.domain typed)
     = X402Client.p_token (X402Client.params prepared)
  /\ X402Client.d_chainId (X402Client.domain typed)
     = X402Client.chainId (X402Client.service txParams)
  /\ exists w w',
      fst (token_name Sample.env w (X402Client.p_token (X402Client.params prepared)))
      = Ok (X402Client.d_name (X402Client.domain typed))
      /\ fst (token_version Sample.env w'
                (X402Client.p_token (X402Client.params prepared)))
         = Ok (X402Client.d_version (X402Client.domain typed)).
Proof.
  apply (typed_data_matches_prepared Sample.env (Sample.txParams None None)
           Sample.ledger0
           (snd (X402Client.prepareTransaction Sample.env (Sample.txParams None None)
                   Sample.ledger0))).
  vm_compute. reflexivity.
Defined.


Lemma sample_prepared_payload :
  HookDataCodec.decode
    (X402Client.hookType (X402Client.service (Sample.txParams None None)))
    (X402Client.hookData (Sample.preparedWith None None))
  = Ok (Spec.canonical (X402Client.hookDataParams (Sample.txParams None None))).
Proof.
  apply (prepared_payload_decodes Sample.env (Sample.txParams None None) Sample.ledger0
           (snd (X402Client.prepareTransaction Sample.env (Sample.txParams None None)
                   Sample.ledger0))).
  - vm_compute. reflexivity.
  - reflexivity.
  - split; [|split].
    + constructor; [vm_compute; reflexivity | constructor].
    + constructor.
    + vm_compute. reflexivity.
Defined.

Lemma sample_lookup_after_registrations :
  is_Some (X402Server.getService (JString "nft-mint")
             (X402Server.addServices Sample.env Sample.server Sample.registrations
                Sample.state0))
  <-> JString "nft-mint"
      ∈ registeredIds Sample.env Sample.server Sample.registrations Sample.state0.
Proof.
  apply (getService_registered Sample.env Sample.server Sample.registrations
           Sample.state0 (JString "nft-mint")).
  reflexivity.
Defined.

Lemma sample_listing_and_lookup :
  let final := X402Server.addServices Sample.env Sample.server Sample.registrations
                 Sample.state0 in
  (forall record, record ∈ X402Server.listServices final ->
     complete record = true
     /\ (exists routerAddress,
           record !! "settlementRouter" = Some (JString routerAddress))
     /\ X402Server.getService (X402Server.prop record "id") final = Some record)
  /\ (forall id record, X402Server.getService id final = Some record ->
        X402Server.prop record "id" = id /\ record ∈ X402Server.listServices final).
Proof.
  apply (listed_services_found Sample.env Sample.server Sample.registrations
           Sample.state0).
  reflexivity.
Defined.

Lemma sample_client_settings :
  X402Discovery.createX402Client
    {| X402Discovery.network := X402Server.network Sample.serverConfig;
       X402Discovery.rpcUrl := X402Server.rpcUrl Sample.serverConfig |}
  = Ok (X402Server.networkSettings Sample.server).
Proof.
  apply (client_server_settings Sample.serverConfig Sample.server).
  reflexivity.
Defined.

Lemma sample_service_route :
  let final := X402Server.addServices Sample.env Sample.server Sample.registrations
                 Sample.state0 in
  (JString "reward-points"
   ∉ registeredIds Sample.env Sample.server Sample.registrations Sample.state0 ->
   X402Routes.serviceRoute "reward-points" final
   = Ok (X402Routes.NotFoundJson "Service not found"
           ("No service found with ID: " +:+ "reward-points")))
  /\ (JString "reward-points"
      ∈ registeredIds Sample.env Sample.server Sample.registrations Sample.state0 ->
      forall reply, X402Routes.serviceRoute "reward-points" final = Ok reply ->
                    X402Routes.statusOf reply = 200).
Proof.
  apply (serviceRoute_not_found Sample.env Sample.server Sample.registrations
           Sample.state0 "reward-points").
  reflexivity.
Defined.

Lemma sample_unknown_hook_type_breaks_listing :
  exists t,
    X402Routes.servicesRoute
      (snd (X402Server.addService Sample.env Sample.server MoreSample.customHookConfig
              Sample.state0))
    = Throw t.
Proof.
  apply (proj2 (proj2 (servicesRoute_needs_known_hook_types Sample.env Sample.server
                         Sample.state0)) MoreSample.customHookConfig).
  - vm_compute. reflexivity.
  - vm_compute. reflexivity.
Defined.

Lemma sample_signature_bytes :
  exists bytes,
    Ethers.getBytes Sample.goodSignature = Ok bytes
    /\ length bytes = 65%nat
    /\ Forall (fun b => 0 <= b < 256) bytes.
Proof.
  apply (valid_signature_is_65_bytes Sample.goodSignature).
  vm_compute. reflexivity.
Defined.

End MoreInstances.

